(** * Twin synchronisation engine of azure-iot-pnp: a shallow embedding

    The development follows the TypeScript sources:
    - the helpers of [src/util] ([filterTwinMeta], [normalizeComponentState],
      [normalizeWritablePropertyAck]),
    - [src/pnp/writable-property] ([isWritablePropertyResponse]),
    - the device client ([retry], [DeviceClient.create], [registerComponent],
      the handler registry, [reportComponentProperties], [connect],
      [disconnect] and the private [#handleChangedComponentProperties]),
    - the component base class [PnPComponent] ([getReportedState],
      [getDesiredState], [reportState], [clear], the handler and command
      registrations, telemetry and file upload),
    - the rest of the device client ([clearReportedProperties], telemetry,
      [upload], the private [#provision] and [#createMessage]),
    - the identity code of [src/identity] with [src/util/fs],
      [src/util/validation] and the command runners of [src/util/command],
      [getEnv] and [setupFromEnv], and [removeDeviceIdentity] of the
      service client.

    JavaScript values are modelled as JSON data.  Numbers are the integers
    (non-integral doubles are outside the model; an integer that is not a
    double stands for the double nearest to it), strings are sequences of
    characters, and an object is an ordinary object, given by the list of
    its own enumerable string-keyed properties in the order [Object.entries]
    enumerates them; its prototype is [Object.prototype].  Asynchronous
    code is modelled by what it does when it is run to its end: the calls it
    makes, in order, and how it settles.  Calls of [log] are left out. *)

From Stdlib Require Import ZArith NArith List String Ascii Bool Lia.
From Stdlib Require Import DecimalString DecimalN DecimalZ Sorted.
From stdpp Require Import gmap strings.

Set Warnings "-register-all".
Local Open Scope string_scope.
Local Open Scope list_scope.

(** ** JavaScript values *)

Inductive JValue : Type :=
| JUndefined
| JNull
| JBool (b : bool)
| JNum (n : Z)
| JStr (s : string)
| JArr (items : list JValue)
| JObj (props : list (string * JValue)).

(** The property list of an object. *)
Abbreviation Props := (list (string * JValue)).

(** Errors raised inside the engine.  The constructors record where an error
    originates: the language itself, a user handler, the transport, or
    [registerComponent]. *)
Inductive JsError : Type :=
| TypeError (msg : string)
| HandlerError (reason : JValue)
| TransportError (reason : JValue)
| NoModelIdAssignedError (device : string).

Inductive Result (A : Type) : Type :=
| Ok (a : A)
| Throw (e : JsError).
Arguments Ok {A} a.
Arguments Throw {A} e.

(** *** Conversions *)

(** [ToBoolean]. *)
Definition js_truthy (v : JValue) : bool :=
  match v with
  | JUndefined | JNull => false
  | JBool b => b
  | JNum n => negb (n =? 0)%Z
  | JStr s => negb (String.eqb s "")
  | JArr _ | JObj _ => true
  end.

(** [a || b]. *)
Definition js_or (a b : JValue) : JValue := if js_truthy a then a else b.

(** [typeof v]. *)
Definition js_typeof (v : JValue) : string :=
  match v with
  | JUndefined => "undefined"
  | JNull => "object"
  | JBool _ => "boolean"
  | JNum _ => "number"
  | JStr _ => "string"
  | JArr _ | JObj _ => "object"
  end.

(** *** [Number::toString] on integers

    The digits are those of the shortest decimal that denotes the number:
    the least [k] such that some [s] of [k] digits and some exponent give a
    decimal whose nearest double is the number, and among those the [s]
    closest to it.  They are printed in full up to 21 digits and with an
    exponent above. *)

Definition decimal (n : Z) : string := NilEmpty.string_of_int (Z.to_int n).

(** The double nearest to a positive integer, ties going to the even
    mantissa of 53 bits. *)
Definition to_double (v : Z) : Z :=
  let bits := (Z.log2 v + 1)%Z in
  if (bits <=? 53)%Z then v
  else
    let shift := (bits - 53)%Z in
    let q := Z.shiftr v shift in
    let r := (v - Z.shiftl q shift)%Z in
    let half := Z.shiftl 1 (shift - 1) in
    let q' := if (half <? r)%Z || ((r =? half)%Z && Z.odd q) then (q + 1)%Z else q in
    Z.shiftl q' shift.

Definition digits (v : Z) : Z := Z.of_nat (String.length (decimal v)).

(** The shortest decimal of the double [v] that has [d] digits, as an
    integer: [k] significant digits are tried for [k] from 1 on, rounding
    [v] down and up to [k] digits. *)
Fixpoint shortest (fuel : nat) (k : Z) (v d : Z) : Z :=
  match fuel with
  | O => v
  | S fuel' =>
      let e := (d - k)%Z in
      if (e <=? 0)%Z then v
      else
        let p := (10 ^ e)%Z in
        let lo := (v / p * p)%Z in
        let hi := (lo + p)%Z in
        match (to_double lo =? v)%Z, (to_double hi =? v)%Z with
        | true, true =>
            if (v - lo <? hi - v)%Z then lo
            else if (hi - v <? v - lo)%Z then hi
            else if Z.even (v / p) then lo else hi
        | true, false => lo
        | false, true => hi
        | false, false => shortest fuel' (k + 1)%Z v d
        end
  end.

Fixpoint strip_zeros (reversed : list ascii) : list ascii :=
  match reversed with
  | "0"%char :: rest => strip_zeros rest
  | _ => reversed
  end.

(** [d.ddde+n]. *)
Definition exponential (m : Z) : string :=
  let all := list_ascii_of_string (decimal m) in
  let n := Z.of_nat (List.length all) in
  match List.rev (strip_zeros (List.rev all)) with
  | [] => "0"
  | [c] => String c (String.append "e+" (decimal (n - 1)))
  | c :: rest =>
      String c (String.append "."
                  (String.append (string_of_list_ascii rest)
                     (String.append "e+" (decimal (n - 1)))))
  end.

Definition positive_to_string (v : Z) : string :=
  let x := to_double v in
  if (2 ^ 1024 <=? x)%Z then "Infinity"
  else
    let m := shortest 17 1 x (digits x) in
    if (digits m <=? 21)%Z then decimal m else exponential m.

Definition number_to_string (n : Z) : string :=
  if (n =? 0)%Z then "0"
  else if (n <? 0)%Z then String.append "-" (positive_to_string (- n))
  else positive_to_string n.

(** *** Property keys and their order *)

(** The key under which an array or a string exposes its [i]-th element. *)
Definition index_key (i : nat) : string :=
  NilEmpty.string_of_uint (N.to_uint (N.of_nat i)).

(** A key is an array index when it is the canonical decimal rendering of an
    integer below [2^32 - 1]; such keys are enumerated first, in ascending
    numeric order (OrdinaryOwnPropertyKeys). *)
Definition array_index (k : string) : option N :=
  match NilEmpty.uint_of_string k with
  | Some d =>
      let n := N.of_uint d in
      if String.eqb (NilEmpty.string_of_uint (N.to_uint n)) k
         && (n <? 4294967295)%N
      then Some n else None
  | None => None
  end.

Fixpoint indexed_from (i : nat) (l : list JValue) : Props :=
  match l with
  | [] => []
  | x :: rest => (index_key i, x) :: indexed_from (S i) rest
  end.

Definition chars_of (s : string) : list JValue :=
  List.map (fun c => JStr (String c EmptyString)) (list_ascii_of_string s).

(** The own enumerable string-keyed properties of [ToObject v], in
    enumeration order.  This is what a spread [{...v}] copies; [null] and
    [undefined] contribute nothing to a spread. *)
Definition own_entries (v : JValue) : Props :=
  match v with
  | JObj props => props
  | JArr items => indexed_from 0 items
  | JStr s => indexed_from 0 (chars_of s)
  | JUndefined | JNull | JBool _ | JNum _ => []
  end.

(** [Object.entries(v)]: a [TypeError] on [null] and [undefined]. *)
Definition Object_entries (v : JValue) : Result Props :=
  match v with
  | JUndefined | JNull =>
      Throw (TypeError "Cannot convert undefined or null to object")
  | _ => Ok (own_entries v)
  end.

Definition has_key (o : Props) (k : string) : bool :=
  existsb (fun kv => String.eqb (fst kv) k) o.

Fixpoint obj_lookup (o : Props) (k : string) : option JValue :=
  match o with
  | [] => None
  | (k', v) :: rest => if String.eqb k' k then Some v else obj_lookup rest k
  end.

(** [o[k]] for a key that the object owns or that is none of the names of
    [Object.prototype]: the own property, [undefined] when there is
    none. *)
Definition js_get (v : JValue) (k : string) : JValue :=
  match obj_lookup (own_entries v) k with
  | Some x => x
  | None => JUndefined
  end.

(** The names [Object.prototype] defines.  A read [o[k]] that finds no own
    property [k] in an ordinary object finds the member of
    [Object.prototype] of that name, if there is one: a function, or under
    ["__proto__"] the prototype itself.  Each of them is truthy and has no
    enumerable property of its own. *)
Definition Object_prototype_keys : list string :=
  ["constructor"; "__defineGetter__"; "__defineSetter__"; "hasOwnProperty";
   "__lookupGetter__"; "__lookupSetter__"; "isPrototypeOf"; "propertyIsEnumerable";
   "toString"; "valueOf"; "__proto__"; "toLocaleString"].

Definition inherited (k : string) : bool :=
  existsb (String.eqb k) Object_prototype_keys.

(** [ToString], as a template literal applies it; [None] when it throws a
    [TypeError].  An object is converted by the [toString] it finds: the
    inherited one prints "[object Object]"; a property [toString] of its own
    (whose value, being data, cannot be called) leaves only [valueOf], which
    gives no primitive either, so the conversion throws.  An array joins its
    elements with a comma, [null] and [undefined] elements printing as the
    empty string. *)
Fixpoint js_to_string (v : JValue) : option string :=
  match v with
  | JUndefined => Some "undefined"
  | JNull => Some "null"
  | JBool true => Some "true"
  | JBool false => Some "false"
  | JNum n => Some (number_to_string n)
  | JStr s => Some s
  | JArr items =>
      (fix join (l : list JValue) : option string :=
         match l with
         | [] => Some ""
         | x :: rest =>
             match match x with
                   | JUndefined | JNull => Some ""
                   | _ => js_to_string x
                   end with
             | None => None
             | Some sx =>
                 match rest with
                 | [] => Some sx
                 | _ :: _ =>
                     match join rest with
                     | None => None
                     | Some srest => Some (sx +:+ "," +:+ srest)
                     end
                 end
             end
         end) items
  | JObj props => if has_key props "toString" then None else Some "[object Object]"
  end.

(** The message of the [TypeError] a failed conversion throws. *)
Definition cannot_convert : string := "Cannot convert object to primitive value".

Fixpoint obj_replace (k : string) (v : JValue) (o : Props) : Props :=
  match o with
  | [] => []
  | (k', x) :: rest =>
      if String.eqb k' k then (k', v) :: rest
      else (k', x) :: obj_replace k v rest
  end.

(** Position of a fresh array-index key: behind the smaller indices. *)
Fixpoint obj_insert_index (i : N) (k : string) (v : JValue) (o : Props) : Props :=
  match o with
  | [] => [(k, v)]
  | (k', x) :: rest =>
      match array_index k' with
      | Some j =>
          if (j <? i)%N then (k', x) :: obj_insert_index i k v rest
          else (k, v) :: (k', x) :: rest
      | None => (k, v) :: (k', x) :: rest
      end
  end.

(** [o[k] = v] (CreateDataProperty) on a plain object: an existing key keeps
    its place, a fresh array index joins the ascending index prefix, any
    other fresh key goes last. *)
Definition obj_set (o : Props) (k : string) (v : JValue) : Props :=
  if has_key o k then obj_replace k v o
  else match array_index k with
       | Some i => obj_insert_index i k v o
       | None => o ++ [(k, v)]
       end.

(** The assignment [o[k] = v] on an ordinary object: it sets the own
    property, except that under the key ["__proto__"], when the object owns
    no such property, it reaches the setter of [Object.prototype], which
    changes the prototype and leaves the properties as they are. *)
Definition obj_put (o : Props) (k : string) (v : JValue) : Props :=
  if String.eqb k "__proto__" && negb (has_key o k) then o else obj_set o k v.

(** [{...o, ...src}]: copy the own properties of [src] onto [o]. *)
Definition obj_assign (o : Props) (src : JValue) : Props :=
  fold_left (fun acc kv => obj_set acc (fst kv) (snd kv)) (own_entries src) o.

(** [Object.fromEntries(pairs)]. *)
Definition Object_fromEntries (pairs : Props) : JValue :=
  JObj (fold_left (fun acc kv => obj_set acc (fst kv) (snd kv)) pairs []).

(** The order invariant of every object's property list: keys are pairwise
    distinct, array indices come first in ascending order. *)
Definition key_before (k1 k2 : string) : bool :=
  match array_index k1, array_index k2 with
  | Some i, Some j => (i <? j)%N
  | Some _, None => true
  | None, Some _ => false
  | None, None => negb (String.eqb k1 k2)
  end.

Fixpoint keys_ordered (ks : list string) : bool :=
  match ks with
  | [] => true
  | k :: rest => forallb (key_before k) rest && keys_ordered rest
  end.

(** A value is well formed when its own property list is in enumeration
    order without repeated keys, as is the case of every JavaScript value. *)
Definition well_formed (v : JValue) : bool :=
  keys_ordered (List.map fst (own_entries v)).


(** ** The protocol markers ([src/util/markers])

    The engine is parametrised by the marker constants it imports: the
    version key, the component-marker key and the component-marker object
    that [reportComponentProperties] spreads into every component patch. *)

Record Markers : Type := {
  TWIN_VERSION_KEY : string;
  TWIN_COMPONENT_MARKER_KEY : string;
  TWIN_COMPONENT_MARKER : JValue;
}.

(** Modelled from the spec: [src/util/markers] is not among the sources.
    The scenario of the specification names the version key ["$version"];
    the marker key and the marker object are those of the IoT Plug and Play
    convention.  Only the concrete scenarios use these values, the theorems
    hold for every choice of markers. *)
Definition pnp_markers : Markers := {|
  TWIN_VERSION_KEY := "$version";
  TWIN_COMPONENT_MARKER_KEY := "__t";
  TWIN_COMPONENT_MARKER := JObj [("__t", JStr "c")];
|}.

(** ** [src/pnp/writable-property] *)

(** [k in v] for a value whose [typeof] is ["object"]: a [TypeError] on
    [null].  None of the keys tested below is inherited from a prototype. *)
Definition js_in (k : string) (v : JValue) : Result bool :=
  match v with
  | JObj _ | JArr _ => Ok (has_key (own_entries v) k)
  | _ => Throw (TypeError "Cannot use 'in' operator to search for a key in a non-object")
  end.

(** [a && b] on a boolean test whose right operand may throw. *)
Definition and_then (a : Result bool) (b : Result bool) : Result bool :=
  match a with
  | Ok true => b
  | Ok false => Ok false
  | Throw e => Throw e
  end.

Definition isWritablePropertyResponse (propertyValue : JValue) : Result bool :=
  and_then (Ok (String.eqb (js_typeof propertyValue) "object"))
    (and_then (js_in "ac" propertyValue)
       (and_then (js_in "ad" propertyValue)
          (and_then (js_in "av" propertyValue)
             (js_in "value" propertyValue)))).

(** ** [src/util/helpers] *)

Section Helpers.
Variable M : Markers.

(** The predicate of [filterTwinMeta]'s [filter]. *)
Definition not_twin_meta (key : string) : bool :=
  negb (String.eqb key (TWIN_VERSION_KEY M))
  && negb (String.eqb key (TWIN_COMPONENT_MARKER_KEY M))
  && negb (String.eqb key "update")
  && negb (String.prefix "$" key).

(** [Object.entries(delta || {}).filter(...)].  The operand of
    [Object.entries] is never [null] or [undefined] here, so the call cannot
    throw. *)
Definition filterTwinMeta (delta : JValue) : Props :=
  List.filter (fun kv => not_twin_meta (fst kv)) (own_entries (js_or delta (JObj []))).

(** [isWritablePropertyResponse(prop) ? prop.value : prop]. *)
Definition normalizeWritablePropertyAck (prop : JValue) : Result JValue :=
  match isWritablePropertyResponse prop with
  | Ok true => Ok (js_get prop "value")
  | Ok false => Ok prop
  | Throw e => Throw e
  end.

(** The predicate of [normalizeComponentState]'s [filter]. *)
Definition not_component_meta (key : string) : bool :=
  negb (String.eqb key (TWIN_VERSION_KEY M))
  && negb (String.eqb key (TWIN_COMPONENT_MARKER_KEY M))
  && negb (String.eqb key "update").

(** [.map(([key, value]) => [key, normalizeWritablePropertyAck(value)])];
    the first callback that throws ends the traversal. *)
Fixpoint map_normalize (entries : Props) : Result Props :=
  match entries with
  | [] => Ok []
  | (key, value) :: rest =>
      match normalizeWritablePropertyAck value with
      | Ok value' =>
          match map_normalize rest with
          | Ok rest' => Ok ((key, value') :: rest')
          | Throw e => Throw e
          end
      | Throw e => Throw e
      end
  end.

Definition normalizeComponentState (delta : JValue) : Result JValue :=
  match Object_entries delta with
  | Ok entries =>
      match map_normalize (List.filter (fun kv => not_component_meta (fst kv)) entries) with
      | Ok pairs => Ok (Object_fromEntries pairs)
      | Throw e => Throw e
      end
  | Throw e => Throw e
  end.

End Helpers.

(** ** [src/pnp/pnp-component]: what the engine reads of a component *)

Record PnPComponent : Type := {
  componentKey : string;
  writeableProperties : list string;
}.

(** ** [src/core/device-client] *)

(** How an awaited handler call settles. *)
Inductive Settled : Type :=
| Resolves (result : JValue)
| Rejects (reason : JValue).

(** A change handler: the identity of the function object and what a call
    [handler(delta, version)] settles to.  Both
    [WritablePropertyChangeHandler] and [PropertyChangeHandler] have this
    shape and share one map.  A handler is taken not to register components
    or handlers while a notification is processed. *)
Record Handler : Type := {
  handler_ref : nat;
  handler_run : JValue -> JValue -> Settled;
}.

(** What the engine does to the outside world while it processes a
    notification, in order. *)
Inductive Event : Type :=
| DesiredVersion (version : JValue)
| HandlerCalled (ref : nat) (delta version : JValue)
| ReportComponentProperties (key : string) (componentPropUpdatePartial : JValue)
| TwinUpdate (updatePartial : JValue).

(** An asynchronous procedure run to its end: the events it caused and how
    it settled. *)
Definition Proc (A : Type) : Type := (list Event * Result A)%type.

#[global] Instance Proc_ret : MRet Proc := fun A a => ([], Ok a).

#[global] Instance Proc_bind : MBind Proc := fun A B f m =>
  match m with
  | (tr, Ok a) => let '(tr', r) := f a in (tr ++ tr', r)
  | (tr, Throw e) => (tr, Throw e)
  end.

Definition emit (e : Event) : Proc unit := ([e], Ok tt).

Definition throw {A : Type} (e : JsError) : Proc A := ([], Throw e).

(** [try { body } catch { handler }]. *)
Definition try_catch {A : Type} (body : Proc A) (handler : JsError -> Proc A) : Proc A :=
  match body with
  | (tr, Throw e) => let '(tr', r) := handler e in (tr ++ tr', r)
  | (tr, Ok a) => (tr, Ok a)
  end.

(** [for (const x of l) { await body(x) }]. *)
Fixpoint for_of {X : Type} (l : list X) (body : X -> Proc unit) : Proc unit :=
  match l with
  | [] => mret tt
  | x :: rest => body x ;; for_of rest body
  end.

(** [await handler(delta, version)]. *)
Definition await_handler (h : Handler) (delta version : JValue) : Proc JValue :=
  emit (HandlerCalled (handler_ref h) delta version) ;;
  match handler_run h delta version with
  | Resolves result => mret result
  | Rejects reason => throw (HandlerError reason)
  end.

(** A JavaScript [Map] keeps insertion order; [set] on a present key
    replaces the value where it stands. *)
Fixpoint map_set {V : Type} (m : list (string * V)) (k : string) (v : V) : list (string * V) :=
  match m with
  | [] => [(k, v)]
  | (k', x) :: rest =>
      if String.eqb k' k then (k', v) :: rest else (k', x) :: map_set rest k v
  end.

Fixpoint map_get {V : Type} (m : list (string * V)) (k : string) : option V :=
  match m with
  | [] => None
  | (k', x) :: rest => if String.eqb k' k then Some x else map_get rest k
  end.

Record DeviceClient : Type := {
  deviceId : string;
  modelId : option string;
  components : list (string * PnPComponent);
  propertyChangeHandlers : gmap string Handler;
}.

(** [!this.modelId]. *)
Definition no_model_id (dc : DeviceClient) : bool :=
  match modelId dc with
  | None => true
  | Some s => String.eqb s ""
  end.

Definition registerComponent (dc : DeviceClient) (componentCtor : DeviceClient -> PnPComponent)
  : Result (PnPComponent * DeviceClient) :=
  if no_model_id dc then Throw (NoModelIdAssignedError (deviceId dc))
  else
    let instance := componentCtor dc in
    Ok (instance,
        {| deviceId := deviceId dc;
           modelId := modelId dc;
           components := map_set (components dc) (componentKey instance) instance;
           propertyChangeHandlers := propertyChangeHandlers dc |}).

Definition set_handler (dc : DeviceClient) (key : string) (handler : Handler) : DeviceClient :=
  {| deviceId := deviceId dc;
     modelId := modelId dc;
     components := components dc;
     propertyChangeHandlers := <[key := handler]> (propertyChangeHandlers dc) |}.

Definition addComponentPropertyChangeHandler
  (dc : DeviceClient) (componentKey propertyKey : string) (handler : Handler) : DeviceClient :=
  set_handler dc (componentKey +:+ "|" +:+ propertyKey) handler.

Definition addComponentChangeHandler
  (dc : DeviceClient) (componentKey : string) (handler : Handler) : DeviceClient :=
  set_handler dc componentKey handler.

Section Engine.
Variable M : Markers.
(** [this.#twin.properties.reported.update(patch, callback)]: [None] when the
    callback receives no error, [Some err] when it receives [err]. *)
Variable twin_update : JValue -> option JValue.

Definition reportProperties (updatePartial : JValue) : Proc unit :=
  emit (TwinUpdate updatePartial) ;;
  match twin_update updatePartial with
  | None => mret tt
  | Some err => throw (TransportError err)
  end.

(** [{ [componentKey]: { ...TWIN_COMPONENT_MARKER, ...componentPropUpdatePartial } }]. *)
Definition component_patch (componentKey : string) (componentPropUpdatePartial : JValue) : JValue :=
  JObj [(componentKey,
         JObj (obj_assign (obj_assign [] (TWIN_COMPONENT_MARKER M)) componentPropUpdatePartial))].

Definition reportComponentProperties (componentKey : string) (componentPropUpdatePartial : JValue)
  : Proc unit :=
  emit (ReportComponentProperties componentKey componentPropUpdatePartial) ;;
  reportProperties (component_patch componentKey componentPropUpdatePartial).

(** A template literal that prints [value]: the string, or the
    [TypeError] of the conversion. *)
Definition template_string (value : JValue) : Proc string :=
  match js_to_string value with
  | Some shown => mret shown
  | None => throw (TypeError cannot_convert)
  end.

(** The acknowledgement built in the [try] block; [shown] is what the
    template literal printed for the value. *)
Definition success_ack
  (propertyKey : string) (propertyValue version result : JValue) (shown : string) : JValue :=
  JObj (obj_assign
          [("value", propertyValue);
           ("ac", JNum 200);
           ("ad", JStr ("Successfully updated (" +:+ propertyKey +:+ ") to ("
                        +:+ shown +:+ ")"));
           ("av", version)]
          result).

(** The acknowledgement built in the [catch] block. *)
Definition failure_ack
  (propertyKey : string) (propertyValue version : JValue) (shown : string) : JValue :=
  JObj [("value", propertyValue);
        ("ac", JNum 400);
        ("ad", JStr ("Updating (" +:+ propertyKey +:+ ") state to ("
                     +:+ shown +:+ ") failed"));
        ("av", version)].

(** The body of the innermost loop, for one changed property.  The template
    literal is evaluated once the handler has been awaited, in the [try]
    block and again in the [catch] block; what it throws in the [catch]
    block leaves the loop. *)
Definition acknowledge_property
  (dc : DeviceClient) (component : PnPComponent) (componentKey : string)
  (version : JValue) (property : string * JValue) : Proc unit :=
  let '(propertyKey, propertyValue) := property in
  if bool_decide (propertyKey ∈ writeableProperties component) then
    let changeHandler := propertyChangeHandlers dc !! propertyKey in
    try_catch
      (result ← match changeHandler with
                | Some h => await_handler h propertyValue version
                | None => mret JUndefined
                end;
       shown ← template_string propertyValue;
       reportComponentProperties componentKey
         (JObj [(propertyKey, success_ack propertyKey propertyValue version result shown)]))
      (fun _ =>
         shown ← template_string propertyValue;
         reportComponentProperties componentKey
           (JObj [(propertyKey, failure_ack propertyKey propertyValue version shown)]))
  else mret tt.

(** The body of the middle loop, for one changed component subtree. *)
Definition handle_changed_component
  (dc : DeviceClient) (component : PnPComponent) (componentKey : string)
  (componentChangeHandler : option Handler)
  (version : JValue) (changed : string * JValue) : Proc unit :=
  let '(changedComponentKey, changedComponentPartial) := changed in
  if negb (String.eqb changedComponentKey componentKey) then mret tt
  else
    match componentChangeHandler with
    | Some h => await_handler h changedComponentPartial version ;; mret tt
    | None => mret tt
    end ;;
    for_of (filterTwinMeta M changedComponentPartial)
      (acknowledge_property dc component componentKey version).

Definition handleChangedComponentProperties
  (dc : DeviceClient) (version : JValue) (changedComponents : Props) : Proc unit :=
  for_of (components dc)
    (fun entry =>
       let '(componentKey, component) := entry in
       let componentChangeHandler := propertyChangeHandlers dc !! componentKey in
       for_of changedComponents
         (handle_changed_component dc component componentKey componentChangeHandler version)).

(** The listener installed on ['properties.desired']. *)
Definition on_desired_properties (dc : DeviceClient) (changes : JValue) : Proc unit :=
  let version := js_get changes (TWIN_VERSION_KEY M) in
  emit (DesiredVersion version) ;;
  let changedComponents := filterTwinMeta M changes in
  if negb (Nat.eqb (length (components dc)) 0)
  then handleChangedComponentProperties dc version changedComponents
  else mret tt.

End Engine.

(** *** Component state accessors ([PnPComponent.getReportedState],
    [PnPComponent.getDesiredState]) *)

(** The twin as [getTwin] returns it: the desired and the reported section. *)
Record Twin : Type := {
  desired : JValue;
  reported : JValue;
}.

Section ComponentState.
Variable M : Markers.

(** [getReportedProperties]:
    [Object.fromEntries(filterTwinMeta(this.#twin.properties.reported))]. *)
Definition getReportedProperties (twin : Twin) : JValue :=
  Object_fromEntries (filterTwinMeta M (reported twin)).

(** [getDesiredProperties]. *)
Definition getDesiredProperties (twin : Twin) : JValue :=
  Object_fromEntries (filterTwinMeta M (desired twin)).

(** [props[this.componentKey] ? normalizeComponentState(props[this.componentKey]) : null],
    for the ordinary object [props] that [Object.fromEntries] built.  The
    read finds the own property of that name, or else the member of
    [Object.prototype] of that name; such a member is truthy and
    [normalizeComponentState] finds no entry in it, so that the state is the
    empty object. *)
Definition component_state (component : PnPComponent) (props : JValue) : Result JValue :=
  match obj_lookup (own_entries props) (componentKey component) with
  | Some value => if js_truthy value then normalizeComponentState M value else Ok JNull
  | None =>
      if inherited (componentKey component) then Ok (Object_fromEntries []) else Ok JNull
  end.

Definition getReportedState (component : PnPComponent) (twin : Twin) : Result JValue :=
  component_state component (getReportedProperties twin).

Definition getDesiredState (component : PnPComponent) (twin : Twin) : Result JValue :=
  component_state component (getDesiredProperties twin).

End ComponentState.

(** *** The initial connect: [retry] and [DeviceClient.create] *)

(** A promise: the identity of the promise object and how it settles
    ([None]: it stays pending). *)
Record Promise : Type := {
  promise_ref : nat;
  promise_settles : option Settled;
}.

Definition DEFAULT_CONNECTION_RETRIES : Z := 3.

(** A line written by [log] inside [retryHandler]: ["Attempt k/n"]. *)
Record AttemptLog : Type := {
  logged_attempt : Z;
  logged_total : Z;
}.

(** [retryHandler(currentRetry, totalRetries)] inside [retry(promise, _)]:
    the closure logs and returns the very [promise] it closes over. *)
Definition retryHandler (promise : Promise) (currentRetry totalRetries : Z)
  : JValue -> AttemptLog * Promise :=
  fun error => ({| logged_attempt := currentRetry; logged_total := totalRetries |}, promise).

(** The values [attempt] takes in
    [for (let attempt = 1; attempt <= retries; attempt++)]. *)
Definition attempts (retries : Z) : list Z :=
  List.map Z.of_nat (seq 1 (Z.to_nat retries)).

(** What [retry] leaves behind: the promise it returns and the rejection
    handlers it attached to [promise] with [promise.catch], in order. *)
Record Retried : Type := {
  returned : Promise;
  attached : list (JValue -> AttemptLog * Promise);
}.

Definition retry (promise : Promise) (retries : Z) : Retried :=
  {| returned := promise;
     attached := List.map (fun attempt => retryHandler promise attempt retries) (attempts retries) |}.

(** The promise [p.catch(handler)] evaluates to (with the fresh identity
    [ref]) and what the handler logs: a fulfilled [p] passes through, a
    rejected one settles like the promise the handler returns. *)
Definition promise_catch (p : Promise) (handler : JValue -> AttemptLog * Promise) (ref : nat)
  : Promise * list AttemptLog :=
  match promise_settles p with
  | Some (Rejects error) =>
      let '(line, q) := handler error in
      ({| promise_ref := ref; promise_settles := promise_settles q |}, [line])
  | settled => ({| promise_ref := ref; promise_settles := settled |}, [])
  end.

(** *** Connection lifecycle ([connect], [disconnect]) *)

(** The operations [connect] awaits, in the order of the source. *)
Inductive Stage : Type :=
| GenerateDeviceIdentity
| ProvisionDevice
| SetupClient
| SetClientOptions
| OpenClient
| GetTwin.

(** Who listens on [#disconnected$]: the callback [() => this.connect(modelId)]
    that [connect] subscribes, or a subscriber of the public [disconnected$]. *)
Inductive Subscriber : Type :=
| Reconnect (model : option string)
| Observer (ref : nat).

(** The connection-related private state of a [DeviceClient].
    [#disconnected$] is a [ReplaySubject] of buffer size one: it keeps the
    last value it emitted and its subscribers.  [started_connects] lists the
    [connect(modelId)] calls the subscribers have started, oldest first, and
    [notified] the public subscribers that were called. *)
Record Lifecycle : Type := {
  client : bool;
  disconnected_last : option JValue;
  disconnected_subscribers : list Subscriber;
  started_connects : list (option string);
  notified : list nat;
}.

Definition initial_lifecycle : Lifecycle := {|
  client := false;
  disconnected_last := None;
  disconnected_subscribers := [];
  started_connects := [];
  notified := [];
|}.

(** A subscriber receives a value. *)
Definition notify (st : Lifecycle) (s : Subscriber) : Lifecycle :=
  match s with
  | Reconnect model =>
      {| client := client st;
         disconnected_last := disconnected_last st;
         disconnected_subscribers := disconnected_subscribers st;
         started_connects := started_connects st ++ [model];
         notified := notified st |}
  | Observer ref =>
      {| client := client st;
         disconnected_last := disconnected_last st;
         disconnected_subscribers := disconnected_subscribers st;
         started_connects := started_connects st;
         notified := notified st ++ [ref] |}
  end.

(** [this.#disconnected$.next(value)]. *)
Definition disconnected_next (value : JValue) (st : Lifecycle) : Lifecycle :=
  fold_left notify (disconnected_subscribers st)
    {| client := client st;
       disconnected_last := Some value;
       disconnected_subscribers := disconnected_subscribers st;
       started_connects := started_connects st;
       notified := notified st |}.

(** [this.disconnected$.subscribe(s)]: the buffered value, if any, is
    replayed to the new subscriber at once. *)
Definition disconnected_subscribe (s : Subscriber) (st : Lifecycle) : Lifecycle :=
  let st' := {| client := client st;
                disconnected_last := disconnected_last st;
                disconnected_subscribers := disconnected_subscribers st ++ [s];
                started_connects := started_connects st;
                notified := notified st |} in
  match disconnected_last st with
  | Some _ => notify st' s
  | None => st'
  end.

Definition set_client (st : Lifecycle) : Lifecycle :=
  {| client := true;
     disconnected_last := disconnected_last st;
     disconnected_subscribers := disconnected_subscribers st;
     started_connects := started_connects st;
     notified := notified st |}.

Section Connect.
(** Which awaited operation rejects, and with what. *)
Variable rejects : Stage -> option JValue.

Definition await_stage (s : Stage) : Result unit :=
  match rejects s with
  | None => Ok tt
  | Some reason => Throw (TransportError reason)
  end.

(** The awaited operations of a branch, up to the first that rejects. *)
Fixpoint await_stages (stages : list Stage) : Result unit :=
  match stages with
  | [] => Ok tt
  | s :: rest =>
      match await_stage s with
      | Ok _ => await_stages rest
      | Throw e => Throw e
      end
  end.

(** [connect(modelId)], run to its end.  Without a client the identity is
    generated, the device provisioned and the client set up and stored; then
    it is opened and the twin fetched.  With a client, its options are set
    and it is opened.  The last statement subscribes the reconnecting
    callback; a rejected [await] leaves the function before it. *)
Definition connect (model : option string) (st : Lifecycle) : Lifecycle * Result unit :=
  if negb (client st) then
    match await_stages [GenerateDeviceIdentity; ProvisionDevice; SetupClient] with
    | Ok _ =>
        match await_stages [OpenClient; GetTwin] with
        | Ok _ => (disconnected_subscribe (Reconnect model) (set_client st), Ok tt)
        | Throw e => (set_client st, Throw e)
        end
    | Throw e => (st, Throw e)
    end
  else
    match await_stages [SetClientOptions; OpenClient] with
    | Ok _ => (disconnected_subscribe (Reconnect model) st, Ok tt)
    | Throw e => (st, Throw e)
    end.

End Connect.

(** The ['disconnect'] event of the client, forwarded by the listener the
    first [connect] installs once the client is stored. *)
Definition client_disconnected (error : JValue) (st : Lifecycle) : Lifecycle :=
  if client st then disconnected_next error st else st.

(** [disconnect()]: [close] calls back once the client is closed. *)
Definition disconnect (st : Lifecycle) : Lifecycle * Result unit :=
  if client st then (disconnected_next JUndefined st, Ok tt)
  else (st, Throw (TypeError "Cannot read properties of undefined (reading 'close')")).

(** What happens to a device client over time. *)
Inductive Op : Type :=
| CallConnect (model : option string) (rejects : Stage -> option JValue)
| RunStartedConnect (rejects : Stage -> option JValue)
| ClientDisconnected (error : JValue)
| CallDisconnect
| Subscribe (ref : nat).

Definition drop_started (st : Lifecycle) : Lifecycle :=
  {| client := client st;
     disconnected_last := disconnected_last st;
     disconnected_subscribers := disconnected_subscribers st;
     started_connects := tl (started_connects st);
     notified := notified st |}.

(** One step; the boolean tells whether the step was an execution of
    [connect] that ran to completion. *)
Definition step (st : Lifecycle) (op : Op) : Lifecycle * bool :=
  match op with
  | CallConnect model rejects =>
      match connect rejects model st with
      | (st', Ok _) => (st', true)
      | (st', Throw _) => (st', false)
      end
  | RunStartedConnect rejects =>
      match started_connects st with
      | [] => (st, false)
      | model :: _ =>
          match connect rejects model (drop_started st) with
          | (st', Ok _) => (st', true)
          | (st', Throw _) => (st', false)
          end
      end
  | ClientDisconnected error => (client_disconnected error st, false)
  | CallDisconnect => (fst (disconnect st), false)
  | Subscribe ref => (disconnected_subscribe (Observer ref) st, false)
  end.

(** A run from a state: the final state and the number of executions of
    [connect] that ran to completion. *)
Fixpoint run (st : Lifecycle) (ops : list Op) : Lifecycle * nat :=
  match ops with
  | [] => (st, 0)
  | op :: rest =>
      let '(st', completed) := step st op in
      let '(st'', n) := run st' rest in
      (st'', (if completed then 1 else 0) + n)
  end.

Definition is_reconnect (s : Subscriber) : bool :=
  match s with
  | Reconnect _ => true
  | Observer _ => false
  end.

Definition reconnecting (st : Lifecycle) : list Subscriber :=
  List.filter is_reconnect (disconnected_subscribers st).

(** The [connect] calls a value emitted on [#disconnected$] starts: one per
    reconnecting subscriber. *)
Definition reconnect_models (subs : list Subscriber) : list (option string) :=
  flat_map (fun s => match s with Reconnect model => [model] | Observer _ => [] end) subs.

Definition settled_of (r : Result unit) : Settled :=
  match r with
  | Ok _ => Resolves JUndefined
  | Throw (TypeError msg) => Rejects (JStr msg)
  | Throw (HandlerError reason) => Rejects reason
  | Throw (TransportError reason) => Rejects reason
  | Throw (NoModelIdAssignedError device) => Rejects (JStr device)
  end.

(** The device client seen from [DeviceClient.create]: how many times
    [connect] has been executed, and the lifecycle state. *)
Record World : Type := {
  executions : nat;
  life : Lifecycle;
}.

Section Create.
(** What the awaited operations of the [k]-th execution of [connect] do. *)
Variable attempt : nat -> Stage -> option JValue.

(** [instance.connect()]: the call runs [connect] and evaluates to its
    promise. *)
Definition call_connect (model : option string) (w : World) : World * Promise :=
  let '(st, r) := connect (attempt (executions w)) model (life w) in
  ({| executions := S (executions w); life := st |},
   {| promise_ref := executions w; promise_settles := Some (settled_of r) |}).

(** [DeviceClient.create], as far as connecting goes:
    [await retry(instance.connect(), options.connectionRetries ?? DEFAULT_CONNECTION_RETRIES)].
    The argument [instance.connect()] is evaluated before [retry] is
    entered; [create] then settles like the promise [retry] returns. *)
Definition create (model : option string) (connectionRetries : option Z) : World * Retried :=
  let '(w, p) := call_connect model {| executions := 0; life := initial_lifecycle |} in
  let retries := match connectionRetries with
                 | Some n => n
                 | None => DEFAULT_CONNECTION_RETRIES
                 end in
  (w, retry p retries).

End Create.

(** The promises the [promise.catch] calls of [retry] evaluate to (they are
    dropped by [retry]), each with what its handler logs. *)
Definition caught (rt : Retried) : list (Promise * list AttemptLog) :=
  List.map (fun handler => promise_catch (returned rt) handler 0) (attached rt).

(** *** Reading a run *)

(** The event is the [reportComponentProperties] call that acknowledges
    property [P] of component [C]. *)
Definition is_report_for (C P : string) (e : Event) : bool :=
  match e with
  | ReportComponentProperties key (JObj [(p, _)]) => String.eqb key C && String.eqb p P
  | _ => false
  end.

(** Every value the notification [changes] gives to a writable property of
    a registered component can be printed by a template literal. *)
Definition values_printable (M : Markers) (dc : DeviceClient) (changes : JValue) : Prop :=
  forall k c d p v,
    In (k, c) (components dc) ->
    In (k, d) (filterTwinMeta M changes) ->
    In (p, v) (filterTwinMeta M d) ->
    p ∈ writeableProperties c ->
    js_to_string v <> None.

(** How [reportProperties] settles on a patch. *)
Definition report_result (twin_update : JValue -> option JValue) (patch : JValue) : Result unit :=
  match twin_update patch with
  | None => Ok tt
  | Some err => Throw (TransportError err)
  end.

(** The envelope the engine reports for a writable property [P] with a
    value [V] that prints as [shown]: the success envelope merged with what
    the handler stored under the key [P] resolved to, or the failure
    envelope when that handler rejected. *)
Definition acknowledgement
  (dc : DeviceClient) (P : string) (V version : JValue) (shown : string) : JValue :=
  match propertyChangeHandlers dc !! P with
  | None => success_ack P V version JUndefined shown
  | Some h =>
      match handler_run h V version with
      | Resolves r => success_ack P V version r shown
      | Rejects _ => failure_ack P V version shown
      end
  end.

(** ** Scenarios *)

Module Scenario.

(** A transport that accepts every patch. *)
Definition accepting : JValue -> option JValue := fun _ => None.

Definition device : DeviceClient := {|
  deviceId := "device-1";
  modelId := Some "dtmi:wuh:sterilizer:Device;1";
  components := [];
  propertyChangeHandlers := ∅;
|}.

(** [registerComponent] on a device that has a model id. *)
Definition registered (dc : DeviceClient) (component : PnPComponent) : DeviceClient :=
  match registerComponent dc (fun _ => component) with
  | Ok (_, dc') => dc'
  | Throw _ => dc
  end.

Definition compA : PnPComponent :=
  {| componentKey := "compA"; writeableProperties := ["temp"] |}.

(** A second component class with the key of [compA]. *)
Definition compA_bis : PnPComponent :=
  {| componentKey := "compA"; writeableProperties := ["fan"] |}.

(** A component that declares a property named ["update"] writable. *)
Definition compU : PnPComponent :=
  {| componentKey := "compU"; writeableProperties := ["update"] |}.

Definition subtreeA : JValue :=
  JObj [("__t", JStr "c"); ("temp", JNum 21); ("mode", JStr "eco")].

Definition subtreeU : JValue :=
  JObj [("__t", JStr "c"); ("update", JNum 1)].

(** The delta of a desired-property change, version 5. *)
Definition notification : JValue :=
  JObj [("$version", JNum 5); ("compA", subtreeA)].

Definition notificationU : JValue :=
  JObj [("$version", JNum 5); ("compU", subtreeU)].

(** A property handler that overrides the status code. *)
Definition overriding : Handler :=
  {| handler_ref := 1; handler_run := fun _ _ => Resolves (JObj [("ac", JNum 202)]) |}.


(** A component-change handler. *)
Definition observing : Handler :=
  {| handler_ref := 3; handler_run := fun _ _ => Resolves JUndefined |}.

Definition deviceA : DeviceClient := registered device compA.

Definition deviceA_observed : DeviceClient :=
  addComponentChangeHandler deviceA "compA" observing.

Definition deviceU : DeviceClient :=
  addComponentChangeHandler (registered device compU) "compU" observing.

(** A value no template literal can print: its own [toString] is data. *)
Definition unprintable : JValue := JObj [("toString", JNum 1)].

Definition subtreeOpaque : JValue :=
  JObj [("__t", JStr "c"); ("temp", unprintable)].

Definition notificationOpaque : JValue :=
  JObj [("$version", JNum 5); ("compA", subtreeOpaque)].


(** The awaited operations of [connect] when the hub cannot be reached. *)
Definition unreachable : Stage -> option JValue :=
  fun stage =>
    match stage with
    | OpenClient => Some (JStr "unreachable")
    | _ => None
    end.

Definition reachable : Stage -> option JValue := fun _ => None.

End Scenario.

(** ** More of the device client and of the component base class *)

(** [Object.keys(v)] of an object. *)
Definition Object_keys (v : JValue) : list string := List.map fst (own_entries v).

Section Reporting.
Variable M : Markers.
Variable twin_update : JValue -> option JValue.

(** [clearReportedProperties(filterPredicate)], on the twin [getTwin]
    resolved to: the kept keys of [getReportedProperties()] are reduced to an
    object that holds [null] under each, which is reported. *)
Definition clearReportedProperties (filterPredicate : string -> bool) (twin : Twin) : Proc unit :=
  let twinState := getReportedProperties M twin in
  let clearPartial :=
    fold_left (fun acc key => obj_put acc key JNull)
      (List.filter filterPredicate (Object_keys twinState)) [] in
  reportProperties twin_update (JObj clearPartial).

(** The argument of [PnPComponent.reportState]: the data to report, or a
    function from the current state to the data. *)
Inductive StateUpdate : Type :=
| Data (data : JValue)
| Updater (update : JValue -> Result JValue).

(** [PnPComponent.reportState(dataOrUpdate)], on the twin [getTwin]
    resolved to. *)
Definition reportState (component : PnPComponent) (dataOrUpdate : StateUpdate) (twin : Twin)
  : Proc unit :=
  match dataOrUpdate with
  | Updater update =>
      match getReportedState M component twin with
      | Ok state =>
          match update state with
          | Ok data => reportComponentProperties M twin_update (componentKey component) data
          | Throw e => throw e
          end
      | Throw e => throw e
      end
  | Data data => reportComponentProperties M twin_update (componentKey component) data
  end.

(** [PnPComponent.clear()]: [reportProperties({ [this.componentKey]: null })]. *)
Definition clear (component : PnPComponent) : Proc unit :=
  reportProperties twin_update (JObj [(componentKey component, JNull)]).

End Reporting.

(** [PnPComponent.onComponentChange(changeHandler)]. *)
Definition onComponentChange (dc : DeviceClient) (component : PnPComponent) (changeHandler : Handler)
  : DeviceClient :=
  addComponentChangeHandler dc (componentKey component) changeHandler.

(** [PnPComponent.onWritablePropertyChange(propertyKey, changeHandler)]. *)
Definition onWritablePropertyChange
  (dc : DeviceClient) (component : PnPComponent) (propertyKey : string) (changeHandler : Handler)
  : DeviceClient :=
  addComponentPropertyChangeHandler dc (componentKey component) propertyKey changeHandler.

(** The method name [PnPComponent.onComponentCommand(commandName, callback)]
    registers with [onCommand]: the component key, an asterisk, the command
    name. *)
Definition onComponentCommand (component : PnPComponent) (commandName : string) : string :=
  componentKey component +:+ "*" +:+ commandName.

(** The string holds an asterisk. *)
Fixpoint has_asterisk (s : string) : bool :=
  match s with
  | EmptyString => false
  | String c rest => Ascii.eqb c "*" || has_asterisk rest
  end.

(** *** Property access that can fail *)

(** [v.k]: reading a property of [null] or [undefined] throws. *)
Definition js_member (v : JValue) (k : string) : Result JValue :=
  match v with
  | JUndefined | JNull => Throw (TypeError "Cannot read properties of undefined or null")
  | _ => Ok (js_get v k)
  end.

(** [a ?? b]. *)
Definition js_nullish_or (a b : JValue) : JValue :=
  match a with
  | JUndefined | JNull => b
  | _ => a
  end.

(** *** File upload ([upload], [PnPComponent.uploadFile]) *)

(** What [getBlobSharedAccessSignature] resolves to. *)
Record BlobInfo : Type := {
  hostName : string;
  containerName : string;
  blobName : string;
  sasToken : string;
  correlationId : string;
}.

Record BlobUploadStatus : Type := {
  success : bool;
  statusCode : JValue;
  description : JValue;
}.

(** How [blobClient.uploadFile] settles: with the status of the response,
    or with an error. *)
Inductive Uploaded : Type :=
| UploadResolved (status : Z)
| UploadRejected (err : JValue).

(** The calls [upload] makes to the hub client and to the blob client. *)
Inductive UploadCall : Type :=
| GetBlobSharedAccessSignature (desiredBlobName : string)
| UploadFile (blobUrl localFilePath : string) (uploadOptions : JValue)
| NotifyBlobUploadStatus (correlation : string) (status : BlobUploadStatus).

(** [FileUploadOptions]: the optional [fileName] and the remaining
    [BlockBlobParallelUploadOptions]. *)
Record FileUploadOptions : Type := {
  fileName : option string;
  blockBlobOptions : JValue;
}.

Section Upload.
Variable getBlobSharedAccessSignature : string -> Result BlobInfo.
Variable uploadFile : string -> string -> JValue -> Uploaded.
Variable notifyBlobUploadStatus : string -> BlobUploadStatus -> option JValue.
(** [basename] of [path]. *)
Variable basename : string -> string.

(** The [try]/[catch] around [blobClient.uploadFile]. *)
Definition upload_status (desiredBlobName : string) (uploaded : Uploaded) : Result BlobUploadStatus :=
  match uploaded with
  | UploadResolved status =>
      Ok {| success := true;
            statusCode := JNum status;
            description := JStr ("Successfully uploaded " +:+ desiredBlobName) |}
  | UploadRejected err =>
      match js_member err "code" with
      | Ok code =>
          match js_member err "message" with
          | Ok message => Ok {| success := false; statusCode := code; description := message |}
          | Throw e => Throw e
          end
      | Throw e => Throw e
      end
  end.

Definition upload (localFilePath desiredBlobName : string) (uploadOptions : JValue)
  : list UploadCall * Result BlobUploadStatus :=
  match getBlobSharedAccessSignature desiredBlobName with
  | Throw e => ([GetBlobSharedAccessSignature desiredBlobName], Throw e)
  | Ok blobInfo =>
      let blobUrl := "https://" +:+ hostName blobInfo +:+ "/" +:+ containerName blobInfo
                     +:+ "/" +:+ blobName blobInfo +:+ sasToken blobInfo in
      let calls := [GetBlobSharedAccessSignature desiredBlobName;
                    UploadFile blobUrl localFilePath uploadOptions] in
      match upload_status desiredBlobName (uploadFile blobUrl localFilePath uploadOptions) with
      | Throw e => (calls, Throw e)
      | Ok blobUploadStatus =>
          (calls ++ [NotifyBlobUploadStatus (correlationId blobInfo) blobUploadStatus],
           match notifyBlobUploadStatus (correlationId blobInfo) blobUploadStatus with
           | None => Ok blobUploadStatus
           | Some reason => Throw (TransportError reason)
           end)
      end
  end.

(** [PnPComponent.uploadFile(filePath, options)]:
    [fileName ?? basename(filePath)] names the blob. *)
Definition uploadFile_component (filePath : string) (options : FileUploadOptions)
  : list UploadCall * Result BlobUploadStatus :=
  let desired := match fileName options with
                 | Some name => name
                 | None => basename filePath
                 end in
  upload filePath desired (blockBlobOptions options).

End Upload.

(** *** Provisioning ([#provision]) *)

Record RegistrationResult : Type := {
  assignedHub : string;
  registeredDeviceId : string;
}.

(** A call of [resolve] or [reject] inside a promise executor. *)
Inductive Settling (A : Type) : Type :=
| CallResolve (value : A)
| CallReject (reason : JValue).
Arguments CallResolve {A} value.
Arguments CallReject {A} reason.

(** A promise settles with the first call of [resolve] or [reject]; later
    calls do nothing.  [None]: it stays pending. *)
Definition first_settling {A : Type} (calls : list (Settling A)) : option (Settling A) :=
  List.head calls.

(** The callback handed to [provisioningDeviceClient.register]: the calls
    of [resolve] and [reject] it makes for an [error] and a [result].
    A missing [result] reaches [reject] and then, since that branch does
    not return, [resolve] as well.  The [Error] the callback creates is
    represented by its message. *)
Definition register_callback (error : JValue) (result : option RegistrationResult)
  : list (Settling (option RegistrationResult)) :=
  if js_truthy error then [CallReject error]
  else
    match result with
    | None => [CallReject (JStr "Could not connect"); CallResolve result]
    | Some _ => [CallResolve result]
    end.

(** The calls [#provision] makes on the provisioning client. *)
Inductive ProvisioningCall : Type :=
| SetProvisioningPayload (model : string)
| Register.

(** [#provision(modelId)] when [register] calls back with [error] and
    [result]: the calls made and the connection string, or the reason of
    the rejection. *)
Definition provision (model : option string) (error : JValue) (result : option RegistrationResult)
  : list ProvisioningCall * option (Settling string) :=
  (match model with
   | Some m => if String.eqb m "" then [] else [SetProvisioningPayload m]
   | None => []
   end ++ [Register],
   match first_settling (register_callback error result) with
   | Some (CallResolve (Some registrationResult)) =>
       Some (CallResolve ("HostName=" +:+ assignedHub registrationResult
                          +:+ ";DeviceId=" +:+ registeredDeviceId registrationResult
                          +:+ ";x509=true"))
   | Some (CallResolve None) =>
       Some (CallReject (JStr "Cannot read properties of undefined (reading 'assignedHub')"))
   | Some (CallReject reason) => Some (CallReject reason)
   | None => None
   end).

(** *** Telemetry ([sendTelemetry], [#createMessage],
    [PnPComponent.sendTelemetry], [PnPComponent.sendComponentTelemetry]) *)

Definition DEFAULT_MESSAGE_TYPE_ID : string := "x-message-type".

Definition DEFAULT_DEVICE_CLIENT_OPTIONS : JValue :=
  JObj [("meta", JObj [("messageTypeIdentifier", JStr DEFAULT_MESSAGE_TYPE_ID)])].

(** The object a rest pattern [{ k, ...rest }] binds to [rest]. *)
Definition obj_without (k : string) (o : Props) : Props :=
  List.filter (fun kv => negb (String.eqb (fst kv) k)) o.

(** The [options] field the constructor of [DeviceClient] computes:
    [{ ...DEFAULT_DEVICE_CLIENT_OPTIONS, ...opts }], with [opts] the given
    options without [identityManager]. *)
Definition device_client_options (options : Props) : JValue :=
  JObj (obj_assign (obj_assign [] DEFAULT_DEVICE_CLIENT_OPTIONS)
          (JObj (obj_without "identityManager" options))).

Record Telemetry : Type := {
  telemetry_type : string;
  payload : JValue;
  properties : JValue;
}.

(** A [Message] as [#createMessage] leaves it: [data] is the value whose
    JSON text is the body, [added] lists the calls of
    [message.properties.add(key, value)] in order. *)
Record Message : Type := {
  data : JValue;
  contentEncoding : string;
  contentType : string;
  added : list (JValue * JValue);
}.

Section Telemetry.
(** [this.options] of the device client. *)
Variable options : JValue.
(** [this.#client.sendEvent(message)]: [None] when it resolves. *)
Variable sendEvent : Message -> option JValue.
(** The header that ties telemetry to a component ([src/util/markers]). *)
Variable TELEMETRY_COMPONENT_MARKER_KEY : string.

Definition createMessage (telemetry : Telemetry) : Result Message :=
  let body := js_nullish_or (payload telemetry) (JObj []) in
  match js_member (js_get options "meta") "messageTypeIdentifier" with
  | Throw e => Throw e
  | Ok identifier =>
      Ok {| data := body;
            contentEncoding := "utf-8";
            contentType := "application/json";
            added := (identifier, JStr (telemetry_type telemetry))
                     :: (if js_truthy (properties telemetry)
                         then List.map (fun kv => (JStr (fst kv), snd kv))
                                (own_entries (properties telemetry))
                         else []) |}
  end.

(** [sendTelemetry(telemetryDef)]: the messages handed to [sendEvent] and
    how the call settles. *)
Definition sendTelemetry (telemetry : Telemetry) : list Message * Result unit :=
  match createMessage telemetry with
  | Throw e => ([], Throw e)
  | Ok message =>
      ([message],
       match sendEvent message with
       | None => Ok tt
       | Some reason => Throw (TransportError reason)
       end)
  end.

(** [PnPComponent.sendTelemetry(type, payload)]. *)
Definition sendTelemetry_component (type : string) (payload : JValue) : list Message * Result unit :=
  sendTelemetry {| telemetry_type := type; payload := payload; properties := JUndefined |}.

(** [PnPComponent.sendComponentTelemetry(type, payload)]. *)
Definition sendComponentTelemetry (component : PnPComponent) (type : string) (payload : JValue)
  : list Message * Result unit :=
  sendTelemetry
    {| telemetry_type := type;
       payload := payload;
       properties := JObj [(TELEMETRY_COMPONENT_MARKER_KEY, JStr (componentKey component))] |}.

End Telemetry.

(** *** The environment ([getEnv], [setupFromEnv], the constructor of
    [IdentityManager]) *)

Module EnvVariable.
Definition SscepPath := "SSCEP_PATH".
Definition ScepUsername := "SSCEP_USERNAME".
Definition ScepPassword := "SSCEP_PASSWORD".
Definition ScepServerOtpUrl := "SSCEP_SERVER_OTP_URL".
Definition ScepServerCertUrl := "SSCEP_SERVER_CERT_URL".
Definition ScepCertLocalityName := "SCEP_CERT_LOCALITY_NAME".
Definition ScepCertCountryName := "SCEP_CERT_COUNTRY_NAME".
Definition ScepCertOrganizationalUnitName := "SCEP_CERT_ORGANIZATIONAL_UNIT_NAME".
Definition OpensslPath := "OPENSSL_PATH".
Definition AzureProvisioningIdScope := "AZURE_PROVISIONING_ID_SCOPE".
Definition AzureProvisioningHost := "AZURE_PROVISIOING_HOST".
Definition AzureIotHubConnectionString := "AZURE_IOTHUB_CONNECTIONSTRING".
End EnvVariable.

(** A string or [undefined]. *)
Definition js_of_option (s : option string) : JValue :=
  match s with
  | Some x => JStr x
  | None => JUndefined
  end.

Section Environment.
(** [process.env]. *)
Variable env : gmap string string.
(** [resolve(tmpdir(), 'certs')]. *)
Variable default_certs_dir : string.

(** [process.env[variable] ?? defaultValue]. *)
Definition getEnv (variable : string) (defaultValue : option string) : option string :=
  match env !! variable with
  | Some value => Some value
  | None => defaultValue
  end.

Definition defaultIdentityManagerOptions : JValue :=
  JObj [("scepServer", JObj [("certUrl", JStr ""); ("otpUrl", JStr "");
                             ("username", JStr ""); ("password", JStr "")]);
        ("idScope", JStr "");
        ("certsDir", JStr default_certs_dir);
        ("keyLength", JNum 2048);
        ("provisioningHost", JStr "global.azure-devices-provisioning.net")].

(** [new IdentityManager(options)]: the [options] field. *)
Definition IdentityManager_options (options : JValue) : JValue :=
  JObj (obj_assign (obj_assign [] defaultIdentityManagerOptions) options).

Definition envOptions : JValue :=
  JObj [("scepServer",
         JObj [("certUrl", js_of_option (getEnv EnvVariable.ScepServerCertUrl None));
               ("otpUrl", js_of_option (getEnv EnvVariable.ScepServerOtpUrl None));
               ("username", js_of_option (getEnv EnvVariable.ScepUsername None));
               ("password", js_of_option (getEnv EnvVariable.ScepPassword None))]);
        ("config",
         JObj [("localityName", js_of_option (getEnv EnvVariable.ScepCertLocalityName None));
               ("organizationalUnitName",
                js_of_option (getEnv EnvVariable.ScepCertOrganizationalUnitName None));
               ("countryName", js_of_option (getEnv EnvVariable.ScepCertCountryName None))]);
        ("provisioningHost",
         js_of_option (getEnv EnvVariable.AzureProvisioningHost
                         (Some "global.azure-devices-provisioning.net")));
        ("idScope", js_of_option (getEnv EnvVariable.AzureProvisioningIdScope None))].

(** [setupFromEnv(overrides)]: the options of the identity manager it
    builds. *)
Definition setupFromEnv (overrides : JValue) : JValue :=
  IdentityManager_options
    (JObj (obj_assign (obj_assign (obj_assign [] defaultIdentityManagerOptions) envOptions)
             overrides)).

End Environment.

(** *** Further scenarios *)

Module Fixture.

Definition blob : BlobInfo := {|
  hostName := "store.blob.core.windows.net";
  containerName := "uploads";
  blobName := "device-1/log.txt";
  sasToken := "?sig=abc";
  correlationId := "corr-1";
|}.

Definition getSas : string -> Result BlobInfo := fun _ => Ok blob.

(** A blob client whose upload fails with an error object. *)
Definition failingUpload : string -> string -> JValue -> Uploaded :=
  fun _ _ _ => UploadRejected (JObj [("code", JStr "ENOENT"); ("message", JStr "no such file")]).

Definition notified : string -> BlobUploadStatus -> option JValue := fun _ _ => None.

End Fixture.

(** ** Device identities

    [src/identity] ([certs.ts], [csr-config.ts], [identity-manager.ts]) with
    [src/util/fs.ts], [src/util/validation.ts] and the command runners of
    [src/util/command.ts].  This code talks to a file system, to external
    programs and to a SCEP server.  What these answer is left open: they are
    the fields of [System], and every property below holds for every
    system.  An asynchronous function is modelled by what it does to the
    world when it is run to its end, one awaited operation after the other.

    Options are taken to have their declared TypeScript types, and whatever
    the environment throws to be an [Error] with a string message. *)

Module Identity.

(** What the environment answers: a value, or an [Error] with a message. *)
Inductive External (A : Type) : Type :=
| Done (a : A)
| Failed (message : string).
Arguments Done {A} a.
Arguments Failed {A} message.

(** The operations that can change the world. *)
Inductive Call : Type :=
| MkDir (path : string)
| Rimraf (path : string)
| WriteFile (path data : string)
| ExecFile (file : string) (args : list JValue)
| NtlmGet (username password url : string)
| RegistryDelete (deviceId : string).

Class System : Type := {
  World : Type;
  (** [fs.promises.access(path)] *)
  access : string -> World -> External unit;
  (** [fs.promises.readFile(path, 'utf-8')] *)
  fsReadFile : string -> World -> External string;
  (** [fs.promises.writeFile(path, data)] *)
  fsWriteFile : string -> string -> World -> World * External unit;
  (** [fs.promises.readdir(path)] *)
  readdir : string -> World -> External (list string);
  (** [mkdirp(path)] *)
  mkDir : string -> World -> World * External unit;
  (** [rimraf(path, callback)]: the world once the callback is called *)
  rimraf : string -> World -> World;
  (** [promisify(execFile)(file, args)] *)
  execFile : string -> list JValue -> World -> World * External unit;
  (** [NtlmClient({ username, password, workstation: '', domain: '' }).get(url)] *)
  ntlm_get : string -> string -> string -> World -> World * External JValue;
  (** [x509.parseCert(cert).notAfter], in milliseconds *)
  parseCert_notAfter : string -> External Z;
  (** [new Date()], in milliseconds *)
  Date_now : World -> Z;
  (** [path.join(...paths)] *)
  join : list string -> string;
  (** [path.normalize(path)] *)
  normalize : string -> string;
  (** [process.env] *)
  process_env : gmap string string;
  (** [defaultScepResponseParser], which parses the HTML answer of the
      server *)
  defaultScepResponseParser : JValue -> External string;
}.

(** The errors of [src/core/errors.ts] and [src/util/validation.ts], with
    the arguments of their constructors; [SystemError] is an error of the
    environment, [JsTypeError] a [TypeError] of the language. *)
Inductive IdentityError : Type :=
| SystemError (message : string)
| CertificateExpiredError
| DeviceCertificateNotFoundError (deviceId : string)
| DevicePrivateKeyNotFoundError (deviceId : string)
| DeviceIdentityCreationError (deviceId : string) (message : string)
| ScepServerNotReachableError (serverUrl : string)
| CaCertificateFetchError (serverUrl : string)
| CsrGenerationError (path : string)
| PrivateKeyGenerationError (path : string)
| CertificateEnrollmentError (path : string)
| JsTypeError (message : string).

(** [error.message]. *)
Definition message_of (e : IdentityError) : string :=
  match e with
  | SystemError message => message
  | CertificateExpiredError => "Certificate expired"
  | DeviceCertificateNotFoundError deviceId =>
      "Certificate for device " +:+ deviceId +:+ " not found."
  | DevicePrivateKeyNotFoundError deviceId =>
      "Private key for device " +:+ deviceId +:+ " not found"
  | DeviceIdentityCreationError deviceId message =>
      "Failed to create device identity for " +:+ deviceId
      +:+ (if js_truthy (JStr message) then ": " +:+ message else "")
  | ScepServerNotReachableError serverUrl =>
      "Could not reach scep server [" +:+ serverUrl +:+ "]"
  | CaCertificateFetchError serverUrl =>
      "Could not fetch ca certificates from [" +:+ serverUrl +:+ "]"
  | CsrGenerationError path => "Could not generate CSR in path " +:+ path
  | PrivateKeyGenerationError path => "Could not generate private key in path " +:+ path
  | CertificateEnrollmentError path =>
      "Could not enroll the certificate and store to path " +:+ path
  | JsTypeError message => message
  end.

Inductive Settled (A : Type) : Type :=
| Resolved (a : A)
| Rejected (e : IdentityError).
Arguments Resolved {A} a.
Arguments Rejected {A} e.

(** An asynchronous function run to its end in a world: the calls it made,
    the world it leaves and how its promise settled. *)
Definition Async `{System} (A : Type) : Type := World -> list Call * World * Settled A.

Definition calls `{System} {A : Type} (run : list Call * World * Settled A) : list Call :=
  fst (fst run).
Definition world `{System} {A : Type} (run : list Call * World * Settled A) : World :=
  snd (fst run).
Definition settled `{System} {A : Type} (run : list Call * World * Settled A) : Settled A :=
  snd run.

#[global] Instance Async_ret `{System} : MRet Async := fun A a w => ([], w, Resolved a).

#[global] Instance Async_bind `{System} : MBind Async := fun A B f m w =>
  match m w with
  | (tr, w', Resolved a) => let '(tr', w'', r) := f a w' in (tr ++ tr', w'', r)
  | (tr, w', Rejected e) => (tr, w', Rejected e)
  end.

Definition reject `{System} {A : Type} (e : IdentityError) : Async A :=
  fun w => ([], w, Rejected e).

(** [try { await body } catch (error) { handler }]. *)
Definition try_await `{System} {A : Type}
  (body : Async A) (handler : IdentityError -> Async A) : Async A := fun w =>
  match body w with
  | (tr, w', Rejected e) => let '(tr', w'', r) := handler e w' in (tr ++ tr', w'', r)
  | (tr, w', Resolved a) => (tr, w', Resolved a)
  end.

Definition of_external {A : Type} (r : External A) : Settled A :=
  match r with
  | Done a => Resolved a
  | Failed message => Rejected (SystemError message)
  end.

(** An operation that may change the world. *)
Definition perform `{System} {A : Type} (c : Call) (op : World -> World * External A) : Async A :=
  fun w => let '(w', r) := op w in ([c], w', of_external r).

(** An operation that only reads the world. *)
Definition observe `{System} {A : Type} (op : World -> External A) : Async A :=
  fun w => ([], w, of_external (op w)).

(** The value of a template literal, or the [TypeError] it throws. *)
Definition evaluated `{System} (text : option string) : Async string :=
  match text with
  | Some data => mret data
  | None => reject (JsTypeError cannot_convert)
  end.

(** *** src/util/fs.ts *)

(** Whether [access(path)] resolves. *)
Definition accessible `{System} (path : string) (w : World) : bool :=
  match access path w with
  | Done _ => true
  | Failed _ => false
  end.

(** [exists(path)], which is
    [access(path).then(() => true).catch(() => false)]. *)
Definition exists_ `{System} (path : string) : Async bool := fun w =>
  ([], w, Resolved (accessible path w)).

(** [new Promise(res => rimraf(path, () => res()))]: an error of [rimraf] is
    dropped. *)
Definition removeDir `{System} (path : string) : Async unit := fun w =>
  ([Rimraf path], rimraf path w, Resolved tt).

Definition createDir `{System} (path : string) : Async unit :=
  perform (MkDir path) (mkDir path).

Definition readDir `{System} (path : string) : Async (list string) :=
  observe (readdir path).

Definition readFile `{System} (path : string) : Async string :=
  observe (fsReadFile path).

Definition writeFile `{System} (path data : string) : Async unit :=
  perform (WriteFile path data) (fsWriteFile path data).

(** *** src/util/validation.ts *)

(** [validateCertificate(cert)]: the certificate is rejected when
    [notAfter < new Date()]. *)
Definition validateCertificate `{System} (cert : string) : Async unit :=
  notAfter ← observe (fun _ => parseCert_notAfter cert);
  today ← (fun w => ([], w, Resolved (Date_now w))) : Async Z;
  if (notAfter <? today)%Z then reject CertificateExpiredError else mret tt.

(** *** src/util/command.ts *)

Definition SSCEP_PATH `{System} : string :=
  normalize (default "sscep" (getEnv process_env EnvVariable.SscepPath (Some "sscep"))).

Definition OPENSSL_PATH `{System} : string :=
  normalize (default "openssl" (getEnv process_env EnvVariable.OpensslPath (Some "openssl"))).

(** [params.flat()]. *)
Definition flat (params : list JValue) : list JValue :=
  List.flat_map (fun p => match p with JArr items => items | _ => [p] end) params.

(** [executeCommand(command, ...params)]: the [catch] clause logs and
    throws the error again. *)
Definition executeCommand `{System} (command : string) (params : list JValue) : Async unit :=
  let args := flat params in
  try_await (perform (ExecFile command args) (execFile command args)) (fun e => reject e).

Definition openssl `{System} (params : list JValue) : Async unit :=
  executeCommand OPENSSL_PATH params.

Definition sscep `{System} (params : list JValue) : Async unit :=
  executeCommand SSCEP_PATH params.

(** *** src/identity/csr-config.ts *)

Definition nl : string := String (ascii_of_nat 10) EmptyString.

(** [passcodePart(passcode)]; [shown] is what the template literal prints
    for the passcode. *)
Definition passcodePart (shown : string) : string :=
  String.concat nl [""; "[ req_attributes ]"; "challengePassword = " +:+ shown; ""].

(** [generateConfig(deviceId, options)]; the options are the object
    [enrollIdentityCertificate] builds, whose properties may be missing.
    [None] when a template literal throws a [TypeError]. *)
Definition generateConfig (deviceId : string) (options : JValue) : option string :=
  countryName ← js_to_string (js_get options "countryName");
  localityName ← js_to_string (js_get options "localityName");
  organizationalUnitName ← js_to_string (js_get options "organizationalUnitName");
  passcode ← (if js_truthy (js_get options "passcode")
              then passcodePart <$> js_to_string (js_get options "passcode")
              else Some "");
  Some (String.concat nl
          [""; "#"; "# Configuration file for use with sscep"; "#"; "";
           "[ req ]"; "prompt = no";
           "keyUsage = keyEncipherment,dataEncipherment";
           "extendedKeyUsage = serverAuth,clientAuth";
           "distinguished_name = req_distinguished_name";
           "attributes = req_attributes";
           "utf8 = no";
           "string_mask = nombstr"; "";
           "[ req_distinguished_name ]";
           "countryName = " +:+ countryName;
           "localityName = " +:+ localityName;
           "organizationalUnitName = " +:+ organizationalUnitName;
           "commonName = " +:+ deviceId; "";
           passcode]).

(** *** src/identity/certs.ts *)

Definition TEMP_DIR_NAME : string := ".tmp".

Record ScepServer : Type := {
  otpUrl : string;
  certUrl : string;
  username : string;
  password : string;
  responseParser : option (JValue -> External string);
}.

Record DeviceIdentity : Type := {
  deviceId : string;
  modelId : option string;
  cert : string;
  key : string;
}.

Definition getOneTimePasscode `{System} (options : ScepServer) : Async string :=
  let responseParser := default defaultScepResponseParser (responseParser options) in
  response ← perform (NtlmGet (username options) (password options) (otpUrl options))
               (ntlm_get (username options) (password options) (otpUrl options));
  if negb (js_truthy response) || negb (js_truthy (js_get response "data"))
  then reject (ScepServerNotReachableError (otpUrl options))
  else observe (fun _ => responseParser (js_get response "data")).

Definition defaultPrivateKeyOptions_keyLength : Z := 2048.

(** [generatePrivateKey(deviceId, path, { keyLength })]. *)
Definition generatePrivateKey `{System} (deviceId path : string) (keyLength : Z) : Async string :=
  present ← exists_ path;
  (if negb present
   then
     openssl [JStr "genrsa"; JArr [JStr "-out"; JStr path]; JStr (number_to_string keyLength)];;
     generated ← exists_ path;
     if negb generated then reject (PrivateKeyGenerationError path) else mret tt
   else mret tt);;
  mret path.

(** [getCa({ caDir, certUrl })]. *)
Definition getCa `{System} (caDir certUrl : string) : Async (list string) :=
  let caCertPath := join [caDir; "iot-ca.cer"] in
  present ← exists_ caDir;
  caCertPaths ← (if present : bool then readDir caDir else createDir caDir;; mret []);
  caCertPaths ← (match caCertPaths with
                 | [] =>
                     sscep [JStr "getca"; JArr [JStr "-u"; JStr certUrl];
                            JArr [JStr "-c"; JStr caCertPath]];;
                     fetched ← readDir caDir;
                     match fetched with
                     | [] => reject (CaCertificateFetchError certUrl)
                     | _ :: _ => mret fetched
                     end
                 | _ :: _ => mret caCertPaths
                 end);
  mret (List.map (fun path => caDir +:+ "/" +:+ path) caCertPaths).

(** [generateCsrRequest({ privateKeyPath, outDir, deviceId, config })]. *)
Definition generateCsrRequest `{System}
  (privateKeyPath outDir deviceId : string) (config : JValue) : Async string :=
  let deviceCsrPath := outDir +:+ "/" +:+ deviceId +:+ ".csr" in
  let scepConfigPath := join [outDir; "scep.config"] in
  data ← evaluated (generateConfig deviceId config);
  writeFile scepConfigPath data;;
  present ← exists_ deviceCsrPath;
  (if negb present
   then
     openssl [JStr "req"; JArr [JStr "-config"; JStr scepConfigPath]; JStr "-new";
              JArr [JStr "-key"; JStr privateKeyPath]; JArr [JStr "-out"; JStr deviceCsrPath]];;
     generated ← exists_ deviceCsrPath;
     if negb generated then reject (CsrGenerationError deviceCsrPath) else mret tt
   else mret tt);;
  mret deviceCsrPath.

(** An element of an array of strings, [undefined] past its end. *)
Definition element (l : list string) (i : nat) : JValue :=
  match nth_error l i with
  | Some s => JStr s
  | None => JUndefined
  end.

(** [enrollCertificate({ outDir, certUrl, caDir, deviceId, csrConfig })]. *)
Definition enrollCertificate `{System}
  (outDir certUrl caDir deviceId : string) (csrConfig : JValue) : Async DeviceIdentity :=
  let tempDir := join [outDir; TEMP_DIR_NAME] in
  createDir tempDir;;
  privateKeyPath ← generatePrivateKey deviceId (join [outDir; deviceId +:+ ".key"])
                     defaultPrivateKeyOptions_keyLength;
  let certPath := join [outDir; deviceId +:+ ".cer"] in
  hasDir ← exists_ outDir;
  missing ← (if negb hasDir then mret true
             else hasCert ← exists_ certPath; mret (negb hasCert));
  (if missing : bool
   then
     csrPath ← generateCsrRequest privateKeyPath tempDir deviceId csrConfig;
     cas ← getCa caDir certUrl;
     let ca0 := element cas 0 in
     let ca1 := element cas 1 in
     sscep [JStr "enroll";
            JArr [JStr "-u"; JStr certUrl];
            JArr [JStr "-k"; JStr privateKeyPath];
            JArr [JStr "-r"; JStr csrPath];
            JArr [JStr "-c"; ca0];
            JArr [JStr "-e"; ca1];
            JArr [JStr "-l"; JStr certPath];
            JArr [JStr "-E"; JStr "3des"];
            JArr [JStr "-S"; JStr "sha1"]];;
     removeDir tempDir;;
     stillThere ← exists_ outDir;
     if negb stillThere then reject (CertificateEnrollmentError outDir) else mret tt
   else mret tt);;
  cert ← readFile certPath;
  key ← readFile privateKeyPath;
  mret {| deviceId := deviceId; modelId := None; cert := cert; key := key |}.

(** [createTempScepConf(scepConfigPath, deviceId, passcode, dirPath)];
    [replace] is [String.prototype.replace] with a string pattern, which
    replaces the first occurrence. *)
Definition createTempScepConf `{System}
  (replace : string -> string -> string -> string)
  (scepConfigPath deviceId passcode dirPath : string) : Async string :=
  scepConfig ← readFile scepConfigPath;
  let result := replace (replace scepConfig "<UID>" deviceId) "<OTP>" passcode in
  let tempScepConfPath := join [dirPath; "scep.conf"] in
  writeFile tempScepConfPath result;;
  mret tempScepConfPath.

(** *** src/identity/identity-manager.ts *)

Record IdentityManagerOptions : Type := {
  certsDir : string;
  idScope : string;
  provisioningHost : string;
  scepServer : ScepServer;
  (** [undefined] when no [config] is given *)
  config : JValue;
  keyLength : Z;
}.

Section IdentityManager.
Context `{System}.
(** [this.options]. *)
Variable options : IdentityManagerOptions.

Definition removeCertsDir : Async unit := removeDir (certsDir options).

(** [getDeviceCertificate(deviceId)].  The promise of [readFile] is returned
    without being awaited, so the [catch] clause around it sees only what
    the call throws before it returns, which is nothing: a rejection goes
    to the caller as it is. *)
Definition getDeviceCertificate (deviceId : string) : Async string :=
  let certPath := join [certsDir options; deviceId; deviceId +:+ ".cer"] in
  readFile certPath.

(** [getDeviceKey(deviceId)], written like [getDeviceCertificate]. *)
Definition getDeviceKey (deviceId : string) : Async string :=
  let keyPath := join [certsDir options; deviceId; deviceId +:+ ".key"] in
  readFile keyPath.

Definition createCaDir : Async string :=
  let caCertPath := join [certsDir options; "ca"] in
  createDir caCertPath;;
  mret caCertPath.

Definition createDeviceDir (deviceId : string) : Async string :=
  let deviceDir := join [certsDir options; deviceId] in
  createDir deviceDir;;
  mret deviceDir.

Definition removeDeviceDir (deviceId : string) : Async unit :=
  let deviceDir := join [certsDir options; deviceId] in
  removeDir deviceDir.

(** [enrollIdentityCertificate(deviceId, passcode, csrConfig)].  The two
    directories are awaited inside the [try]; the promise of
    [enrollCertificate] is returned without being awaited, so its rejection
    is not caught here. *)
Definition enrollIdentityCertificate
  (deviceId passcode : string) (csrConfig : JValue) : Async DeviceIdentity :=
  dirs ← try_await
            (caDir ← createCaDir;
             deviceDir ← createDeviceDir deviceId;
             mret (caDir, deviceDir))
            (fun error => reject (DeviceIdentityCreationError deviceId (message_of error)));
  enrollCertificate (snd dirs) (certUrl (scepServer options)) (fst dirs) deviceId
    (JObj (obj_set (obj_assign [] csrConfig) "passcode" (JStr passcode))).

(** The outer [try] block of [generateDeviceIdentity]: the certificate and
    the key on disk. *)
Definition stored_identity (deviceId : string) : Async (string * string) :=
  cert ← getDeviceCertificate deviceId;
  key ← getDeviceKey deviceId;
  validateCertificate cert;;
  mret (cert, key).

(** The [try] block inside its [catch] clause: a new certificate. *)
Definition enrolled_identity (deviceId : string) : Async (string * string) :=
  passcode ← getOneTimePasscode (scepServer options);
  identity ← enrollIdentityCertificate deviceId passcode (config options);
  mret (cert identity, key identity).

(** [generateDeviceIdentity(deviceId, modelId)]. *)
Definition generateDeviceIdentity (deviceId modelId : string) : Async DeviceIdentity :=
  stored ← try_await
              (stored_identity deviceId)
              (fun _ =>
                 try_await
                   (enrolled_identity deviceId)
                   (fun error =>
                      reject (DeviceIdentityCreationError deviceId (message_of error))));
  mret {| deviceId := deviceId; modelId := Some modelId;
          cert := fst stored; key := snd stored |}.

End IdentityManager.

(** What a function ensures when it resolves: [Q] holds of its result and
    of the world it leaves. *)
Definition ensures `{System} {A : Type} (m : Async A) (Q : A -> World -> Prop) : Prop :=
  forall w a, settled (m w) = Resolved a -> Q a (world (m w)).

(** A run of [openssl genrsa] asks for a key of 2048 bits. *)
Definition genrsa_2048 (call : Call) : Prop :=
  match call with
  | ExecFile _ (JStr "genrsa" :: args) => List.last args JUndefined = JStr "2048"
  | _ => True
  end.

(** *** part_003: the service client

    [removeDevice] and [removeDeviceIdentity] of [ServiceClient]; what
    [this.registry.delete(deviceId)] does is left open. *)

Section ServiceClient.
Context `{System}.
Variable registry_delete : string -> World -> World * External unit.
(** [this.identityManager.options]. *)
Variable options : IdentityManagerOptions.

(** [removeDevice()]: the [catch] clause is empty. *)
Definition removeDevice (deviceId : string) : Async unit :=
  try_await (perform (RegistryDelete deviceId) (registry_delete deviceId))
    (fun _ => mret tt).

Definition removeDeviceIdentity (deviceId : string) : Async unit :=
  removeDevice deviceId;;
  removeDeviceDir options deviceId.

End ServiceClient.

End Identity.

(** *** A file system in memory

    A small system on which the properties of the identity code are tried
    out: files are kept by path, directories are flat, the external
    programs write the file they are asked for, and the SCEP server answers
    while the world is [online]. *)

Module Disk.
Import Identity.

Record State : Type := {
  files : list (string * string);
  dirs : list string;
  clock : Z;
  online : bool;
}.

Definition content (path : string) (w : State) : option string :=
  snd <$> List.find (fun entry => String.eqb (fst entry) path) (files w).

Definition store (path data : string) (w : State) : State :=
  {| files := (path, data)
              :: List.filter (fun entry => negb (String.eqb (fst entry) path)) (files w);
     dirs := dirs w; clock := clock w; online := online w |}.

Fixpoint strip_prefix (prefix s : string) : option string :=
  match prefix, s with
  | EmptyString, _ => Some s
  | String a prefix', String b s' =>
      if Ascii.eqb a b then strip_prefix prefix' s' else None
  | String _ _, EmptyString => None
  end.

Definition under (dir path : string) : bool :=
  match strip_prefix (dir +:+ "/") path with
  | Some _ => true
  | None => false
  end.

(** The value that follows [flag] in an argument list. *)
Fixpoint flag_value (flag : string) (args : list JValue) : option string :=
  match args with
  | [] => None
  | arg :: rest =>
      match arg, rest with
      | JStr f, JStr v :: _ => if String.eqb f flag then Some v else flag_value flag rest
      | _, _ => flag_value flag rest
      end
  end.

(** The file a program writes and what it writes there. *)
Definition output (args : list JValue) : option (string * string) :=
  match args with
  | JStr "genrsa" :: _ => (fun path => (path, "KEY")) <$> flag_value "-out" args
  | JStr "req" :: _ => (fun path => (path, "CSR")) <$> flag_value "-out" args
  | JStr "getca" :: _ => (fun path => (path, "CA")) <$> flag_value "-c" args
  | JStr "enroll" :: _ => (fun path => (path, "CERT")) <$> flag_value "-l" args
  | _ => None
  end.

#[global] Instance system : System := {|
  World := State;
  access path w :=
    if bool_decide (is_Some (content path w)) || bool_decide (path ∈ dirs w)
    then Done tt else Failed "ENOENT: no such file or directory";
  fsReadFile path w :=
    match content path w with
    | Some data => Done data
    | None => Failed "ENOENT: no such file or directory"
    end;
  fsWriteFile path data w := (store path data w, Done tt);
  readdir path w :=
    if bool_decide (path ∈ dirs w)
    then Done (omap (fun entry => strip_prefix (path +:+ "/") (fst entry)) (files w))
    else Failed "ENOENT: no such file or directory";
  mkDir path w :=
    if bool_decide (is_Some (content path w))
    then (w, Failed "EEXIST: file already exists")
    else ({| files := files w; dirs := path :: dirs w;
             clock := clock w; online := online w |}, Done tt);
  rimraf path w :=
    {| files := List.filter (fun entry => negb (under path (fst entry))) (files w);
       dirs := List.filter (fun dir => negb (String.eqb dir path || under path dir)) (dirs w);
       clock := clock w; online := online w |};
  execFile file args w :=
    match output args with
    | Some (path, data) => (store path data w, Done tt)
    | None => (w, Failed "Command failed")
    end;
  ntlm_get username password url w :=
    (w, if online w then Done (JObj [("data", JStr "otp-123")])
        else Failed "connect ECONNREFUSED");
  parseCert_notAfter cert :=
    if String.eqb cert "CERT" then Done 2000%Z
    else if String.eqb cert "OLD CERT" then Done 1000%Z
    else Failed "Invalid certificate";
  Date_now w := clock w;
  join paths := String.concat "/" paths;
  normalize path := path;
  process_env := ∅;
  defaultScepResponseParser data :=
    match data with
    | JStr passcode => Done passcode
    | _ => Failed "response.substring is not a function"
    end;
|}.

Definition options : IdentityManagerOptions := {|
  certsDir := "/certs";
  idScope := "0ne000";
  provisioningHost := "global.azure-devices-provisioning.net";
  scepServer := {| otpUrl := "https://scep/otp"; certUrl := "https://scep/cert";
                   username := "user"; password := "secret"; responseParser := None |};
  config := JUndefined;
  keyLength := 4096;
|}.

(** Nothing on disk. *)
Definition empty : State :=
  {| files := []; dirs := []; clock := 1500; online := true |}.

Definition offline : State :=
  {| files := []; dirs := []; clock := 1500; online := false |}.

(** The identity of [device-1] on disk, valid until 2000. *)
Definition enrolled : State :=
  {| files := [("/certs/device-1/device-1.cer", "CERT");
               ("/certs/device-1/device-1.key", "KEY")];
     dirs := ["/certs/device-1"; "/certs"]; clock := 1500; online := true |}.

(** The identity of [device-1] on disk, expired at 1000. *)
Definition expired : State :=
  {| files := [("/certs/device-1/device-1.cer", "OLD CERT");
               ("/certs/device-1/device-1.key", "KEY")];
     dirs := ["/certs/device-1"; "/certs"]; clock := 1500; online := true |}.

(** The directories are there, the identity of [device-1] is not. *)
Definition prepared : State :=
  {| files := []; dirs := ["/certs/device-1"; "/certs/ca"; "/certs"];
     clock := 1500; online := true |}.

(** A file where the directory of the CA certificates should be. *)
Definition blocked_ca : State :=
  {| files := [("/certs/ca", "")]; dirs := ["/certs"]; clock := 1500; online := true |}.

(** A file where the temporary directory of [device-1] should be. *)
Definition blocked_tmp : State :=
  {| files := [("/certs/device-1/.tmp", "")]; dirs := ["/certs"];
     clock := 1500; online := true |}.

End Disk.

(** *** The registry of writable properties ([src/pnp/writable-property.ts])

    [writablePropertyMap] is a [WeakMap]: its keys are objects, told apart
    by their identity, which the model takes to be a number. *)

Definition addWritableProps
  (target : nat) (property : string) (writablePropertyMap : gmap nat (list string))
  : gmap nat (list string) :=
  let props := default [] (writablePropertyMap !! target) in
  <[target := props ++ [property]]> writablePropertyMap.

(** The decorator [@writable]. *)
Definition writable (target : nat) (propertyKey : string) :
  gmap nat (list string) -> gmap nat (list string) :=
  addWritableProps target propertyKey.

(** * Properties *)

(** ** Property lists and their order *)

Example js_to_string_21 : js_to_string (JNum 21) = Some "21".
Proof. vm_compute. reflexivity. Qed.

Example js_to_string_arr :
  js_to_string (JArr [JNum (-1); JNull; JStr "a"; JObj []]) = Some "-1,,a,[object Object]".
Proof. vm_compute. reflexivity. Qed.

(** Integers are printed in full below [10^21] and with an exponent from
    there on; beyond [2^53] the digits are the shortest that denote the
    double. *)
Example number_to_string_large :
  number_to_string (10 ^ 21 - 2 ^ 17) = "999999999999999900000"
  /\ number_to_string (10 ^ 21) = "1e+21"
  /\ number_to_string (2 ^ 60) = "1152921504606847000"
  /\ number_to_string (2 ^ 53 + 1) = "9007199254740992"
  /\ number_to_string (- (123456789 * 10 ^ 20)) = "-1.23456789e+28"
  /\ number_to_string (10 ^ 23) = "1e+23".
Proof. vm_compute. repeat split; reflexivity. Qed.

(** An object that owns a [toString] property cannot be printed, nor can an
    array that holds one; an own [valueOf] does not matter. *)
Example js_to_string_throws :
  js_to_string (JObj [("toString", JNum 1)]) = None
  /\ js_to_string (JArr [JNum 1; JArr [JObj [("toString", JNull)]]]) = None
  /\ js_to_string (JObj [("valueOf", JNum 1)]) = Some "[object Object]".
Proof. vm_compute. repeat split; reflexivity. Qed.

Example obj_set_order :
  obj_set [("2", JNull); ("b", JNull)] "10" JNull = [("2", JNull); ("10", JNull); ("b", JNull)]
  /\ obj_set [("2", JNull); ("b", JNull)] "01" JNull = [("2", JNull); ("b", JNull); ("01", JNull)]
  /\ obj_set [("2", JNull); ("b", JNull)] "2" (JNum 1) = [("2", JNum 1); ("b", JNull)].
Proof. repeat split; reflexivity. Qed.

Lemma has_key_false_iff (o : Props) (k : string) :
  has_key o k = false <-> ~ In k (List.map fst o).
Proof.
  unfold has_key. induction o as [|[k' x] o IH]; simpl.
  - tauto.
  - destruct (String.eqb_spec k' k) as [->|Hne]; simpl.
    + split; [discriminate | intros H; exfalso; apply H; now left].
    + rewrite IH. split.
      * intros H [Heq|Hin]; [now apply Hne | now apply H].
      * intros H Hin. apply H. now right.
Qed.

Lemma has_key_true_iff (o : Props) (k : string) :
  has_key o k = true <-> In k (List.map fst o).
Proof.
  destruct (has_key o k) eqn:E.
  - split; [intros _ | reflexivity].
    destruct (in_dec String.string_dec k (List.map fst o)) as [Hin|Hnin]; [assumption|].
    apply has_key_false_iff in Hnin. congruence.
  - apply has_key_false_iff in E. split; [discriminate | intros H; now elim E].
Qed.

Lemma key_before_irrefl (k : string) : key_before k k = false.
Proof.
  unfold key_before. destruct (array_index k).
  - apply N.ltb_irrefl.
  - now rewrite String.eqb_refl.
Qed.

Lemma key_before_neq (k1 k2 : string) : key_before k1 k2 = true -> k1 <> k2.
Proof. intros H ->. rewrite key_before_irrefl in H. discriminate. Qed.

Lemma keys_ordered_app (ks : list string) (k : string) :
  keys_ordered (ks ++ [k]) = true ->
  keys_ordered ks = true /\ Forall (fun k' => key_before k' k = true) ks.
Proof.
  induction ks as [|k0 ks IH]; simpl.
  - intros _. split; [reflexivity | constructor].
  - rewrite !andb_true_iff, forallb_app. simpl.
    rewrite !andb_true_iff. intros [[Hks [Hk _]] Hrest].
    destruct (IH Hrest) as [Hord Hall].
    split; [now split | now constructor].
Qed.

Lemma keys_ordered_NoDup (ks : list string) :
  keys_ordered ks = true -> List.NoDup ks.
Proof.
  induction ks as [|k ks IH]; simpl; intros H.
  - constructor.
  - apply andb_true_iff in H as [Hk Hks]. constructor; [|now apply IH].
    intros Hin. rewrite forallb_forall in Hk.
    specialize (Hk _ Hin). rewrite key_before_irrefl in Hk. discriminate.
Qed.

Lemma keys_ordered_filter (p : string * JValue -> bool) (o : Props) :
  keys_ordered (List.map fst o) = true ->
  keys_ordered (List.map fst (List.filter p o)) = true.
Proof.
  induction o as [|kv o IH]; simpl; [reflexivity|].
  rewrite andb_true_iff. intros [Hk Ho].
  destruct (p kv); simpl; [|now apply IH].
  rewrite andb_true_iff. split; [|now apply IH].
  rewrite forallb_forall in *. intros k Hin. apply Hk.
  rewrite in_map_iff in *. destruct Hin as [kv' [<- Hin]].
  exists kv'. split; [reflexivity|]. now apply filter_In in Hin as [Hin _].
Qed.

Lemma obj_insert_index_last (i : N) (k : string) (v : JValue) (o : Props) :
  array_index k = Some i ->
  Forall (fun k' => key_before k' k = true) (List.map fst o) ->
  obj_insert_index i k v o = o ++ [(k, v)].
Proof.
  intros Hk. induction o as [|[k' x] o IH]; simpl; intros Hall.
  - reflexivity.
  - inversion Hall as [|? ? Hb Hrest]; subst.
    unfold key_before in Hb. rewrite Hk in Hb.
    destruct (array_index k') as [j|]; [|discriminate].
    rewrite Hb. f_equal. now apply IH.
Qed.

(** Appending a property in enumeration order is what [obj_set] does. *)
Lemma obj_set_last (o : Props) (k : string) (v : JValue) :
  keys_ordered (List.map fst (o ++ [(k, v)])) = true ->
  obj_set o k v = o ++ [(k, v)].
Proof.
  rewrite List.map_app. simpl. intros H.
  apply keys_ordered_app in H as [_ Hall].
  unfold obj_set.
  assert (Hfresh : has_key o k = false).
  { apply has_key_false_iff. intros Hin.
    rewrite List.Forall_forall in Hall. specialize (Hall _ Hin).
    rewrite key_before_irrefl in Hall. discriminate. }
  rewrite Hfresh. destruct (array_index k) as [i|] eqn:Hk; [|reflexivity].
  now apply obj_insert_index_last.
Qed.

Lemma fold_obj_set_ordered (pairs : Props) :
  keys_ordered (List.map fst pairs) = true ->
  fold_left (fun acc kv => obj_set acc (fst kv) (snd kv)) pairs [] = pairs.
Proof.
  induction pairs as [|[k v] pairs IH] using rev_ind; [reflexivity|].
  intros H. rewrite fold_left_app. simpl.
  assert (Hpre : keys_ordered (List.map fst pairs) = true).
  { rewrite List.map_app in H. now apply keys_ordered_app in H as [H _]. }
  rewrite (IH Hpre). now apply obj_set_last.
Qed.

(** On pairs in enumeration order [Object.fromEntries] rebuilds the object
    with exactly these properties, in this order. *)
Lemma Object_fromEntries_ordered (pairs : Props) :
  keys_ordered (List.map fst pairs) = true ->
  Object_fromEntries pairs = JObj pairs.
Proof. intros H. unfold Object_fromEntries. now rewrite fold_obj_set_ordered. Qed.

Lemma own_entries_or_empty (delta : JValue) :
  own_entries (js_or delta (JObj [])) = own_entries delta.
Proof.
  unfold js_or. destruct delta as [| |[]|n|s| |]; simpl; try reflexivity.
  - destruct (n =? 0)%Z eqn:E; simpl; reflexivity.
  - destruct (String.eqb_spec s "") as [->|]; simpl; reflexivity.
Qed.

Lemma filterTwinMeta_entries (M : Markers) (delta : JValue) :
  filterTwinMeta M delta
  = List.filter (fun kv => not_twin_meta M (fst kv)) (own_entries delta).
Proof. unfold filterTwinMeta. now rewrite own_entries_or_empty. Qed.

Lemma filter_idem {A : Type} (p : A -> bool) (l : list A) :
  List.filter p (List.filter p l) = List.filter p l.
Proof.
  induction l as [|a l IH]; simpl; [reflexivity|].
  destruct (p a) eqn:E; simpl; rewrite ?E, IH; reflexivity.
Qed.

Lemma filterTwinMeta_ordered (M : Markers) (delta : JValue) :
  well_formed delta = true ->
  keys_ordered (List.map fst (filterTwinMeta M delta)) = true.
Proof.
  intros H. rewrite filterTwinMeta_entries. now apply keys_ordered_filter.
Qed.

(** C7: [filterTwinMeta] is idempotent.  For every value [t] whose
    properties are in enumeration order, filtering the object rebuilt with
    [Object.fromEntries] from [filterTwinMeta t] yields the same sequence of
    (key, value) pairs as [filterTwinMeta t]. *)
Theorem filterTwinMeta_idempotent (M : Markers) (t : JValue) :
  well_formed t = true ->
  filterTwinMeta M (Object_fromEntries (filterTwinMeta M t)) = filterTwinMeta M t.
Proof.
  intros Hwf.
  rewrite (Object_fromEntries_ordered _ (filterTwinMeta_ordered M t Hwf)).
  rewrite (filterTwinMeta_entries M (JObj _)). simpl.
  rewrite (filterTwinMeta_entries M t). apply filter_idem.
Qed.

(** Arrays and strings enumerate their elements in order under canonical
    index keys, so only an object can fail to be well formed. *)

Lemma array_index_index_key (i : nat) :
  array_index (index_key i)
  = if (N.of_nat i <? 4294967295)%N then Some (N.of_nat i) else None.
Proof.
  unfold array_index, index_key.
  rewrite NilEmpty.usu. cbv zeta.
  rewrite DecimalN.Unsigned.of_to, String.eqb_refl. reflexivity.
Qed.

Lemma index_key_inj (a b : nat) : index_key a = index_key b -> a = b.
Proof.
  unfold index_key. intros H.
  apply (f_equal NilEmpty.uint_of_string) in H.
  rewrite !NilEmpty.usu in H. injection H as H'.
  apply DecimalN.Unsigned.to_uint_inj in H'. lia.
Qed.

Lemma key_before_index_key (a b : nat) :
  a < b -> key_before (index_key a) (index_key b) = true.
Proof.
  intros Hlt. unfold key_before. rewrite !array_index_index_key.
  destruct (N.ltb_spec (N.of_nat a) 4294967295), (N.ltb_spec (N.of_nat b) 4294967295).
  - apply N.ltb_lt. lia.
  - reflexivity.
  - lia.
  - apply negb_true_iff, String.eqb_neq. intros Heq. apply index_key_inj in Heq. lia.
Qed.

Lemma indexed_from_keys (i : nat) (l : list JValue) (k : string) :
  In k (List.map fst (indexed_from i l)) -> exists j, i <= j /\ k = index_key j.
Proof.
  revert i. induction l as [|x l IH]; simpl; intros i H; [contradiction|].
  destruct H as [<-|H].
  - exists i. split; [lia | reflexivity].
  - destruct (IH _ H) as [j [Hj ->]]. exists j. split; [lia | reflexivity].
Qed.

Lemma indexed_from_ordered (i : nat) (l : list JValue) :
  keys_ordered (List.map fst (indexed_from i l)) = true.
Proof.
  revert i. induction l as [|x l IH]; simpl; intros i; [reflexivity|].
  rewrite andb_true_iff. split; [|apply IH].
  apply forallb_forall. intros k Hin.
  destruct (indexed_from_keys _ _ _ Hin) as [j [Hj ->]].
  apply key_before_index_key. lia.
Qed.

Lemma well_formed_not_object (v : JValue) :
  (forall props, v <> JObj props) -> well_formed v = true.
Proof.
  intros H. unfold well_formed.
  destruct v; simpl; try reflexivity; try apply indexed_from_ordered.
  now elim (H props).
Qed.

(** ** [isWritablePropertyResponse] *)

(** C10: [isWritablePropertyResponse] is not total.  On [null] it throws a
    [TypeError]; on every value whose [typeof] is not ["object"] it returns
    [false]; on every other value, that is on every non-null object, it
    returns [true] exactly when the four keys [value], [ac], [ad] and [av]
    are all present. *)
Theorem isWritablePropertyResponse_partial :
  (exists msg, isWritablePropertyResponse JNull = Throw (TypeError msg))
  /\ (forall v, js_typeof v <> "object" -> isWritablePropertyResponse v = Ok false)
  /\ (forall v, v <> JNull -> js_typeof v = "object" ->
        isWritablePropertyResponse v
        = Ok (has_key (own_entries v) "value" && has_key (own_entries v) "ac"
              && has_key (own_entries v) "ad" && has_key (own_entries v) "av")).
Proof.
  split; [|split].
  - eexists. reflexivity.
  - intros v Hty. unfold isWritablePropertyResponse.
    destruct (String.eqb_spec (js_typeof v) "object") as [E|_]; [contradiction|].
    reflexivity.
  - intros v Hnull Hty. unfold isWritablePropertyResponse. rewrite Hty. simpl.
    destruct v; try discriminate; try contradiction; unfold js_in;
      (destruct (has_key _ "ac"), (has_key _ "ad"), (has_key _ "av"), (has_key _ "value");
       reflexivity).
Qed.

(** The four-field test on a concrete envelope, on a plain value and on
    [null]. *)
Example isWritablePropertyResponse_examples :
  isWritablePropertyResponse
    (JObj [("value", JNum 21); ("ac", JNum 200); ("ad", JStr "ok"); ("av", JNum 5)]) = Ok true
  /\ isWritablePropertyResponse (JObj [("value", JNum 21); ("ac", JNum 200)]) = Ok false
  /\ isWritablePropertyResponse (JNum 21) = Ok false
  /\ isWritablePropertyResponse (JArr [JNum 1]) = Ok false
  /\ isWritablePropertyResponse JNull
     = Throw (TypeError "Cannot use 'in' operator to search for a key in a non-object").
Proof. repeat split; reflexivity. Qed.

(** ** The component registry *)

Lemma map_get_set_eq {V : Type} (m : list (string * V)) (k : string) (v : V) :
  map_get (map_set m k v) k = Some v.
Proof.
  induction m as [|[k' x] m IH]; simpl.
  - now rewrite String.eqb_refl.
  - destruct (String.eqb_spec k' k) as [->|Hne]; simpl.
    + now rewrite String.eqb_refl.
    + destruct (String.eqb_spec k' k); [contradiction | exact IH].
Qed.

Lemma map_get_set_ne {V : Type} (m : list (string * V)) (k k' : string) (v : V) :
  k <> k' -> map_get (map_set m k v) k' = map_get m k'.
Proof.
  intros Hne. induction m as [|[k0 x] m IH]; simpl.
  - destruct (String.eqb_spec k k'); [contradiction | reflexivity].
  - destruct (String.eqb_spec k0 k) as [->|Hk0]; simpl.
    + destruct (String.eqb_spec k k'); [contradiction | reflexivity].
    + destruct (String.eqb_spec k0 k'); [reflexivity | exact IH].
Qed.

Lemma map_get_In {V : Type} (m : list (string * V)) (k : string) (v : V) :
  map_get m k = Some v -> In (k, v) m.
Proof.
  induction m as [|[k' x] m IH]; simpl; [discriminate|].
  destruct (String.eqb_spec k' k) as [->|Hne].
  - intros [= ->]. now left.
  - intros H. right. now apply IH.
Qed.

Lemma map_get_Some_keys {V : Type} (m : list (string * V)) (k : string) :
  In k (List.map fst m) <-> exists v, map_get m k = Some v.
Proof.
  induction m as [|[k' x] m IH]; simpl.
  - split; [contradiction | intros [v H]; discriminate].
  - destruct (String.eqb_spec k' k) as [->|Hne].
    + split; [intros _; now exists x | intros _; now left].
    + rewrite <- IH. split; [intros [H|H]; [contradiction | exact H] | intros H; now right].
Qed.

(** [Map.set] on a present key changes no key and no position. *)
Lemma map_set_present_keys {V : Type} (m : list (string * V)) (k : string) (v : V) :
  In k (List.map fst m) -> List.map fst (map_set m k v) = List.map fst m.
Proof.
  induction m as [|[k' x] m IH]; simpl; [contradiction|].
  destruct (String.eqb_spec k' k) as [->|Hne]; simpl; [reflexivity|].
  intros [H|H]; [contradiction|]. f_equal. now apply IH.
Qed.

Lemma map_set_fresh_keys {V : Type} (m : list (string * V)) (k : string) (v : V) :
  ~ In k (List.map fst m) -> List.map fst (map_set m k v) = List.map fst m ++ [k].
Proof.
  induction m as [|[k' x] m IH]; simpl; intros H; [reflexivity|].
  destruct (String.eqb_spec k' k) as [->|Hne]; simpl.
  - exfalso. apply H. now left.
  - f_equal. apply IH. intros Hin. apply H. now right.
Qed.

(** The keys of a [Map] stay pairwise distinct. *)
Lemma map_set_NoDup {V : Type} (m : list (string * V)) (k : string) (v : V) :
  List.NoDup (List.map fst m) -> List.NoDup (List.map fst (map_set m k v)).
Proof.
  intros Hnd. destruct (in_dec String.string_dec k (List.map fst m)) as [Hin|Hnin].
  - now rewrite map_set_present_keys.
  - rewrite map_set_fresh_keys by assumption.
    apply List.NoDup_app; [assumption | |].
    + constructor; [intros [] | constructor].
    + intros a Ha [<-|[]]. contradiction.
Qed.

(** C6, as the code has it: registering a component whose key is already
    registered does not fail.  [registerComponent] returns the new instance
    and stores it in place of the existing registration; the registered
    keys, their order and every other registration stay as they were. *)
Theorem registerComponent_replaces
  (dc : DeviceClient) (componentCtor : DeviceClient -> PnPComponent) (existing : PnPComponent) :
  no_model_id dc = false ->
  map_get (components dc) (componentKey (componentCtor dc)) = Some existing ->
  exists dc',
    registerComponent dc componentCtor = Ok (componentCtor dc, dc')
    /\ map_get (components dc') (componentKey (componentCtor dc)) = Some (componentCtor dc)
    /\ List.map fst (components dc') = List.map fst (components dc)
    /\ (forall k, k <> componentKey (componentCtor dc) ->
          map_get (components dc') k = map_get (components dc) k)
    /\ propertyChangeHandlers dc' = propertyChangeHandlers dc.
Proof.
  intros Hmodel Hreg. unfold registerComponent. rewrite Hmodel.
  eexists. split; [reflexivity|]. simpl. repeat split.
  - apply map_get_set_eq.
  - apply map_set_present_keys. apply map_get_Some_keys. eauto.
  - intros k Hk. apply map_get_set_ne. congruence.
Qed.

(** ** Running procedures *)

Lemma proc_bind_unfold {A B : Type} (m : Proc A) (f : A -> Proc B) :
  m ≫= f = match m with
            | (tr, Ok a) => (tr ++ fst (f a), snd (f a))
            | (tr, Throw e) => (tr, Throw e)
            end.
Proof.
  destruct m as [tr [a|e]]; unfold mbind, Proc_bind; [destruct (f a)|]; reflexivity.
Qed.

Lemma for_of_cons {X : Type} (x : X) (l : list X) (body : X -> Proc unit) :
  for_of (x :: l) body
  = match body x with
    | (tr, Ok _) => (tr ++ fst (for_of l body), snd (for_of l body))
    | (tr, Throw e) => (tr, Throw e)
    end.
Proof. simpl. apply proc_bind_unfold. Qed.

(** An event of a loop is an event of one of its iterations. *)
Lemma for_of_event {X : Type} (l : list X) (body : X -> Proc unit) (e : Event) :
  In e (fst (for_of l body)) -> exists x, In x l /\ In e (fst (body x)).
Proof.
  induction l as [|x l IH]; [intros []|].
  rewrite for_of_cons. destruct (body x) as [tr [[]|err]] eqn:Hx; simpl.
  - rewrite in_app_iff. intros [H|H].
    + exists x. split; [now left | now rewrite Hx].
    + destruct (IH H) as [y [Hy He]]. exists y. split; [now right | exact He].
  - intros H. exists x. split; [now left | now rewrite Hx].
Qed.

(** A loop whose iterations all complete runs them all, in order. *)
Lemma for_of_completes {X : Type} (l : list X) (body : X -> Proc unit) :
  (forall x, In x l -> snd (body x) = Ok tt) ->
  for_of l body = (flat_map (fun x => fst (body x)) l, Ok tt).
Proof.
  induction l as [|x l IH]; intros H; [reflexivity|].
  rewrite for_of_cons. specialize (H x (or_introl eq_refl)) as Hx.
  destruct (body x) as [tr r] eqn:E. simpl in Hx. subst r.
  rewrite IH by (intros y Hy; apply H; now right).
  simpl. now rewrite E.
Qed.

(** ** Acknowledging one property *)

Ltac run_proc :=
  unfold reportComponentProperties, reportProperties, await_handler, template_string,
    try_catch, emit, throw, report_result;
  unfold mbind, Proc_bind, mret, Proc_ret; simpl.

Lemma reportComponentProperties_run
  (M : Markers) (tu : JValue -> option JValue) (C : string) (partial : JValue) :
  reportComponentProperties M tu C partial
  = ([ReportComponentProperties C partial; TwinUpdate (component_patch M C partial)],
     report_result tu (component_patch M C partial)).
Proof. run_proc. destruct (tu _); reflexivity. Qed.

Lemma acknowledge_property_not_writable
  (M : Markers) (tu : JValue -> option JValue) (dc : DeviceClient)
  (comp : PnPComponent) (C : string) (version : JValue) (P : string) (V : JValue) :
  P ∉ writeableProperties comp ->
  acknowledge_property M tu dc comp C version (P, V) = ([], Ok tt).
Proof. intros H. unfold acknowledge_property. now rewrite bool_decide_false. Qed.

(** Every acknowledgement is for a writable property of the component at
    hand, whose value can be printed, and carries one of the two
    envelopes. *)
Lemma acknowledge_property_reports
  (M : Markers) (tu : JValue -> option JValue) (dc : DeviceClient)
  (comp : PnPComponent) (C : string) (version : JValue) (P : string) (V : JValue)
  (key : string) (patch : JValue) :
  In (ReportComponentProperties key patch)
     (fst (acknowledge_property M tu dc comp C version (P, V))) ->
  key = C /\ P ∈ writeableProperties comp
  /\ exists ack shown, js_to_string V = Some shown /\ patch = JObj [(P, ack)]
       /\ (ack = failure_ack P V version shown
           \/ exists r, ack = success_ack P V version r shown).
Proof.
  unfold acknowledge_property. case_bool_decide as Hw; [|intros []].
  destruct (js_to_string V) as [shown|] eqn:Hshown.
  - intros H. split; [|split; [assumption|]]; revert H;
      (destruct (propertyChangeHandlers dc !! P) as [h|]; run_proc; rewrite ?Hshown; simpl;
       [destruct (handler_run h V version) as [r|reason]; simpl; rewrite ?Hshown; simpl|];
       repeat match goal with |- context [tu ?p] => destruct (tu p); simpl end;
       rewrite ?Hshown; simpl;
       repeat match goal with |- context [tu ?p] => destruct (tu p); simpl end;
       intros H; repeat (destruct H as [H|H]; [inversion H; subst; eauto 8|]);
       try contradiction).
  - destruct (propertyChangeHandlers dc !! P) as [h|]; run_proc; rewrite ?Hshown; simpl;
      [destruct (handler_run h V version) as [r|reason]; simpl; rewrite ?Hshown; simpl|];
      intros H; repeat (destruct H as [H|H]; [discriminate|]); contradiction.
Qed.

(** A value that cannot be printed is not acknowledged: the handler is
    called, the template literal throws in the [try] block and again in the
    [catch] block, and the [TypeError] leaves the loop. *)
Lemma acknowledge_property_unprintable
  (M : Markers) (tu : JValue -> option JValue) (dc : DeviceClient)
  (comp : PnPComponent) (C : string) (version : JValue) (P : string) (V : JValue) :
  P ∈ writeableProperties comp ->
  js_to_string V = None ->
  acknowledge_property M tu dc comp C version (P, V)
  = (match propertyChangeHandlers dc !! P with
     | Some h => [HandlerCalled (handler_ref h) V version]
     | None => []
     end,
     Throw (TypeError cannot_convert)).
Proof.
  intros Hw Hshown. unfold acknowledge_property. rewrite bool_decide_true by assumption.
  destruct (propertyChangeHandlers dc !! P) as [h|]; run_proc; rewrite ?Hshown; simpl;
    [destruct (handler_run h V version) as [r|reason]; simpl; rewrite ?Hshown|];
    reflexivity.
Qed.

Lemma acknowledge_property_completes
  (M : Markers) (tu : JValue -> option JValue) (dc : DeviceClient)
  (comp : PnPComponent) (C : string) (version : JValue) (property : string * JValue) :
  (forall patch, tu patch = None) ->
  (fst property ∈ writeableProperties comp -> js_to_string (snd property) <> None) ->
  snd (acknowledge_property M tu dc comp C version property) = Ok tt.
Proof.
  intros Htu Hprint. destruct property as [P V]. simpl in Hprint.
  unfold acknowledge_property. case_bool_decide as Hw; [|reflexivity].
  destruct (js_to_string V) as [shown|] eqn:Hshown; [|now destruct (Hprint Hw)].
  destruct (propertyChangeHandlers dc !! P) as [h|]; run_proc; rewrite ?Hshown; simpl;
    [destruct (handler_run h V version) as [r|reason]; simpl; rewrite ?Hshown; simpl|];
    rewrite ?Htu; simpl; rewrite ?Htu; reflexivity.
Qed.

(** ** Handling one changed component *)

Lemma handle_changed_component_other
  (M : Markers) (tu : JValue -> option JValue) (dc : DeviceClient)
  (comp : PnPComponent) (C : string) (handler : option Handler)
  (version : JValue) (k : string) (d : JValue) :
  k <> C ->
  handle_changed_component M tu dc comp C handler version (k, d) = ([], Ok tt).
Proof.
  intros Hne. unfold handle_changed_component.
  destruct (String.eqb_spec k C); [contradiction | reflexivity].
Qed.

Lemma handle_changed_component_match
  (M : Markers) (tu : JValue -> option JValue) (dc : DeviceClient)
  (comp : PnPComponent) (C : string) (handler : option Handler)
  (version : JValue) (d : JValue) :
  handle_changed_component M tu dc comp C handler version (C, d)
  = let acks := for_of (filterTwinMeta M d) (acknowledge_property M tu dc comp C version) in
    match handler with
    | None => acks
    | Some h =>
        match handler_run h d version with
        | Resolves _ => (HandlerCalled (handler_ref h) d version :: fst acks, snd acks)
        | Rejects reason => ([HandlerCalled (handler_ref h) d version], Throw (HandlerError reason))
        end
    end.
Proof.
  unfold handle_changed_component. rewrite String.eqb_refl. simpl.
  destruct handler as [h|].
  - run_proc. destruct (handler_run h d version); simpl; [|reflexivity].
    destruct (for_of _ _). reflexivity.
  - rewrite proc_bind_unfold. simpl. destruct (for_of _ _). reflexivity.
Qed.

Lemma handle_changed_component_completes
  (M : Markers) (tu : JValue -> option JValue) (dc : DeviceClient)
  (comp : PnPComponent) (C : string) (handler : option Handler)
  (version : JValue) (changed : string * JValue) :
  (forall patch, tu patch = None) ->
  (forall h, handler = Some h -> fst changed = C ->
     exists r, handler_run h (snd changed) version = Resolves r) ->
  (forall p v, fst changed = C -> In (p, v) (filterTwinMeta M (snd changed)) ->
     p ∈ writeableProperties comp -> js_to_string v <> None) ->
  snd (handle_changed_component M tu dc comp C handler version changed) = Ok tt.
Proof.
  intros Htu Hh Hprint. destruct changed as [k d].
  destruct (String.eqb_spec k C) as [->|Hne].
  - rewrite handle_changed_component_match. cbv zeta.
    assert (Hacks : snd (for_of (filterTwinMeta M d)
                           (acknowledge_property M tu dc comp C version)) = Ok tt).
    { rewrite for_of_completes; [reflexivity|].
      intros [p v] Hin. apply acknowledge_property_completes; [assumption|].
      simpl. now apply Hprint. }
    destruct handler as [h|]; [|exact Hacks].
    destruct (Hh h eq_refl eq_refl) as [r Hr]. simpl in Hr. now rewrite Hr.
  - now rewrite handle_changed_component_other.
Qed.

Lemma handle_changed_component_reports
  (M : Markers) (tu : JValue -> option JValue) (dc : DeviceClient)
  (comp : PnPComponent) (C : string) (handler : option Handler)
  (version : JValue) (k : string) (d : JValue) (key : string) (patch : JValue) :
  In (ReportComponentProperties key patch)
     (fst (handle_changed_component M tu dc comp C handler version (k, d))) ->
  k = C /\ key = C
  /\ exists P V ack shown,
       In (P, V) (filterTwinMeta M d) /\ P ∈ writeableProperties comp
       /\ js_to_string V = Some shown
       /\ patch = JObj [(P, ack)]
       /\ (ack = failure_ack P V version shown
           \/ exists r, ack = success_ack P V version r shown).
Proof.
  destruct (String.eqb_spec k C) as [->|Hne];
    [|rewrite handle_changed_component_other by assumption; intros []].
  rewrite handle_changed_component_match. cbv zeta. intros H.
  assert (Hin : In (ReportComponentProperties key patch)
                   (fst (for_of (filterTwinMeta M d)
                           (acknowledge_property M tu dc comp C version)))).
  { destruct handler as [h|]; [|exact H].
    destruct (handler_run h d version); simpl in H;
      destruct H as [H|H]; try discriminate; try contradiction. exact H. }
  apply for_of_event in Hin as [[P V] [HP Hev]].
  apply acknowledge_property_reports in Hev as [-> [Hw [ack [shown [Hshown [-> Hack]]]]]].
  split; [reflexivity|]. split; [reflexivity|].
  exists P, V, ack, shown. auto.
Qed.

(** ** Processing a notification *)

Lemma handleChangedComponentProperties_completes
  (M : Markers) (tu : JValue -> option JValue) (dc : DeviceClient)
  (version : JValue) (changedComponents : Props) :
  (forall patch, tu patch = None) ->
  (forall k c h d, In (k, c) (components dc) -> propertyChangeHandlers dc !! k = Some h ->
     In (k, d) changedComponents -> exists r, handler_run h d version = Resolves r) ->
  (forall k c d p v, In (k, c) (components dc) -> In (k, d) changedComponents ->
     In (p, v) (filterTwinMeta M d) -> p ∈ writeableProperties c ->
     js_to_string v <> None) ->
  snd (handleChangedComponentProperties M tu dc version changedComponents) = Ok tt.
Proof.
  intros Htu Hh Hprint. unfold handleChangedComponentProperties.
  rewrite for_of_completes; [reflexivity|].
  intros [k c] Hkc. rewrite for_of_completes; [reflexivity|].
  intros [k' d] Hd. apply handle_changed_component_completes; [assumption| |].
  - simpl. intros h Hlook ->. eapply Hh; eassumption.
  - simpl. intros p v -> Hp Hw. eapply Hprint; eassumption.
Qed.

Lemma handleChangedComponentProperties_reports
  (M : Markers) (tu : JValue -> option JValue) (dc : DeviceClient)
  (version : JValue) (changedComponents : Props) (key : string) (patch : JValue) :
  In (ReportComponentProperties key patch)
     (fst (handleChangedComponentProperties M tu dc version changedComponents)) ->
  exists comp d P V ack shown,
    In (key, comp) (components dc) /\ In (key, d) changedComponents
    /\ In (P, V) (filterTwinMeta M d) /\ P ∈ writeableProperties comp
    /\ js_to_string V = Some shown
    /\ patch = JObj [(P, ack)]
    /\ (ack = failure_ack P V version shown
        \/ exists r, ack = success_ack P V version r shown).
Proof.
  unfold handleChangedComponentProperties. intros H.
  apply for_of_event in H as [[C comp] [Hcomp H]].
  apply for_of_event in H as [[k d] [Hd H]].
  apply handle_changed_component_reports in H as [-> [-> [P [V [ack [shown H]]]]]].
  exists comp, d, P, V, ack, shown. tauto.
Qed.

Lemma on_desired_properties_unfold
  (M : Markers) (tu : JValue -> option JValue) (dc : DeviceClient) (changes : JValue) :
  on_desired_properties M tu dc changes
  = let version := js_get changes (TWIN_VERSION_KEY M) in
    let handled :=
      match components dc with
      | [] => ([], Ok tt)
      | _ :: _ => handleChangedComponentProperties M tu dc version (filterTwinMeta M changes)
      end in
    (DesiredVersion version :: fst handled, snd handled).
Proof.
  unfold on_desired_properties. run_proc.
  destruct (components dc) eqn:E; simpl; [reflexivity|].
  destruct (handleChangedComponentProperties _ _ _ _ _). reflexivity.
Qed.

(** Every acknowledgement the engine reports while it processes a
    notification is for a property that passed the metadata filter, inside
    a component subtree that passed it, that the registered component
    lists as writable, and whose value can be printed. *)
Lemma on_desired_properties_reports
  (M : Markers) (tu : JValue -> option JValue) (dc : DeviceClient) (changes : JValue)
  (key : string) (patch : JValue) :
  In (ReportComponentProperties key patch) (fst (on_desired_properties M tu dc changes)) ->
  exists comp d P V ack shown,
    In (key, comp) (components dc) /\ In (key, d) (filterTwinMeta M changes)
    /\ In (P, V) (filterTwinMeta M d) /\ P ∈ writeableProperties comp
    /\ js_to_string V = Some shown
    /\ patch = JObj [(P, ack)]
    /\ (ack = failure_ack P V (js_get changes (TWIN_VERSION_KEY M)) shown
        \/ exists r, ack = success_ack P V (js_get changes (TWIN_VERSION_KEY M)) r shown).
Proof.
  rewrite on_desired_properties_unfold. cbv zeta. simpl.
  intros [H|H]; [discriminate|].
  destruct (components dc) eqn:E; [contradiction|]. rewrite <- E in *.
  now apply handleChangedComponentProperties_reports in H.
Qed.

Lemma on_desired_properties_completes
  (M : Markers) (tu : JValue -> option JValue) (dc : DeviceClient) (changes : JValue) :
  (forall patch, tu patch = None) ->
  (forall k c h d, In (k, c) (components dc) -> propertyChangeHandlers dc !! k = Some h ->
     In (k, d) (filterTwinMeta M changes) ->
     exists r, handler_run h d (js_get changes (TWIN_VERSION_KEY M)) = Resolves r) ->
  values_printable M dc changes ->
  snd (on_desired_properties M tu dc changes) = Ok tt.
Proof.
  intros Htu Hh Hprint. rewrite on_desired_properties_unfold. cbv zeta. simpl.
  destruct (components dc) eqn:E; [reflexivity|]. rewrite <- E in *.
  now apply handleChangedComponentProperties_completes.
Qed.

Lemma for_of_ok_all {X : Type} (l : list X) (body : X -> Proc unit) :
  snd (for_of l body) = Ok tt -> forall x, In x l -> snd (body x) = Ok tt.
Proof.
  induction l as [|x l IH]; [intros _ y []|].
  rewrite for_of_cons. destruct (body x) as [tr [[]|err]] eqn:Hx; simpl; [|discriminate].
  intros H y [<-|Hy]; [now rewrite Hx | now apply IH].
Qed.

Lemma in_flat_map_intro {A B : Type} (f : A -> list B) (l : list A) (x : A) (y : B) :
  In x l -> In y (f x) -> In y (flat_map f l).
Proof. intros Hx Hy. apply in_flat_map. eauto. Qed.

(** C5: a property [P] that the component registered under [C] does not
    list as writable is never acknowledged: no report call for [P] under [C]
    is made while a notification is processed.  [P] is nevertheless part of
    the delta handed to the component-change handler of [C]: when the
    notification is processed to its end, that handler has been called with
    the subtree of [C], which still holds [P]. *)
Theorem non_writable_property_not_acknowledged
  (M : Markers) (tu : JValue -> option JValue) (dc : DeviceClient) (changes : JValue)
  (C P : string) :
  (forall comp, In (C, comp) (components dc) -> P ∉ writeableProperties comp) ->
  (forall ack,
     ~ In (ReportComponentProperties C (JObj [(P, ack)]))
          (fst (on_desired_properties M tu dc changes)))
  /\ (forall comp h d V,
        In (C, comp) (components dc) ->
        propertyChangeHandlers dc !! C = Some h ->
        In (C, d) (filterTwinMeta M changes) ->
        In (P, V) (own_entries d) ->
        snd (on_desired_properties M tu dc changes) = Ok tt ->
        exists delta,
          In (HandlerCalled (handler_ref h) delta (js_get changes (TWIN_VERSION_KEY M)))
             (fst (on_desired_properties M tu dc changes))
          /\ In (P, V) (own_entries delta)).
Proof.
  intros Hnw. split.
  - intros ack H.
    apply on_desired_properties_reports in H
      as [comp [d [P' [V [ack' [shown [Hcomp [_ [_ [Hw [_ [Heq _]]]]]]]]]]]].
    injection Heq as <- _. now apply (Hnw comp).
  - intros comp h d V Hcomp Hh Hd HP Hok. exists d. split; [|assumption].
    rewrite on_desired_properties_unfold in *. cbv zeta in *. simpl in *. right.
    destruct (components dc) eqn:E; [contradiction|]. rewrite <- E in *.
    unfold handleChangedComponentProperties in *.
    pose proof (for_of_ok_all _ _ Hok) as Hall.
    rewrite for_of_completes by assumption. simpl.
    apply (in_flat_map_intro _ _ (C, comp)); [assumption|].
    specialize (Hall _ Hcomp). simpl in Hall.
    pose proof (for_of_ok_all _ _ Hall) as Hall'.
    rewrite for_of_completes by assumption. simpl.
    apply (in_flat_map_intro _ _ (C, d)); [assumption|].
    specialize (Hall' _ Hd). rewrite Hh in *.
    rewrite handle_changed_component_match in *. cbv zeta in *.
    destruct (handler_run h d _); simpl; now left.
Qed.

(** ** Property handlers registered through [addComponentPropertyChangeHandler] *)

Lemma string_length_append (a b : string) :
  String.length (a +:+ b) = String.length a + String.length b.
Proof. induction a as [|c a IH]; simpl; [reflexivity | now rewrite IH]. Qed.

(** The key a property handler is stored under is never the key the
    dispatch looks up. *)
Lemma property_handler_key_mismatch (C P : string) : C +:+ "|" +:+ P <> P.
Proof.
  intros H. apply (f_equal String.length) in H.
  rewrite !string_length_append in H. simpl in H. lia.
Qed.

(** C2, what the code does instead: registering [h] with
    [addComponentPropertyChangeHandler C P h] changes nothing in how a
    change of [P] under [C] is acknowledged.  The handler is stored under
    the key "C|P", the dispatch looks up the key [P]; so [h] is not called
    and nothing it returns reaches the envelope. *)
Theorem registered_property_handler_not_consulted
  (M : Markers) (tu : JValue -> option JValue) (dc : DeviceClient)
  (comp : PnPComponent) (C P : string) (h : Handler) (version V : JValue) :
  acknowledge_property M tu (addComponentPropertyChangeHandler dc C P h) comp C version (P, V)
  = acknowledge_property M tu dc comp C version (P, V).
Proof.
  unfold acknowledge_property, addComponentPropertyChangeHandler, set_handler. simpl.
  rewrite lookup_insert_ne by apply property_handler_key_mismatch. reflexivity.
Qed.

(** ** The key ["update"] *)

Lemma has_key_app (o1 o2 : Props) (k : string) :
  has_key (o1 ++ o2) k = has_key o1 k || has_key o2 k.
Proof. unfold has_key. apply existsb_app. Qed.

Lemma has_key_obj_replace (o : Props) (k k' : string) (v : JValue) :
  has_key (obj_replace k v o) k' = has_key o k'.
Proof.
  unfold has_key. induction o as [|[k0 x] o IH]; simpl; [reflexivity|].
  destruct (String.eqb k0 k); simpl; [reflexivity | now rewrite IH].
Qed.

Lemma has_key_obj_insert_index (i : N) (o : Props) (k k' : string) (v : JValue) :
  has_key (obj_insert_index i k v o) k' = String.eqb k k' || has_key o k'.
Proof.
  unfold has_key. induction o as [|[k0 x] o IH]; simpl; [reflexivity|].
  destruct (array_index k0) as [j|]; [destruct (j <? i)%N|]; simpl; try reflexivity.
  rewrite IH. now destruct (String.eqb k0 k'), (String.eqb k k').
Qed.

Lemma has_key_obj_set (o : Props) (k k' : string) (v : JValue) :
  has_key (obj_set o k v) k' = String.eqb k k' || has_key o k'.
Proof.
  unfold obj_set. destruct (has_key o k) eqn:Hk.
  - rewrite has_key_obj_replace.
    destruct (String.eqb_spec k k') as [<-|]; [now rewrite Hk | reflexivity].
  - destruct (array_index k).
    + apply has_key_obj_insert_index.
    + rewrite has_key_app. simpl. rewrite orb_false_r. apply orb_comm.
Qed.

Lemma has_key_fold_obj_set (pairs o : Props) (k : string) :
  has_key (fold_left (fun acc kv => obj_set acc (fst kv) (snd kv)) pairs o) k
  = has_key o k || has_key pairs k.
Proof.
  revert o. induction pairs as [|[k0 x] pairs IH]; intros o; simpl.
  - now rewrite orb_false_r.
  - rewrite IH, has_key_obj_set. simpl.
    now destruct (String.eqb k0 k), (has_key o k).
Qed.

Lemma has_key_filter_false (p : string -> bool) (o : Props) (k : string) :
  p k = false -> has_key (List.filter (fun kv => p (fst kv)) o) k = false.
Proof.
  intros Hp. apply has_key_false_iff. rewrite in_map_iff.
  intros [[k' x] [Hk Hin]]. simpl in Hk. subst k'.
  apply filter_In in Hin as [_ Hin]. simpl in Hin. congruence.
Qed.

Lemma not_twin_meta_update (M : Markers) : not_twin_meta M "update" = false.
Proof.
  unfold not_twin_meta. rewrite String.eqb_refl. simpl.
  now rewrite andb_false_r.
Qed.

Lemma not_component_meta_update (M : Markers) : not_component_meta M "update" = false.
Proof.
  unfold not_component_meta. rewrite String.eqb_refl. now rewrite andb_false_r.
Qed.

Lemma map_normalize_keys (entries pairs : Props) :
  map_normalize entries = Ok pairs -> List.map fst pairs = List.map fst entries.
Proof.
  revert pairs. induction entries as [|[k x] entries IH]; simpl; intros pairs H.
  - now injection H as <-.
  - destruct (normalizeWritablePropertyAck x); [|discriminate].
    destruct (map_normalize entries) as [rest|]; [|discriminate].
    injection H as <-. simpl. f_equal. now apply IH.
Qed.

Lemma has_key_keys (o1 o2 : Props) (k : string) :
  List.map fst o1 = List.map fst o2 -> has_key o1 k = has_key o2 k.
Proof.
  intros H. destruct (has_key o2 k) eqn:E.
  - apply has_key_true_iff. rewrite H. now apply has_key_true_iff.
  - apply has_key_false_iff. rewrite H. now apply has_key_false_iff.
Qed.

Lemma normalizeComponentState_update (M : Markers) (delta state : JValue) :
  normalizeComponentState M delta = Ok state ->
  has_key (own_entries state) "update" = false.
Proof.
  unfold normalizeComponentState.
  destruct (Object_entries delta) as [entries|]; [|discriminate].
  destruct (map_normalize _) as [pairs|] eqn:Hn; [|discriminate].
  intros [= <-]. simpl. rewrite has_key_fold_obj_set. simpl.
  rewrite (has_key_keys _ _ _ (map_normalize_keys _ _ Hn)).
  apply (has_key_filter_false (not_component_meta M)), not_component_meta_update.
Qed.

Lemma for_of_ext {X : Type} (l : list X) (f g : X -> Proc unit) :
  (forall x, In x l -> f x = g x) -> for_of l f = for_of l g.
Proof.
  induction l as [|x l IH]; intros H; [reflexivity|].
  rewrite !for_of_cons, (H x (or_introl eq_refl)), IH; [reflexivity|].
  intros y Hy. apply H. now right.
Qed.

Lemma filterTwinMeta_not_update (M : Markers) (delta : JValue) (k : string) (v : JValue) :
  In (k, v) (filterTwinMeta M delta) -> k <> "update".
Proof.
  rewrite filterTwinMeta_entries. intros H ->. apply filter_In in H as [_ H].
  simpl in H. rewrite not_twin_meta_update in H. discriminate.
Qed.

(** What is stored under the key ["update"] is never looked up for a
    changed component or property: the run is the same with and without
    it. *)
Lemma handler_under_update_ignored
  (M : Markers) (tu : JValue -> option JValue) (dc : DeviceClient) (h : Handler)
  (changes : JValue) :
  on_desired_properties M tu (addComponentChangeHandler dc "update" h) changes
  = on_desired_properties M tu dc changes.
Proof.
  assert (Hsame : forall version,
             handleChangedComponentProperties M tu (addComponentChangeHandler dc "update" h)
               version (filterTwinMeta M changes)
             = handleChangedComponentProperties M tu dc version (filterTwinMeta M changes)).
  2:{ rewrite !on_desired_properties_unfold. cbv zeta. rewrite Hsame. reflexivity. }
  intros version.
  unfold handleChangedComponentProperties, addComponentChangeHandler, set_handler. simpl.
  apply for_of_ext. intros [k comp] _. apply for_of_ext. intros [k' d] Hd.
  pose proof (filterTwinMeta_not_update _ _ _ _ Hd) as Hk'.
  unfold handle_changed_component.
  destruct (String.eqb_spec k' k) as [->|Hne]; simpl; [|reflexivity].
  rewrite lookup_insert_ne by congruence.
  assert (Hacks : for_of (filterTwinMeta M d)
                    (acknowledge_property M tu
                       {| deviceId := deviceId dc;
                          modelId := modelId dc;
                          components := components dc;
                          propertyChangeHandlers :=
                            <["update" := h]> (propertyChangeHandlers dc) |}
                       comp k version)
                  = for_of (filterTwinMeta M d) (acknowledge_property M tu dc comp k version)).
  { apply for_of_ext. intros [P V] HP.
    pose proof (filterTwinMeta_not_update _ _ _ _ HP) as HPne.
    unfold acknowledge_property. simpl.
    rewrite lookup_insert_ne by congruence. reflexivity. }
  now rewrite Hacks.
Qed.

(** C9, as far as the code goes: [filterTwinMeta] and
    [normalizeComponentState] drop every entry whose key is exactly
    ["update"].  So a property of that name is in no result of
    [filterTwinMeta], in no component state that [getReportedState] or
    [getDesiredState] return, and it is never acknowledged.  Nor is a
    component of that name dispatched: no report is made under the
    component key ["update"], and the handler stored under the key
    ["update"] (the component-change handler of such a component, which is
    also what the dispatch would call for a property of that name) is never
    called: the run is the same with and without it.  (The delta handed to
    the component-change handler of another component is the unfiltered
    subtree and is not covered.) *)
Theorem update_key_dropped (M : Markers) :
  (forall delta, has_key (filterTwinMeta M delta) "update" = false)
  /\ (forall delta state,
        normalizeComponentState M delta = Ok state ->
        has_key (own_entries state) "update" = false)
  /\ (forall component twin state,
        getReportedState M component twin = Ok state
        \/ getDesiredState M component twin = Ok state ->
        has_key (own_entries state) "update" = false)
  /\ (forall tu dc changes key ack,
        ~ In (ReportComponentProperties key (JObj [("update", ack)]))
             (fst (on_desired_properties M tu dc changes)))
  /\ (forall tu dc changes patch,
        ~ In (ReportComponentProperties "update" patch)
             (fst (on_desired_properties M tu dc changes)))
  /\ (forall tu dc changes h,
        on_desired_properties M tu (addComponentChangeHandler dc "update" h) changes
        = on_desired_properties M tu dc changes).
Proof.
  split; [|split; [|split; [|split; [|split]]]].
  - intros delta. rewrite filterTwinMeta_entries.
    apply (has_key_filter_false (not_twin_meta M)), not_twin_meta_update.
  - apply normalizeComponentState_update.
  - intros component twin state.
    unfold getReportedState, getDesiredState, component_state.
    intros [H|H]; revert H;
      (destruct (obj_lookup _ _) as [value|];
       [destruct (js_truthy value);
        [apply normalizeComponentState_update | now intros [= <-]]
       |destruct (inherited _); now intros [= <-]]).
  - intros tu dc changes key ack H.
    apply on_desired_properties_reports in H
      as [comp [d [P [V [ack' [shown [_ [_ [HP [_ [_ [Heq _]]]]]]]]]]]].
    injection Heq as <- _. now apply filterTwinMeta_not_update in HP.
  - intros tu dc changes patch H.
    apply on_desired_properties_reports in H
      as [comp [d [P [V [ack' [shown [_ [Hd _]]]]]]]].
    now apply filterTwinMeta_not_update in Hd.
  - intros tu dc changes h. apply handler_under_update_ignored.
Qed.

(** ** Exactly one acknowledgement *)

Lemma filter_none {A : Type} (q : A -> bool) (l : list A) :
  (forall a, In a l -> q a = false) -> List.filter q l = [].
Proof.
  induction l as [|a l IH]; intros H; simpl; [reflexivity|].
  rewrite (H a (or_introl eq_refl)). apply IH. intros b Hb. apply H. now right.
Qed.

Lemma filter_flat_map_none {A B : Type} (q : B -> bool) (g : A -> list B) (l : list A) :
  (forall a, In a l -> List.filter q (g a) = []) -> List.filter q (flat_map g l) = [].
Proof.
  induction l as [|a l IH]; intros H; simpl; [reflexivity|].
  rewrite List.filter_app, (H a (or_introl eq_refl)). simpl.
  apply IH. intros b Hb. apply H. now right.
Qed.

(** In a keyed list without repeated keys, what a filter keeps of the
    concatenated iterations is what it keeps of the one iteration that can
    contribute. *)
Lemma filter_flat_map_key {V B : Type} (q : B -> bool) (g : string * V -> list B)
  (l : list (string * V)) (k : string) (v : V) :
  List.NoDup (List.map fst l) ->
  In (k, v) l ->
  (forall k' v', In (k', v') l -> k' <> k -> List.filter q (g (k', v')) = []) ->
  List.filter q (flat_map g l) = List.filter q (g (k, v)).
Proof.
  induction l as [|[k0 v0] l IH]; simpl; intros Hnd Hin Hother; [contradiction|].
  inversion Hnd as [|? ? Hk0 Hnd']; subst.
  rewrite List.filter_app. destruct Hin as [Heq|Hin].
  - injection Heq as -> ->.
    rewrite filter_flat_map_none; [now rewrite app_nil_r|].
    intros [k' v'] Hin'. apply Hother; [now right|].
    intros ->. apply Hk0. apply in_map_iff. now exists (k, v').
  - rewrite (Hother k0 v0); [|now left|].
    + simpl. apply IH; [assumption | assumption |].
      intros k' v' Hin' Hne. apply Hother; [now right | assumption].
    + intros ->. apply Hk0. apply in_map_iff. now exists (k, v).
Qed.

Lemma acknowledge_property_accepted
  (M : Markers) (tu : JValue -> option JValue) (dc : DeviceClient)
  (comp : PnPComponent) (C : string) (version : JValue) (P : string) (V : JValue)
  (shown : string) :
  (forall patch, tu patch = None) ->
  P ∈ writeableProperties comp ->
  js_to_string V = Some shown ->
  acknowledge_property M tu dc comp C version (P, V)
  = (match propertyChangeHandlers dc !! P with
     | Some h => [HandlerCalled (handler_ref h) V version]
     | None => []
     end
     ++ [ReportComponentProperties C (JObj [(P, acknowledgement dc P V version shown)]);
         TwinUpdate (component_patch M C (JObj [(P, acknowledgement dc P V version shown)]))],
     Ok tt).
Proof.
  intros Htu Hw Hshown. unfold acknowledge_property, acknowledgement.
  rewrite bool_decide_true by assumption.
  destruct (propertyChangeHandlers dc !! P) as [h|]; run_proc; rewrite ?Hshown; simpl;
    [destruct (handler_run h V version) as [r|reason]; simpl; rewrite ?Hshown; simpl|];
    rewrite !Htu; reflexivity.
Qed.

Lemma is_report_for_other_component (C P key : string) (patch : JValue) :
  key <> C -> is_report_for C P (ReportComponentProperties key patch) = false.
Proof.
  intros Hne. simpl. destruct patch as [| | | | | |[|[p x] [|? ?]]]; try reflexivity.
  destruct (String.eqb_spec key C); [contradiction | reflexivity].
Qed.

Lemma is_report_for_other_property (C P key p : string) (ack : JValue) :
  p <> P -> is_report_for C P (ReportComponentProperties key (JObj [(p, ack)])) = false.
Proof.
  intros Hne. simpl. destruct (String.eqb_spec p P); [contradiction|].
  apply andb_false_r.
Qed.

Lemma acknowledge_property_other
  (M : Markers) (tu : JValue -> option JValue) (dc : DeviceClient)
  (comp : PnPComponent) (C C' : string) (version : JValue) (P P' : string) (V : JValue) :
  C' <> C \/ P' <> P ->
  List.filter (is_report_for C P)
    (fst (acknowledge_property M tu dc comp C' version (P', V))) = [].
Proof.
  intros Hne. apply filter_none. intros e He.
  destruct e as [v|ref d v|key patch|patch]; try reflexivity.
  apply acknowledge_property_reports in He as [-> [_ [ack [shown [_ [-> _]]]]]].
  destruct Hne as [Hne|Hne].
  - now apply is_report_for_other_component.
  - now apply is_report_for_other_property.
Qed.

Lemma js_get_obj_set_eq (o : Props) (k : string) (v : JValue) :
  obj_lookup (obj_set o k v) k = Some v.
Proof.
  unfold obj_set. destruct (has_key o k) eqn:Hk.
  - apply has_key_true_iff in Hk.
    induction o as [|[k0 x] o IH]; simpl in *; [contradiction|].
    destruct (String.eqb_spec k0 k) as [->|Hne]; simpl.
    + now rewrite String.eqb_refl.
    + destruct (String.eqb_spec k0 k); [contradiction|].
      apply IH. destruct Hk; [contradiction | assumption].
  - apply has_key_false_iff in Hk. destruct (array_index k) as [i|].
    + induction o as [|[k0 x] o IH]; simpl in *.
      * now rewrite String.eqb_refl.
      * assert (Hne : k0 <> k) by (intros ->; apply Hk; now left).
        assert (Hk' : ~ In k (List.map fst o)) by (intros H; apply Hk; now right).
        destruct (array_index k0) as [j|]; [destruct (j <? i)%N|]; simpl;
          rewrite ?String.eqb_refl; try reflexivity.
        destruct (String.eqb_spec k0 k); [contradiction | now apply IH].
    + induction o as [|[k0 x] o IH]; simpl in *.
      * now rewrite String.eqb_refl.
      * destruct (String.eqb_spec k0 k) as [->|Hne]; [exfalso; apply Hk; now left|].
        apply IH. intros H. apply Hk. now right.
Qed.

Lemma obj_lookup_obj_set_ne (o : Props) (k k' : string) (v : JValue) :
  k <> k' -> obj_lookup (obj_set o k v) k' = obj_lookup o k'.
Proof.
  intros Hne. unfold obj_set. destruct (has_key o k).
  - induction o as [|[k0 x] o IH]; simpl; [reflexivity|].
    destruct (String.eqb_spec k0 k) as [->|Hk0]; simpl.
    + destruct (String.eqb_spec k k'); [contradiction | reflexivity].
    + destruct (String.eqb_spec k0 k'); [reflexivity | exact IH].
  - destruct (array_index k) as [i|].
    + induction o as [|[k0 x] o IH]; simpl.
      * destruct (String.eqb_spec k k'); [contradiction | reflexivity].
      * destruct (array_index k0) as [j|]; [destruct (j <? i)%N|]; simpl;
          try (destruct (String.eqb_spec k k'); [contradiction | reflexivity]).
        destruct (String.eqb_spec k0 k'); [reflexivity | exact IH].
    + induction o as [|[k0 x] o IH]; simpl.
      * destruct (String.eqb_spec k k'); [contradiction | reflexivity].
      * destruct (String.eqb_spec k0 k'); [reflexivity | exact IH].
Qed.

(** A spread leaves the keys alone that its source does not own. *)
Lemma obj_lookup_obj_assign_absent (o : Props) (src : JValue) (k : string) :
  has_key (own_entries src) k = false ->
  obj_lookup (obj_assign o src) k = obj_lookup o k.
Proof.
  unfold obj_assign. generalize (own_entries src) as pairs. intros pairs. revert o.
  induction pairs as [|[k0 x] pairs IH]; intros o H; simpl; [reflexivity|].
  unfold has_key in H. simpl in H. apply orb_false_iff in H as [Hk0 Hrest].
  rewrite IH by exact Hrest. apply obj_lookup_obj_set_ne.
  now apply String.eqb_neq.
Qed.

Lemma component_reports_elsewhere
  (M : Markers) (tu : JValue -> option JValue) (dc : DeviceClient)
  (comp : PnPComponent) (C P k : string) (handler : option Handler)
  (version : JValue) (changed : Props) :
  k <> C ->
  List.filter (is_report_for C P)
    (fst (for_of changed (handle_changed_component M tu dc comp k handler version))) = [].
Proof.
  intros Hne. apply filter_none. intros e He.
  destruct e as [v|ref d v|key patch|patch]; try reflexivity.
  apply for_of_event in He as [[k' d] [_ He]].
  apply handle_changed_component_reports in He as [_ [-> _]].
  now apply is_report_for_other_component.
Qed.

(** The acknowledgements of one component subtree, when the transport
    accepts every report and the values of its writable properties can be
    printed. *)
Lemma property_acknowledged_in_subtree
  (M : Markers) (tu : JValue -> option JValue) (dc : DeviceClient)
  (comp : PnPComponent) (C : string) (version d : JValue) (P : string) (V : JValue)
  (shown : string) :
  (forall patch, tu patch = None) ->
  well_formed d = true ->
  In (P, V) (own_entries d) ->
  not_twin_meta M P = true ->
  P ∈ writeableProperties comp ->
  (forall p v, In (p, v) (filterTwinMeta M d) -> p ∈ writeableProperties comp ->
     js_to_string v <> None) ->
  js_to_string V = Some shown ->
  let acks := for_of (filterTwinMeta M d) (acknowledge_property M tu dc comp C version) in
  snd acks = Ok tt
  /\ List.filter (is_report_for C P) (fst acks)
     = [ReportComponentProperties C (JObj [(P, acknowledgement dc P V version shown)])]
  /\ In (TwinUpdate (component_patch M C (JObj [(P, acknowledgement dc P V version shown)])))
        (fst acks)
  /\ (forall h, propertyChangeHandlers dc !! P = Some h ->
        In (HandlerCalled (handler_ref h) V version) (fst acks)).
Proof.
  intros Htu Hwf HP Hmeta Hw Hprint Hshown acks. subst acks.
  assert (Hin : In (P, V) (filterTwinMeta M d)).
  { rewrite filterTwinMeta_entries. apply filter_In. now split. }
  assert (Hall : forall x, In x (filterTwinMeta M d) ->
                   snd (acknowledge_property M tu dc comp C version x) = Ok tt).
  { intros [p v] Hx. apply acknowledge_property_completes; [assumption|].
    simpl. now apply Hprint. }
  rewrite for_of_completes by exact Hall.
  simpl. split; [reflexivity|]. split; [|split].
  - rewrite (filter_flat_map_key _ _ _ P V).
    + rewrite (acknowledge_property_accepted _ _ _ _ _ _ _ _ shown) by assumption. simpl.
      rewrite List.filter_app. simpl. rewrite !String.eqb_refl. simpl.
      now destruct (propertyChangeHandlers dc !! P).
    + apply keys_ordered_NoDup. now apply filterTwinMeta_ordered.
    + exact Hin.
    + intros P' V' _ Hne. apply acknowledge_property_other. now right.
  - apply (in_flat_map_intro _ _ (P, V)); [exact Hin|].
    rewrite (acknowledge_property_accepted _ _ _ _ _ _ _ _ shown) by assumption. simpl.
    apply in_or_app. right. right. now left.
  - intros h Hh. apply (in_flat_map_intro _ _ (P, V)); [exact Hin|].
    rewrite (acknowledge_property_accepted _ _ _ _ _ _ _ _ shown) by assumption. simpl.
    rewrite Hh. now left.
Qed.

(** The run of a notification that changes the writable property [P] of the
    registered component [C], when nothing cuts the run short: it is
    processed to its end, the handler stored under the key [P] (if any) is
    called with the value and the version, and exactly one report call is
    made for [P], with the envelope [acknowledgement] describes. *)
Lemma notification_acknowledged_once
  (M : Markers) (tu : JValue -> option JValue) (dc : DeviceClient) (changes : JValue)
  (C : string) (comp : PnPComponent) (d : JValue) (P : string) (V : JValue)
  (shown : string) :
  List.NoDup (List.map fst (components dc)) ->
  In (C, comp) (components dc) ->
  P ∈ writeableProperties comp ->
  well_formed changes = true ->
  well_formed d = true ->
  In (C, d) (own_entries changes) ->
  In (P, V) (own_entries d) ->
  not_twin_meta M C = true ->
  not_twin_meta M P = true ->
  (forall patch, tu patch = None) ->
  (forall k c h d', In (k, c) (components dc) -> propertyChangeHandlers dc !! k = Some h ->
     In (k, d') (filterTwinMeta M changes) ->
     exists r, handler_run h d' (js_get changes (TWIN_VERSION_KEY M)) = Resolves r) ->
  values_printable M dc changes ->
  js_to_string V = Some shown ->
  let version := js_get changes (TWIN_VERSION_KEY M) in
  let run := on_desired_properties M tu dc changes in
  let ack := acknowledgement dc P V version shown in
  snd run = Ok tt
  /\ List.filter (is_report_for C P) (fst run) = [ReportComponentProperties C (JObj [(P, ack)])]
  /\ In (TwinUpdate (component_patch M C (JObj [(P, ack)]))) (fst run)
  /\ (forall h, propertyChangeHandlers dc !! P = Some h ->
        In (HandlerCalled (handler_ref h) V version) (fst run)).
Proof.
  intros Hnd Hcomp Hw Hwfc Hwfd HC HP HmC HmP Htu Hh Hprint Hshown version run ack.
  assert (HinC : In (C, d) (filterTwinMeta M changes)).
  { rewrite filterTwinMeta_entries. apply filter_In. now split. }
  assert (Hinner : forall k c (changed : string * JValue),
             In (k, c) (components dc) -> In changed (filterTwinMeta M changes) ->
             snd (handle_changed_component M tu dc c k (propertyChangeHandlers dc !! k)
                    version changed) = Ok tt).
  { intros k c [k' d'] Hk Hd'. apply handle_changed_component_completes; [assumption| |].
    - simpl. intros h Hlook ->. eapply Hh; eassumption.
    - simpl. intros p v -> Hp Hpw. eapply Hprint; eassumption. }
  destruct (property_acknowledged_in_subtree M tu dc comp C version d P V shown
              Htu Hwfd HP HmP Hw) as [_ [Hacks [Hupd Hcalled]]];
    [intros p v Hp Hpw; eapply Hprint; eassumption | exact Hshown |].
  assert (Hsub : forall q : Event -> bool,
             (forall ref x v, q (HandlerCalled ref x v) = false) ->
             List.filter q
               (fst (handle_changed_component M tu dc comp C (propertyChangeHandlers dc !! C)
                       version (C, d)))
             = List.filter q
                 (fst (for_of (filterTwinMeta M d)
                         (acknowledge_property M tu dc comp C version)))).
  { intros q Hq. rewrite handle_changed_component_match. cbv zeta.
    destruct (propertyChangeHandlers dc !! C) as [hc|] eqn:Hhc; [|reflexivity].
    destruct (Hh C comp hc d Hcomp Hhc HinC) as [r Hr].
    fold version in Hr. rewrite Hr. simpl. now rewrite Hq. }
  assert (Hincl : forall e,
             In e (fst (for_of (filterTwinMeta M d)
                          (acknowledge_property M tu dc comp C version))) ->
             In e (fst (handle_changed_component M tu dc comp C
                          (propertyChangeHandlers dc !! C) version (C, d)))).
  { intros e He. rewrite handle_changed_component_match. cbv zeta.
    destruct (propertyChangeHandlers dc !! C) as [hc|] eqn:Hhc; [|exact He].
    destruct (Hh C comp hc d Hcomp Hhc HinC) as [r Hr].
    fold version in Hr. rewrite Hr. simpl. now right. }
  subst run. rewrite on_desired_properties_unfold. cbv zeta. fold version. simpl.
  destruct (components dc) as [|entry others] eqn:E; [contradiction|]. rewrite <- E in *.
  unfold handleChangedComponentProperties.
  rewrite for_of_completes.
  2:{ intros [k c] Hk. rewrite for_of_completes; [reflexivity|].
      intros changed Hchanged. now apply Hinner. }
  assert (Hreach : forall e,
             In e (fst (for_of (filterTwinMeta M d)
                          (acknowledge_property M tu dc comp C version))) ->
             In e (flat_map
                     (fun x : string * PnPComponent =>
                        fst (let '(componentKey, component) := x in
                             for_of (filterTwinMeta M changes)
                               (handle_changed_component M tu dc component componentKey
                                  (propertyChangeHandlers dc !! componentKey) version)))
                     (components dc))).
  { intros e He. apply (in_flat_map_intro _ _ (C, comp)); [exact Hcomp|]. simpl.
    rewrite for_of_completes by (intros; now apply Hinner). simpl.
    apply (in_flat_map_intro _ _ (C, d)); [exact HinC|]. now apply Hincl. }
  simpl. split; [reflexivity|]. split; [|split].
  - rewrite (filter_flat_map_key _ _ _ C comp Hnd Hcomp).
    2:{ intros k' c' _ Hne. simpl. now apply component_reports_elsewhere. }
    simpl. rewrite for_of_completes by (intros; now apply Hinner). simpl.
    rewrite (filter_flat_map_key _ _ _ C d).
    + rewrite Hsub by reflexivity. exact Hacks.
    + apply keys_ordered_NoDup. now apply filterTwinMeta_ordered.
    + exact HinC.
    + intros k' d' _ Hne. now rewrite handle_changed_component_other.
  - right. now apply Hreach.
  - intros h Hlook. right. apply Hreach. now apply Hcalled.
Qed.

(** C1, as the code has it.  Let [C] be a registered component whose key
    passes the metadata filter and [P] one of its writable properties that
    passes the filter too (so [P] is not the version key, the marker key,
    ["update"] or a key starting with a dollar sign), and let the value [V]
    of [P], like the other writable values of the notification, be one a
    template literal can print.  When the transport accepts the report
    calls and no component-change handler rejects, a notification whose
    delta holds [P] under [C] is processed to its end and makes exactly one
    report call for [P]; the patch sent to the twin is the envelope under
    [P] merged with the component marker under [C].  Without a handler
    stored under the key [P], or when that handler resolves to nothing that
    could be merged, the envelope is
    [{value: V, ac: 200, ad: "Successfully updated (P) to (V)", av: version}];
    a resolved result is merged over these fields; a rejection gives the
    failure envelope.  [av] is the version of the notification unless a
    resolved result overrides it. *)
Theorem writable_property_acknowledged_once
  (M : Markers) (tu : JValue -> option JValue) (dc : DeviceClient) (changes : JValue)
  (C : string) (comp : PnPComponent) (d : JValue) (P : string) (V : JValue)
  (shown : string) :
  List.NoDup (List.map fst (components dc)) ->
  In (C, comp) (components dc) ->
  P ∈ writeableProperties comp ->
  well_formed changes = true ->
  well_formed d = true ->
  In (C, d) (own_entries changes) ->
  In (P, V) (own_entries d) ->
  not_twin_meta M C = true ->
  not_twin_meta M P = true ->
  (forall patch, tu patch = None) ->
  (forall k c h d', In (k, c) (components dc) -> propertyChangeHandlers dc !! k = Some h ->
     In (k, d') (filterTwinMeta M changes) ->
     exists r, handler_run h d' (js_get changes (TWIN_VERSION_KEY M)) = Resolves r) ->
  values_printable M dc changes ->
  js_to_string V = Some shown ->
  let version := js_get changes (TWIN_VERSION_KEY M) in
  let run := on_desired_properties M tu dc changes in
  let success := [("value", V);
                  ("ac", JNum 200);
                  ("ad", JStr ("Successfully updated (" +:+ P +:+ ") to (" +:+ shown +:+ ")"));
                  ("av", version)] in
  exists ack,
    snd run = Ok tt
    /\ List.filter (is_report_for C P) (fst run) = [ReportComponentProperties C (JObj [(P, ack)])]
    /\ In (TwinUpdate
             (JObj [(C, JObj (obj_set (obj_assign [] (TWIN_COMPONENT_MARKER M)) P ack))]))
          (fst run)
    /\ (propertyChangeHandlers dc !! P = None -> ack = JObj success)
    /\ (forall h r,
          propertyChangeHandlers dc !! P = Some h ->
          handler_run h V version = Resolves r ->
          ack = JObj (obj_assign success r)
          /\ (own_entries r = [] -> ack = JObj success)
          /\ (has_key (own_entries r) "av" = false -> js_get ack "av" = version))
    /\ (forall h reason,
          propertyChangeHandlers dc !! P = Some h ->
          handler_run h V version = Rejects reason ->
          ack = JObj [("value", V);
                      ("ac", JNum 400);
                      ("ad", JStr ("Updating (" +:+ P +:+ ") state to ("
                                   +:+ shown +:+ ") failed"));
                      ("av", version)]).
Proof.
  intros Hnd Hcomp Hw Hwfc Hwfd HC HP HmC HmP Htu Hh Hprint Hshown version run success.
  exists (acknowledgement dc P V version shown).
  destruct (notification_acknowledged_once M tu dc changes C comp d P V shown
              Hnd Hcomp Hw Hwfc Hwfd HC HP HmC HmP Htu Hh Hprint Hshown)
    as [Hok [Hone [Hupd _]]].
  split; [exact Hok|]. split; [exact Hone|]. split; [exact Hupd|].
  unfold acknowledgement, success_ack, failure_ack. split; [|split].
  - intros Hnone. now rewrite Hnone.
  - intros h r Hlook Hrun. fold version. rewrite Hlook, Hrun. split; [reflexivity|]. split.
    + intros Hr. unfold obj_assign. now rewrite Hr.
    + intros Hav. unfold js_get. simpl.
      rewrite obj_lookup_obj_assign_absent by exact Hav. reflexivity.
  - intros h reason Hlook Hrun. fold version. now rewrite Hlook, Hrun.
Qed.


(** ** The initial connect *)

Lemma attempts_length (retries : Z) : length (attempts retries) = Z.to_nat retries.
Proof. unfold attempts. now rewrite List.length_map, List.length_seq. Qed.

(** C4: [retry] performs no fresh attempt.  For every promise [p] and
    retry count [n], [retry p n] returns [p] itself after attaching [n]
    rejection handlers, numbered 1 to [n], each of which returns the same
    [p]; so every promise those handlers feed settles as [p] does.
    [DeviceClient.create] therefore executes [connect] once, whatever later
    executions would do, and settles exactly as that one execution. *)
Theorem retry_reuses_the_attempt :
  (forall (p : Promise) (n : Z),
     returned (retry p n) = p
     /\ length (attached (retry p n)) = Z.to_nat n
     /\ (forall error,
           List.map (fun handler => logged_attempt (fst (handler error))) (attached (retry p n))
           = attempts n)
     /\ (forall handler error, In handler (attached (retry p n)) -> snd (handler error) = p)
     /\ (forall q logs, In (q, logs) (caught (retry p n)) ->
           promise_settles q = promise_settles p))
  /\ (forall (attempt : nat -> Stage -> option JValue) (model : option string)
             (connectionRetries : option Z),
        executions (fst (create attempt model connectionRetries)) = 1
        /\ promise_settles (returned (snd (create attempt model connectionRetries)))
           = Some (settled_of (snd (connect (attempt 0) model initial_lifecycle)))
        /\ length (attached (snd (create attempt model connectionRetries)))
           = Z.to_nat (match connectionRetries with
                       | Some n => n
                       | None => DEFAULT_CONNECTION_RETRIES
                       end)).
Proof.
  split.
  - intros p n. split; [reflexivity|]. split; [|split; [|split]].
    + simpl. now rewrite List.length_map, attempts_length.
    + intros error. simpl. rewrite List.map_map. simpl. apply List.map_id.
    + intros handler error Hin. simpl in Hin.
      apply in_map_iff in Hin as [k [<- _]]. reflexivity.
    + intros q logs Hin. unfold caught in Hin.
      apply in_map_iff in Hin as [handler [Heq Hin]]. simpl in Hin.
      apply in_map_iff in Hin as [k [<- _]].
      unfold promise_catch, retryHandler in Heq. simpl in Heq.
      destruct (promise_settles p) as [[r|reason]|] eqn:Hp;
        injection Heq as <- _; simpl; congruence.
  - intros attempt model connectionRetries. unfold create, call_connect. simpl.
    destruct (connect (attempt 0) model initial_lifecycle) as [st r]. simpl.
    split; [reflexivity|]. split; [reflexivity|].
    now rewrite List.length_map, attempts_length.
Qed.

(** With the default of three retries, a first attempt that fails at
    [open] makes [create] fail although every later attempt would succeed;
    the three handlers log attempts 1, 2 and 3 of the same failure. *)
Example create_does_not_retry :
  let attempt := fun k stage =>
    match k, stage with
    | 0, OpenClient => Some (JStr "unreachable")
    | _, _ => None
    end in
  let created := create attempt (Some "dtmi:model;1") None in
  executions (fst created) = 1
  /\ promise_settles (returned (snd created)) = Some (Rejects (JStr "unreachable"))
  /\ List.map snd (caught (snd created))
     = [[{| logged_attempt := 1; logged_total := 3 |}];
        [{| logged_attempt := 2; logged_total := 3 |}];
        [{| logged_attempt := 3; logged_total := 3 |}]].
Proof. repeat split; reflexivity. Qed.

(** ** Reconnecting *)

Lemma reconnect_models_length (subs : list Subscriber) :
  length (reconnect_models subs) = length (List.filter is_reconnect subs).
Proof.
  induction subs as [|[model|ref] subs IH]; simpl; [reflexivity | now rewrite IH | exact IH].
Qed.

Lemma fold_notify (subs : list Subscriber) (st : Lifecycle) :
  let st' := fold_left notify subs st in
  client st' = client st
  /\ disconnected_last st' = disconnected_last st
  /\ disconnected_subscribers st' = disconnected_subscribers st
  /\ started_connects st' = started_connects st ++ reconnect_models subs.
Proof.
  revert st. induction subs as [|s subs IH]; intros st; simpl.
  - now rewrite app_nil_r.
  - destruct (IH (notify st s)) as [Hc [Hl [Hs Hst]]].
    rewrite Hc, Hl, Hs, Hst. destruct s; simpl; rewrite <- ?app_assoc; auto.
Qed.

(** Emitting on [#disconnected$] starts one [connect] per reconnecting
    subscriber and keeps every subscription. *)
Lemma disconnected_next_spec (value : JValue) (st : Lifecycle) :
  client (disconnected_next value st) = client st
  /\ disconnected_last (disconnected_next value st) = Some value
  /\ disconnected_subscribers (disconnected_next value st) = disconnected_subscribers st
  /\ started_connects (disconnected_next value st)
     = started_connects st ++ reconnect_models (disconnected_subscribers st).
Proof.
  unfold disconnected_next.
  match goal with |- context [fold_left notify ?subs ?s0] =>
    destruct (fold_notify subs s0) as [Hc [Hl [Hs Hst]]] end.
  rewrite Hc, Hl, Hs, Hst. auto.
Qed.

Lemma disconnected_subscribe_spec (s : Subscriber) (st : Lifecycle) :
  client (disconnected_subscribe s st) = client st
  /\ disconnected_last (disconnected_subscribe s st) = disconnected_last st
  /\ disconnected_subscribers (disconnected_subscribe s st) = disconnected_subscribers st ++ [s]
  /\ started_connects (disconnected_subscribe s st)
     = started_connects st
       ++ match disconnected_last st with
          | Some _ => reconnect_models [s]
          | None => []
          end.
Proof.
  unfold disconnected_subscribe.
  destruct (disconnected_last st) eqn:E; destruct s; simpl;
    rewrite ?E, ?app_nil_r; auto.
Qed.

Ltac destruct_stages :=
  match goal with
  | |- context [await_stages ?r ?l] => destruct (await_stages r l)
  end.

(** An execution of [connect] that runs to completion stores the client and
    subscribes one more reconnecting callback; if a disconnect has been
    emitted before, the callback is called at once and starts a further
    [connect]. *)
Lemma connect_completed (rejects : Stage -> option JValue) (model : option string)
  (st st' : Lifecycle) :
  connect rejects model st = (st', Ok tt) ->
  client st' = true
  /\ disconnected_last st' = disconnected_last st
  /\ disconnected_subscribers st' = disconnected_subscribers st ++ [Reconnect model]
  /\ started_connects st'
     = started_connects st
       ++ match disconnected_last st with
          | Some _ => [model]
          | None => []
          end.
Proof.
  unfold connect. destruct (client st) eqn:Hc; simpl negb; cbv iota.
  - destruct_stages; [|discriminate]. intros [= <-].
    destruct (disconnected_subscribe_spec (Reconnect model) st) as [H1 [H2 [H3 H4]]].
    rewrite H1, H2, H3, H4. simpl. rewrite ?app_nil_r. destruct (disconnected_last st); auto.
  - destruct_stages; [|discriminate].
    destruct_stages; [|discriminate]. intros [= <-].
    destruct (disconnected_subscribe_spec (Reconnect model) (set_client st))
      as [H1 [H2 [H3 H4]]].
    rewrite H1, H2, H3, H4. simpl. rewrite ?app_nil_r. destruct (disconnected_last st); auto.
Qed.

(** An execution of [connect] that rejects leaves the subscriptions alone. *)
Lemma connect_rejected (rejects : Stage -> option JValue) (model : option string)
  (st st' : Lifecycle) (e : JsError) :
  connect rejects model st = (st', Throw e) ->
  disconnected_subscribers st' = disconnected_subscribers st
  /\ disconnected_last st' = disconnected_last st
  /\ started_connects st' = started_connects st
  /\ (client st = true -> client st' = true).
Proof.
  unfold connect. destruct (client st) eqn:Hc; simpl negb; cbv iota.
  - destruct_stages; [discriminate|]. intros [= <- _]. auto.
  - destruct_stages.
    + destruct_stages; [discriminate|]. intros [= <- _]. simpl. auto.
    + intros [= <- _]. intuition congruence.
Qed.

(** No step removes a subscription. *)
Lemma step_keeps_subscribers (st : Lifecycle) (op : Op) :
  exists added,
    disconnected_subscribers (fst (step st op)) = disconnected_subscribers st ++ added.
Proof.
  destruct op as [model rejects|rejects|error| |ref]; simpl.
  - destruct (connect rejects model st) as [st' [[]|e]] eqn:E; simpl.
    + apply connect_completed in E as [_ [_ [E _]]]. eauto.
    + apply connect_rejected in E as [E _]. exists []. now rewrite app_nil_r.
  - destruct (started_connects st) as [|model rest]; simpl.
    + exists []. now rewrite app_nil_r.
    + destruct (connect rejects model (drop_started st)) as [st' [[]|e]] eqn:E; simpl.
      * apply connect_completed in E as [_ [_ [E _]]]. eauto.
      * apply connect_rejected in E as [E _]. exists []. now rewrite app_nil_r.
  - unfold client_disconnected. exists []. rewrite app_nil_r.
    destruct (client st); [|reflexivity].
    now destruct (disconnected_next_spec error st) as [_ [_ [E _]]].
  - unfold disconnect. exists []. rewrite app_nil_r.
    destruct (client st); simpl; [|reflexivity].
    now destruct (disconnected_next_spec JUndefined st) as [_ [_ [E _]]].
  - destruct (disconnected_subscribe_spec (Observer ref) st) as [_ [_ [E _]]]. eauto.
Qed.

Lemma reconnecting_app (st : Lifecycle) (subs added : list Subscriber) :
  disconnected_subscribers st = subs ++ added ->
  reconnecting st = List.filter is_reconnect subs ++ List.filter is_reconnect added.
Proof. intros H. unfold reconnecting. now rewrite H, List.filter_app. Qed.

(** A step adds a reconnecting subscription exactly when it is an execution
    of [connect] that ran to completion; and a client that is not stored
    has none. *)
Lemma step_reconnecting (st : Lifecycle) (op : Op) :
  length (reconnecting (fst (step st op)))
  = length (reconnecting st) + (if snd (step st op) then 1 else 0)
  /\ ((client st = false -> reconnecting st = []) ->
      client (fst (step st op)) = false -> reconnecting (fst (step st op)) = []).
Proof.
  destruct op as [model rejects|rejects|error| |ref]; simpl.
  - destruct (connect rejects model st) as [st' [[]|e]] eqn:E; simpl.
    + apply connect_completed in E as [Hc [_ [E _]]].
      rewrite (reconnecting_app _ _ _ E). rewrite List.length_app. simpl.
      split; [reflexivity | congruence].
    + apply connect_rejected in E as [E [_ [_ Hc]]].
      unfold reconnecting. rewrite E. split; [lia|].
      intros Hinv Hc'. apply Hinv. destruct (client st); [|reflexivity].
      rewrite Hc in Hc' by reflexivity. discriminate.
  - destruct (started_connects st) as [|model rest]; simpl; [split; [lia | auto]|].
    destruct (connect rejects model (drop_started st)) as [st' [[]|e]] eqn:E; simpl.
    + apply connect_completed in E as [Hc [_ [E _]]].
      rewrite (reconnecting_app _ _ _ E). rewrite List.length_app. simpl.
      split; [reflexivity | congruence].
    + apply connect_rejected in E as [E [_ [_ Hc]]]. simpl in *.
      unfold reconnecting. rewrite E. simpl. split; [lia|].
      intros Hinv Hc'. apply Hinv. destruct (client st); [|reflexivity].
      rewrite Hc in Hc' by reflexivity. discriminate.
  - unfold client_disconnected. destruct (client st) eqn:Hc; [|split; [lia | auto]].
    destruct (disconnected_next_spec error st) as [Hc' [_ [E _]]].
    unfold reconnecting. rewrite E. split; [lia | congruence].
  - unfold disconnect. destruct (client st) eqn:Hc; simpl; [|split; [lia | auto]].
    destruct (disconnected_next_spec JUndefined st) as [Hc' [_ [E _]]].
    unfold reconnecting. rewrite E. split; [lia | congruence].
  - destruct (disconnected_subscribe_spec (Observer ref) st) as [Hc [_ [E _]]].
    rewrite (reconnecting_app _ _ _ E). simpl. rewrite app_nil_r.
    split; [unfold reconnecting; lia|]. rewrite Hc. auto.
Qed.

Lemma run_reconnecting (ops : list Op) (st : Lifecycle) :
  (client st = false -> reconnecting st = []) ->
  length (reconnecting (fst (run st ops))) = length (reconnecting st) + snd (run st ops)
  /\ (client (fst (run st ops)) = false -> reconnecting (fst (run st ops)) = []).
Proof.
  revert st. induction ops as [|op ops IH]; intros st Hinv; simpl.
  - split; [lia | exact Hinv].
  - destruct (step_reconnecting st op) as [Hlen Hinv'].
    destruct (step st op) as [st' completed]. simpl in *.
    destruct (IH st' (Hinv' Hinv)) as [Hlen' Hinv''].
    destruct (run st' ops) as [st'' n]. simpl in *.
    split; [|exact Hinv'']. rewrite Hlen', Hlen. lia.
Qed.

(** C8, for the executions of [connect] that run to completion.  After any
    history of a device client in which [n] executions of [connect]
    (explicit calls and automatic reconnects alike) ran to completion, [n]
    reconnecting callbacks are subscribed on [#disconnected$]; a disconnect
    event then starts [n] executions of [connect]; no step removes a
    subscription; and a further execution that runs to completion
    subscribes one more callback, which is called at once, starting yet
    another [connect], when a disconnect has been emitted before. *)
Theorem connect_subscriptions_accumulate (ops : list Op) :
  let st := fst (run initial_lifecycle ops) in
  let n := snd (run initial_lifecycle ops) in
  length (reconnecting st) = n
  /\ (forall error,
        started_connects (client_disconnected error st)
        = started_connects st ++ reconnect_models (disconnected_subscribers st)
        /\ length (reconnect_models (disconnected_subscribers st)) = n)
  /\ (forall op, exists added,
        disconnected_subscribers (fst (step st op)) = disconnected_subscribers st ++ added)
  /\ (forall rejects model st',
        connect rejects model st = (st', Ok tt) ->
        disconnected_subscribers st' = disconnected_subscribers st ++ [Reconnect model]
        /\ (forall value, disconnected_last st = Some value ->
              started_connects st' = started_connects st ++ [model])).
Proof.
  intros st n.
  destruct (run_reconnecting ops initial_lifecycle (fun _ => eq_refl)) as [Hlen Hinv].
  fold st in Hlen, Hinv. fold n in Hlen. simpl in Hlen.
  split; [exact Hlen|]. split; [|split].
  - intros error. rewrite reconnect_models_length. fold (reconnecting st).
    split; [|exact Hlen]. unfold client_disconnected.
    destruct (client st) eqn:Hc.
    + now destruct (disconnected_next_spec error st) as [_ [_ [_ E]]].
    + assert (Hnil : reconnect_models (disconnected_subscribers st) = []).
      { apply length_zero_iff_nil. rewrite reconnect_models_length.
        fold (reconnecting st). now rewrite (Hinv eq_refl). }
      now rewrite Hnil, app_nil_r.
  - apply step_keeps_subscribers.
  - intros rejects model st' Hconnect.
    apply connect_completed in Hconnect as [_ [_ [Hsubs Hstarted]]].
    split; [exact Hsubs|]. intros value Hlast. now rewrite Hlast in Hstarted.
Qed.

(** * The scenarios *)

Import Scenario.

(** The scenario of the specification: version 5, [temp] set to 21 under
    [compA], no handler.  The engine publishes the version and makes one
    report call, merged with the component marker. *)
Example scenario_default_acknowledgement :
  on_desired_properties pnp_markers accepting deviceA notification
  = ([DesiredVersion (JNum 5);
      ReportComponentProperties "compA"
        (JObj [("temp", JObj [("value", JNum 21); ("ac", JNum 200);
                              ("ad", JStr "Successfully updated (temp) to (21)");
                              ("av", JNum 5)])]);
      TwinUpdate
        (JObj [("compA",
                JObj [("__t", JStr "c");
                      ("temp", JObj [("value", JNum 21); ("ac", JNum 200);
                                     ("ad", JStr "Successfully updated (temp) to (21)");
                                     ("av", JNum 5)])])])],
     Ok tt).
Proof. reflexivity. Qed.

(** C1 does not hold as stated: [compU] lists ["update"] as writable and
    the notification changes ["update"] under [compU], yet no report call
    is made at all.  The metadata filter drops the key before the writable
    properties are looked at. *)
Lemma writable_update_not_acknowledged :
  In ("compU", compU) (components deviceU)
  /\ "update" ∈ writeableProperties compU
  /\ In ("compU", subtreeU) (own_entries notificationU)
  /\ In ("update", JNum 1) (own_entries subtreeU)
  /\ on_desired_properties pnp_markers accepting deviceU notificationU
     = ([DesiredVersion (JNum 5); HandlerCalled 3 subtreeU (JNum 5)], Ok tt).
Proof.
  split; [now left|]. split; [constructor|]. split; [right; now left|].
  split; [right; now left | reflexivity].
Qed.

(** The values the scenarios give to [temp] and [mode] can be printed. *)
Lemma notification_printable (dc : DeviceClient) :
  values_printable pnp_markers dc notification.
Proof.
  intros k c d p v _ Hd Hp _.
  destruct Hd as [[= <- <-]|[]].
  destruct Hp as [[= <- <-]|[[= <- <-]|[]]]; vm_compute; discriminate.
Qed.

(** C1 at the scenario of the specification: exactly one report call for
    [temp] under [compA], with the default success envelope. *)
Lemma writable_property_acknowledged_once_witness :
  exists ack,
    snd (on_desired_properties pnp_markers accepting deviceA notification) = Ok tt
    /\ List.filter (is_report_for "compA" "temp")
         (fst (on_desired_properties pnp_markers accepting deviceA notification))
       = [ReportComponentProperties "compA" (JObj [("temp", ack)])]
    /\ ack = JObj [("value", JNum 21); ("ac", JNum 200);
                   ("ad", JStr "Successfully updated (temp) to (21)"); ("av", JNum 5)].
Proof.
  destruct (writable_property_acknowledged_once pnp_markers accepting deviceA notification
              "compA" compA subtreeA "temp" (JNum 21) "21")
    as [ack [Hok [Hone [_ [Hnone _]]]]].
  - repeat constructor. simpl. tauto.
  - now left.
  - constructor.
  - reflexivity.
  - reflexivity.
  - right. now left.
  - right. now left.
  - reflexivity.
  - reflexivity.
  - reflexivity.
  - intros k c h d' _ Hlook. simpl in Hlook. rewrite lookup_empty in Hlook. discriminate.
  - apply notification_printable.
  - vm_compute. reflexivity.
  - exists ack. split; [exact Hok|]. split; [exact Hone|]. now apply Hnone.
Defined.

(** A value that cannot be printed is not acknowledged at all: the template
    literal of the [try] block throws, the one of the [catch] block throws
    again, and the listener rejects. *)
Example unprintable_value_not_acknowledged :
  on_desired_properties pnp_markers accepting deviceA notificationOpaque
  = ([DesiredVersion (JNum 5)], Throw (TypeError cannot_convert)).
Proof. vm_compute. reflexivity. Qed.

(** C2, the failing input: the handler [overriding] is registered for
    [temp] of [compA] with [addComponentPropertyChangeHandler] and would
    change [ac] to 202.  The notification changes [temp] under [compA]; the
    handler is not called (the trace holds no [HandlerCalled]) and the
    envelope is reported with [ac] 200. *)
Theorem registered_property_handler_ignored :
  on_desired_properties pnp_markers accepting
    (addComponentPropertyChangeHandler deviceA "compA" "temp" overriding) notification
  = ([DesiredVersion (JNum 5);
      ReportComponentProperties "compA"
        (JObj [("temp", JObj [("value", JNum 21); ("ac", JNum 200);
                              ("ad", JStr "Successfully updated (temp) to (21)");
                              ("av", JNum 5)])]);
      TwinUpdate
        (JObj [("compA",
                JObj [("__t", JStr "c");
                      ("temp", JObj [("value", JNum 21); ("ac", JNum 200);
                                     ("ad", JStr "Successfully updated (temp) to (21)");
                                     ("av", JNum 5)])])])],
     Ok tt).
Proof. vm_compute. reflexivity. Qed.

(** The merge itself works once a handler is found: stored under the bare
    key ["temp"] (where [addComponentChangeHandler] puts the handler of a
    component named [temp]), [overriding] is called with the value and the
    version and its result is merged into the envelope. *)
Example handler_under_property_key_merged :
  on_desired_properties pnp_markers accepting
    (addComponentChangeHandler deviceA "temp" overriding) notification
  = ([DesiredVersion (JNum 5);
      HandlerCalled 1 (JNum 21) (JNum 5);
      ReportComponentProperties "compA"
        (JObj [("temp", JObj [("value", JNum 21); ("ac", JNum 202);
                              ("ad", JStr "Successfully updated (temp) to (21)");
                              ("av", JNum 5)])]);
      TwinUpdate
        (JObj [("compA",
                JObj [("__t", JStr "c");
                      ("temp", JObj [("value", JNum 21); ("ac", JNum 202);
                                     ("ad", JStr "Successfully updated (temp) to (21)");
                                     ("av", JNum 5)])])])],
     Ok tt).
Proof. vm_compute. reflexivity. Qed.



(** C5 at a concrete input: [mode] is not writable in [compA]; no report
    call for it is made, and the component-change handler of [compA] is
    called with a delta that holds [mode]. *)
Lemma non_writable_property_not_acknowledged_witness :
  (forall ack,
     ~ In (ReportComponentProperties "compA" (JObj [("mode", ack)]))
          (fst (on_desired_properties pnp_markers accepting deviceA_observed notification)))
  /\ (exists delta,
        In (HandlerCalled 3 delta (JNum 5))
           (fst (on_desired_properties pnp_markers accepting deviceA_observed notification))
        /\ In ("mode", JStr "eco") (own_entries delta)).
Proof.
  destruct (non_writable_property_not_acknowledged pnp_markers accepting deviceA_observed
              notification "compA" "mode") as [Hnone Hseen].
  - intros comp [Heq|[]]. injection Heq as <-. simpl.
    intros Hin. apply list_elem_of_In in Hin. simpl in Hin.
    destruct Hin as [Hin|[]]. discriminate.
  - split; [exact Hnone|].
    apply (Hseen compA observing subtreeA (JStr "eco")).
    + now left.
    + reflexivity.
    + now left.
    + right. right. now left.
    + reflexivity.
Defined.

(** C6 does not hold as stated: [compA] is registered, a second
    component with the same key is registered, the call succeeds and the
    registry now holds the second component. *)
Lemma duplicate_registration_succeeds :
  map_get (components deviceA) "compA" = Some compA
  /\ exists dc',
       registerComponent deviceA (fun _ => compA_bis) = Ok (compA_bis, dc')
       /\ map_get (components dc') "compA" = Some compA_bis
       /\ compA_bis <> compA.
Proof.
  split; [reflexivity|]. eexists. split; [reflexivity|]. split; [reflexivity|].
  discriminate.
Qed.

(** C6 as amended, at the same input. *)
Lemma registerComponent_replaces_witness :
  exists dc',
    registerComponent deviceA (fun _ => compA_bis) = Ok (compA_bis, dc')
    /\ map_get (components dc') "compA" = Some compA_bis
    /\ List.map fst (components dc') = ["compA"].
Proof.
  destruct (registerComponent_replaces deviceA (fun _ => compA_bis) compA)
    as [dc' [Hreg [Hget [Hkeys _]]]].
  - reflexivity.
  - reflexivity.
  - exists dc'. split; [exact Hreg|]. split; [exact Hget | exact Hkeys].
Defined.

(** C7 at a concrete tree. *)
Lemma filterTwinMeta_idempotent_witness :
  filterTwinMeta pnp_markers (Object_fromEntries (filterTwinMeta pnp_markers notification))
  = [("compA", subtreeA)].
Proof.
  rewrite (filterTwinMeta_idempotent pnp_markers notification); reflexivity.
Defined.

(** C8 does not hold as stated: a call of [connect] whose [open] rejects
    subscribes nothing.  This holds for the first call, and for an
    automatic reconnect as well: after one completed [connect], a
    disconnect event and a reconnect that fails at [open], one subscription
    is in place, not two. *)
Lemma rejected_connect_subscribes_nothing :
  connect unreachable (Some "dtmi:model;1") initial_lifecycle
  = ({| client := true;
        disconnected_last := None;
        disconnected_subscribers := [];
        started_connects := [];
        notified := [] |},
     Throw (TransportError (JStr "unreachable")))
  /\ snd (run initial_lifecycle
            [CallConnect (Some "dtmi:model;1") reachable;
             ClientDisconnected (JStr "lost");
             RunStartedConnect unreachable]) = 1
  /\ disconnected_subscribers
       (fst (run initial_lifecycle
               [CallConnect (Some "dtmi:model;1") reachable;
                ClientDisconnected (JStr "lost");
                RunStartedConnect unreachable]))
     = [Reconnect (Some "dtmi:model;1")].
Proof. repeat split; reflexivity. Qed.

(** Two executions that ran to completion: one disconnect event starts two
    reconnects; and the subscription of the first reconnect that completes
    is called at once, so a third is started without a new event. *)
Example two_connects_two_reconnects :
  started_connects
    (fst (run initial_lifecycle
            [CallConnect (Some "m") reachable;
             CallConnect (Some "m") reachable;
             ClientDisconnected (JStr "lost")]))
  = [Some "m"; Some "m"]
  /\ started_connects
       (fst (run initial_lifecycle
               [CallConnect (Some "m") reachable;
                CallConnect (Some "m") reachable;
                ClientDisconnected (JStr "lost");
                RunStartedConnect reachable]))
     = [Some "m"; Some "m"].
Proof. split; reflexivity. Qed.

(** C9 does not hold as stated: the component-change handler of [compU]
    is called with the unfiltered subtree, in which ["update"] is still
    present. *)
Lemma update_reaches_component_handler :
  In (HandlerCalled 3 subtreeU (JNum 5))
     (fst (on_desired_properties pnp_markers accepting deviceU notificationU))
  /\ has_key (own_entries subtreeU) "update" = true.
Proof. split; [right; now left | reflexivity]. Qed.

(** * Further properties of the acknowledgement protocol *)

Lemma success_ack_recognised (P : string) (V version r : JValue) (shown : string) :
  isWritablePropertyResponse (success_ack P V version r shown) = Ok true.
Proof.
  unfold isWritablePropertyResponse, success_ack, js_in, obj_assign. simpl.
  rewrite !has_key_fold_obj_set. reflexivity.
Qed.

(** X1: every envelope the engine reports, whatever a handler merged into
    it and whatever the template literal printed, is recognised by
    [isWritablePropertyResponse]. *)
Theorem acknowledgements_are_recognised (P : string) (V version r : JValue) (shown : string) :
  isWritablePropertyResponse (success_ack P V version r shown) = Ok true
  /\ isWritablePropertyResponse (failure_ack P V version shown) = Ok true.
Proof. split; [apply success_ack_recognised | reflexivity]. Qed.

(** X2: normalising an envelope gives back the value it acknowledges, unless a
    handler result replaced the [value] field. *)
Theorem acknowledgement_normalises_to_value
  (P : string) (V version r : JValue) (shown : string) :
  normalizeWritablePropertyAck (failure_ack P V version shown) = Ok V
  /\ (has_key (own_entries r) "value" = false ->
      normalizeWritablePropertyAck (success_ack P V version r shown) = Ok V).
Proof.
  split; [reflexivity|]. intros Hr. unfold normalizeWritablePropertyAck.
  rewrite success_ack_recognised.
  unfold success_ack, js_get. simpl.
  now rewrite obj_lookup_obj_assign_absent.
Qed.

Lemma obj_lookup_absent (o : Props) (k : string) :
  has_key o k = false -> obj_lookup o k = None.
Proof.
  unfold has_key. induction o as [|[k' x] o IH]; simpl; [reflexivity|].
  destruct (String.eqb k' k); simpl; [discriminate | exact IH].
Qed.

Lemma has_key_filter_absent (p : string * JValue -> bool) (o : Props) (k : string) :
  has_key o k = false -> has_key (List.filter p o) k = false.
Proof.
  rewrite !has_key_false_iff. intros H Hin. apply H.
  apply in_map_iff in Hin as [kv [<- Hin]]. apply in_map.
  now apply filter_In in Hin as [Hin _].
Qed.

(** The state read for a component whose key the properties do not own:
    [null], or the empty object when the key names a member of
    [Object.prototype], which the read finds instead. *)
Lemma component_state_absent (M : Markers) (component : PnPComponent) (section : JValue) :
  has_key (filterTwinMeta M section) (componentKey component) = false ->
  component_state M component (Object_fromEntries (filterTwinMeta M section))
  = Ok (if inherited (componentKey component) then JObj [] else JNull).
Proof.
  intros H. unfold component_state, Object_fromEntries. simpl.
  rewrite obj_lookup_absent; [now destruct (inherited _)|].
  rewrite has_key_fold_obj_set. exact H.
Qed.

(** X3: a component without an entry in the reported (or desired) section of
    the twin has the state [null], unless its key names a member of
    [Object.prototype] ([toString], [constructor], ...): the read of the
    state then finds that member and the state is the empty object. *)
Theorem absent_component_state_is_null (M : Markers) (component : PnPComponent) (twin : Twin) :
  (has_key (own_entries (reported twin)) (componentKey component) = false ->
   getReportedState M component twin
   = Ok (if inherited (componentKey component) then JObj [] else JNull))
  /\ (has_key (own_entries (desired twin)) (componentKey component) = false ->
      getDesiredState M component twin
      = Ok (if inherited (componentKey component) then JObj [] else JNull)).
Proof.
  split; intros H; apply component_state_absent;
    rewrite filterTwinMeta_entries; now apply has_key_filter_absent.
Qed.

Example absent_component_state :
  getReportedState pnp_markers Scenario.compA
    {| desired := JObj [("$version", JNum 1)]; reported := JObj [("$version", JNum 1)] |}
  = Ok JNull
  /\ getReportedState pnp_markers
       {| componentKey := "toString"; writeableProperties := [] |}
       {| desired := JObj [("$version", JNum 1)]; reported := JObj [("$version", JNum 1)] |}
     = Ok (JObj []).
Proof. split; reflexivity. Qed.

(** X4: the registry never holds two components under one key, and the
    instance registered last is the one found under its key. *)
Theorem registerComponent_keeps_keys_distinct
  (dc dc' : DeviceClient) (componentCtor : DeviceClient -> PnPComponent)
  (instance : PnPComponent) :
  List.NoDup (List.map fst (components dc)) ->
  registerComponent dc componentCtor = Ok (instance, dc') ->
  List.NoDup (List.map fst (components dc'))
  /\ map_get (components dc') (componentKey instance) = Some instance.
Proof.
  intros Hnd. unfold registerComponent. destruct (no_model_id dc); [discriminate|].
  intros [= <- <-]. simpl. split; [now apply map_set_NoDup | apply map_get_set_eq].
Qed.

Lemma registerComponent_keeps_keys_distinct_witness :
  exists dc',
    registerComponent Scenario.deviceA (fun _ => Scenario.compU) = Ok (Scenario.compU, dc')
    /\ List.NoDup (List.map fst (components dc')).
Proof.
  eexists. split; [reflexivity|].
  apply (registerComponent_keeps_keys_distinct Scenario.deviceA _ (fun _ => Scenario.compU)
           Scenario.compU).
  - repeat constructor. simpl. tauto.
  - reflexivity.
Defined.

(** X5: without a model id no component can be registered. *)
Theorem registerComponent_needs_model
  (dc : DeviceClient) (componentCtor : DeviceClient -> PnPComponent) :
  no_model_id dc = true ->
  registerComponent dc componentCtor = Throw (NoModelIdAssignedError (deviceId dc)).
Proof. intros H. unfold registerComponent. now rewrite H. Qed.

Lemma registerComponent_needs_model_witness :
  registerComponent
    {| deviceId := "device-1"; modelId := None; components := [];
       propertyChangeHandlers := ∅ |}
    (fun _ => Scenario.compA)
  = Throw (NoModelIdAssignedError "device-1").
Proof. apply registerComponent_needs_model. reflexivity. Defined.

Lemma map_normalize_plain (entries : Props) :
  (forall k v, In (k, v) entries -> isWritablePropertyResponse v = Ok false) ->
  map_normalize entries = Ok entries.
Proof.
  induction entries as [|[k v] entries IH]; intros H; simpl; [reflexivity|].
  unfold normalizeWritablePropertyAck. rewrite (H k v (or_introl eq_refl)).
  rewrite IH; [reflexivity|]. intros k' v' Hin. apply (H k' v'). now right.
Qed.

(** [isWritablePropertyResponse] on a value that is no envelope: [false],
    or the [TypeError] of [in] when the value is [null]. *)
Lemma isWritablePropertyResponse_not_envelope (v : JValue) :
  isWritablePropertyResponse v <> Ok true ->
  isWritablePropertyResponse v
  = match v with
    | JNull => isWritablePropertyResponse JNull
    | _ => Ok false
    end.
Proof.
  intros H. destruct v; try reflexivity;
    (destruct (isWritablePropertyResponse _) as [[|]|e] eqn:E;
     [now destruct H | reflexivity | exfalso; revert E; clear;
      unfold isWritablePropertyResponse, js_in; simpl;
      repeat (match goal with |- context [if ?b then _ else _] => destruct b end);
      discriminate]).
Qed.

(** A [null] among the entries makes the traversal throw, whatever the
    other entries that are no envelopes hold. *)
Lemma map_normalize_null (entries : Props) :
  (forall k v, In (k, v) entries -> isWritablePropertyResponse v <> Ok true) ->
  existsb (fun kv => match snd kv with JNull => true | _ => false end) entries = true ->
  exists msg, map_normalize entries = Throw (TypeError msg).
Proof.
  induction entries as [|[k v] entries IH]; intros H Hnull; simpl in *; [discriminate|].
  unfold normalizeWritablePropertyAck.
  rewrite (isWritablePropertyResponse_not_envelope v) by (apply (H k v); now left).
  destruct v; simpl in Hnull;
    try (destruct (IH (fun k' v' Hin => H k' v' (or_intror Hin)) Hnull) as [msg ->];
         now exists msg).
  unfold isWritablePropertyResponse. simpl. eauto.
Qed.

Lemma existsb_false_forall {A : Type} (p : A -> bool) (l : list A) :
  existsb p l = false -> forall a, In a l -> p a = false.
Proof.
  intros H a Ha. destruct (p a) eqn:E; [|reflexivity].
  assert (existsb p l = true) by (apply existsb_exists; eauto). congruence.
Qed.

(** X6: on a component subtree none of whose kept values is an envelope,
    [normalizeComponentState] only removes the version key, the marker key
    and ["update"], and all other properties stay, in order, provided none
    of the kept values is [null]; a kept value [null] makes it throw the
    [TypeError] of [isWritablePropertyResponse]. *)
Theorem normalizeComponentState_plain (M : Markers) (props : Props) :
  keys_ordered (List.map fst props) = true ->
  (forall k v, In (k, v) props -> not_component_meta M k = true ->
     isWritablePropertyResponse v <> Ok true) ->
  let kept := List.filter (fun kv => not_component_meta M (fst kv)) props in
  if existsb (fun kv => match snd kv with JNull => true | _ => false end) kept
  then exists msg, normalizeComponentState M (JObj props) = Throw (TypeError msg)
  else normalizeComponentState M (JObj props) = Ok (JObj kept).
Proof.
  intros Hord Hplain kept.
  assert (Hkept : forall k v, In (k, v) kept -> isWritablePropertyResponse v <> Ok true).
  { intros k v Hin. apply filter_In in Hin as [Hin Hk]. now apply (Hplain k v). }
  unfold normalizeComponentState. simpl. fold kept.
  destruct (existsb _ kept) eqn:Hnull.
  - destruct (map_normalize_null kept Hkept Hnull) as [msg ->]. now exists msg.
  - rewrite map_normalize_plain.
    + subst kept. now rewrite Object_fromEntries_ordered by now apply keys_ordered_filter.
    + intros k v Hin.
      rewrite (isWritablePropertyResponse_not_envelope v) by now apply (Hkept k v).
      pose proof (existsb_false_forall _ _ Hnull (k, v) Hin) as Hv. simpl in Hv.
      now destruct v.
Qed.

Lemma normalizeComponentState_plain_witness :
  normalizeComponentState pnp_markers Scenario.subtreeA
  = Ok (JObj [("temp", JNum 21); ("mode", JStr "eco")])
  /\ exists msg,
       normalizeComponentState pnp_markers (JObj [("__t", JStr "c"); ("temp", JNull)])
       = Throw (TypeError msg).
Proof.
  split.
  - apply (normalizeComponentState_plain pnp_markers
             [("__t", JStr "c"); ("temp", JNum 21); ("mode", JStr "eco")]).
    + reflexivity.
    + intros k v [[= <- <-]|[[= <- <-]|[[= <- <-]|[]]]] _; discriminate.
  - apply (normalizeComponentState_plain pnp_markers [("__t", JStr "c"); ("temp", JNull)]).
    + reflexivity.
    + intros k v [[= <- <-]|[[= <- <-]|[]]] _; discriminate.
Defined.

(** * The rest of the device client and of the component base class *)

(** ** Clearing reported properties *)

Lemma has_key_filter_key (p : string -> bool) (o : Props) (k : string) :
  has_key (List.filter (fun kv => p (fst kv)) o) k = has_key o k && p k.
Proof.
  unfold has_key. induction o as [|[k' x] o IH]; simpl; [reflexivity|].
  destruct (p k') eqn:Hp; simpl; rewrite IH.
  - destruct (String.eqb_spec k' k) as [->|]; simpl; [now rewrite Hp | reflexivity].
  - destruct (String.eqb_spec k' k) as [->|]; simpl; [now rewrite Hp, andb_false_r | reflexivity].
Qed.

Lemma In_obj_set (o : Props) (k : string) (v : JValue) (k' : string) (v' : JValue) :
  In (k', v') (obj_set o k v) -> (k', v') = (k, v) \/ In (k', v') o.
Proof.
  unfold obj_set. destruct (has_key o k).
  - induction o as [|[k0 x] o IH]; simpl; [tauto|].
    destruct (String.eqb_spec k0 k) as [->|Hne]; simpl.
    + intros [H|H]; [now left | right; now right].
    + intros [H|H]; [right; now left|]. destruct (IH H); [now left | right; now right].
  - destruct (array_index k) as [i|].
    + induction o as [|[k0 x] o IH]; simpl; [intros [H|[]]; now left|].
      destruct (array_index k0) as [j|]; [destruct (j <? i)%N|]; simpl;
        try (intros [H|H]; [now left | now right]).
      intros [H|H]; [right; now left|]. destruct (IH H); [now left | right; now right].
    + intros H. apply in_app_or in H as [H|[H|[]]]; [now right | now left].
Qed.

Lemma has_key_obj_put (o : Props) (k k' : string) (v : JValue) :
  has_key (obj_put o k v) k'
  = has_key o k' || (String.eqb k k' && negb (String.eqb k "__proto__")).
Proof.
  unfold obj_put. destruct (String.eqb_spec k "__proto__") as [->|Hne]; simpl.
  - rewrite andb_false_r, orb_false_r.
    destruct (has_key o "__proto__") eqn:Hown; simpl; [|reflexivity].
    rewrite has_key_obj_set.
    destruct (String.eqb_spec "__proto__" k') as [<-|]; [now rewrite Hown | reflexivity].
  - rewrite andb_true_r, has_key_obj_set. apply orb_comm.
Qed.

Lemma fold_null_values (keys : list string) (o : Props) (k : string) (v : JValue) :
  In (k, v) (fold_left (fun acc key => obj_put acc key JNull) keys o) ->
  v = JNull \/ In (k, v) o.
Proof.
  revert o. induction keys as [|key keys IH]; intros o; simpl; [now right|].
  intros H. destruct (IH _ H) as [Hv|Hin]; [now left|].
  unfold obj_put in Hin. destruct (_ && _); [now right|].
  apply In_obj_set in Hin as [[= _ ->]|Hin]; [now left | now right].
Qed.

Lemma fold_null_keys (keys : list string) (o : Props) (k : string) :
  has_key (fold_left (fun acc key => obj_put acc key JNull) keys o) k
  = has_key o k
    || (existsb (fun key => String.eqb key k) keys && negb (String.eqb k "__proto__")).
Proof.
  revert o. induction keys as [|key keys IH]; intros o; simpl.
  - now rewrite orb_false_r.
  - rewrite IH, has_key_obj_put.
    destruct (String.eqb_spec key k) as [->|]; simpl;
      [|now rewrite orb_false_r].
    now destruct (has_key o k), (String.eqb k "__proto__"), (existsb _ keys).
Qed.

Lemma existsb_filter_keys (p : string -> bool) (o : Props) (k : string) :
  existsb (fun key => String.eqb key k) (List.filter p (List.map fst o)) = has_key o k && p k.
Proof.
  unfold has_key. induction o as [|[k' x] o IH]; simpl; [reflexivity|].
  destruct (p k') eqn:Hp; simpl; rewrite IH.
  - destruct (String.eqb_spec k' k) as [->|]; simpl; [now rewrite Hp | reflexivity].
  - destruct (String.eqb_spec k' k) as [->|]; simpl; [now rewrite Hp, andb_false_r | reflexivity].
Qed.

(** X7: [clearReportedProperties] makes one report call, whatever the
    predicate keeps.  The patch holds [null] under exactly the keys of the
    reported section that pass the metadata filter and the predicate: it
    never names the version key, a key starting with a dollar sign, the
    component-marker key or ["update"], and it holds nothing but [null].
    (A key ["__proto__"] of the section is not in the patch either: the
    assignment that builds the patch sets the prototype there.) *)
Theorem clearReportedProperties_patch
  (M : Markers) (tu : JValue -> option JValue) (filterPredicate : string -> bool) (twin : Twin) :
  exists patch,
    clearReportedProperties M tu filterPredicate twin
    = ([TwinUpdate (JObj patch)], report_result tu (JObj patch))
    /\ (forall k, has_key patch k
                  = has_key (own_entries (reported twin)) k && not_twin_meta M k
                    && filterPredicate k && negb (String.eqb k "__proto__"))
    /\ (forall k v, In (k, v) patch -> v = JNull).
Proof.
  unfold clearReportedProperties.
  exists (fold_left (fun acc key => obj_put acc key JNull)
            (List.filter filterPredicate (Object_keys (getReportedProperties M twin))) []).
  split; [|split].
  - unfold reportProperties, report_result. run_proc. destruct (tu _); reflexivity.
  - intros k. rewrite fold_null_keys. simpl.
    unfold Object_keys, getReportedProperties, Object_fromEntries. simpl.
    rewrite existsb_filter_keys, has_key_fold_obj_set. simpl.
    now rewrite filterTwinMeta_entries, has_key_filter_key.
  - intros k v H. apply fold_null_values in H as [H|[]]. exact H.
Qed.

(** The reported section of a connected device: the [$version] counter, the
    [update] method the SDK hangs on the section, and two components. *)
Example clearReportedProperties_example :
  clearReportedProperties pnp_markers Scenario.accepting (fun key => negb (String.eqb key "keep"))
    {| desired := JObj [];
       reported := JObj [("keep", JObj [("__t", JStr "c")]);
                         ("compA", JObj [("__t", JStr "c"); ("temp", JNum 21)]);
                         ("update", JStr "function");
                         ("$version", JNum 7)] |}
  = ([TwinUpdate (JObj [("compA", JNull)])], Ok tt).
Proof. reflexivity. Qed.

(** A key ["__proto__"] of the reported section is kept by
    [getReportedProperties] but does not reach the patch. *)
Example clearReportedProperties_proto :
  clearReportedProperties pnp_markers Scenario.accepting (fun _ => true)
    {| desired := JObj [];
       reported := JObj [("compA", JObj [("__t", JStr "c")]); ("__proto__", JNum 1)] |}
  = ([TwinUpdate (JObj [("compA", JNull)])], Ok tt)
  /\ Object_keys (getReportedProperties pnp_markers
                    {| desired := JObj [];
                       reported := JObj [("compA", JObj [("__t", JStr "c")]);
                                         ("__proto__", JNum 1)] |})
     = ["compA"; "__proto__"].
Proof. split; reflexivity. Qed.

(** ** Reporting the state of a component *)

Lemma getReportedState_absent (M : Markers) (component : PnPComponent) (twin : Twin) :
  has_key (own_entries (reported twin)) (componentKey component) = false ->
  getReportedState M component twin
  = Ok (if inherited (componentKey component) then JObj [] else JNull).
Proof.
  intros H. unfold getReportedState, getReportedProperties.
  apply component_state_absent. rewrite filterTwinMeta_entries.
  now apply has_key_filter_absent.
Qed.

(** X8: [reportState] with an updater function on a component that has no
    entry in the reported section calls the function with [null] (with the
    empty object if the component key names a member of [Object.prototype],
    such as [toString] or [constructor], which the read of the state finds
    instead) and reports what it returns, merged with the component marker;
    if the function throws, nothing is reported. *)
Theorem reportState_updater_absent
  (M : Markers) (tu : JValue -> option JValue) (component : PnPComponent)
  (update : JValue -> Result JValue) (twin : Twin) :
  has_key (own_entries (reported twin)) (componentKey component) = false ->
  reportState M tu component (Updater update) twin
  = match update (if inherited (componentKey component) then JObj [] else JNull) with
    | Ok data =>
        ([ReportComponentProperties (componentKey component) data;
          TwinUpdate (component_patch M (componentKey component) data)],
         report_result tu (component_patch M (componentKey component) data))
    | Throw e => ([], Throw e)
    end.
Proof.
  intros Habsent. unfold reportState.
  rewrite (getReportedState_absent M component twin Habsent).
  destruct (update _); [apply reportComponentProperties_run | reflexivity].
Qed.

Lemma reportState_updater_absent_witness :
  reportState pnp_markers Scenario.accepting Scenario.compA
    (Updater (fun state => Ok (JObj [("previous", state)])))
    {| desired := JObj []; reported := JObj [("$version", JNum 1)] |}
  = ([ReportComponentProperties "compA" (JObj [("previous", JNull)]);
      TwinUpdate (component_patch pnp_markers "compA" (JObj [("previous", JNull)]))],
     report_result Scenario.accepting
       (component_patch pnp_markers "compA" (JObj [("previous", JNull)]))).
Proof.
  pose proof (reportState_updater_absent pnp_markers Scenario.accepting Scenario.compA
                (fun state => Ok (JObj [("previous", state)]))
                {| desired := JObj []; reported := JObj [("$version", JNum 1)] |} eq_refl) as H.
  cbv beta iota in H. exact H.
Defined.

(** The updater of a component named [constructor] is handed the empty
    object. *)
Example reportState_updater_inherited :
  fst (reportState pnp_markers Scenario.accepting
         {| componentKey := "constructor"; writeableProperties := [] |}
         (Updater (fun state => Ok (JObj [("previous", state)])))
         {| desired := JObj []; reported := JObj [("$version", JNum 1)] |})
  = [ReportComponentProperties "constructor" (JObj [("previous", JObj [])]);
     TwinUpdate (component_patch pnp_markers "constructor" (JObj [("previous", JObj [])]))].
Proof. reflexivity. Qed.

Lemma obj_lookup_In (o : Props) (k : string) (v : JValue) :
  List.NoDup (List.map fst o) -> In (k, v) o -> obj_lookup o k = Some v.
Proof.
  induction o as [|[k' x] o IH]; simpl; intros Hnd Hin; [contradiction|].
  inversion Hnd as [|? ? Hk' Hnd']; subst.
  destruct Hin as [[= -> ->]|Hin].
  - now rewrite String.eqb_refl.
  - destruct (String.eqb_spec k' k) as [->|Hne]; [|now apply IH].
    exfalso. apply Hk'. apply in_map_iff. now exists (k, v).
Qed.

Lemma getTwinProperties_lookup (M : Markers) (section : JValue) (k : string) (v : JValue) :
  well_formed section = true ->
  In (k, v) (own_entries section) ->
  obj_lookup (own_entries (Object_fromEntries (filterTwinMeta M section))) k
  = if not_twin_meta M k then Some v else None.
Proof.
  intros Hwf Hin.
  rewrite Object_fromEntries_ordered by now apply filterTwinMeta_ordered.
  simpl. destruct (not_twin_meta M k) eqn:Hk.
  - rewrite (obj_lookup_In _ k v); [reflexivity | |].
    + apply keys_ordered_NoDup. now apply filterTwinMeta_ordered.
    + rewrite filterTwinMeta_entries. apply filter_In. now split.
  - rewrite obj_lookup_absent; [reflexivity|].
    rewrite filterTwinMeta_entries, has_key_filter_key, Hk. apply andb_false_r.
Qed.

(** X9: [getReportedState] and [getDesiredState] read the subtree stored
    under the component key and normalise it.  A component whose subtree
    is falsy reads as [null], and so does a component whose key the
    metadata filter drops (["update"], a key starting with a dollar sign):
    the read then finds no property of its own, and the state is [null]
    unless the dropped key names a member of [Object.prototype], which only
    a marker key could. *)
Theorem component_state_reads_subtree
  (M : Markers) (component : PnPComponent) (twin : Twin) (subtree : JValue) :
  (well_formed (reported twin) = true ->
   In (componentKey component, subtree) (own_entries (reported twin)) ->
   getReportedState M component twin
   = if not_twin_meta M (componentKey component)
     then (if js_truthy subtree then normalizeComponentState M subtree else Ok JNull)
     else Ok (if inherited (componentKey component) then JObj [] else JNull))
  /\ (well_formed (desired twin) = true ->
      In (componentKey component, subtree) (own_entries (desired twin)) ->
      getDesiredState M component twin
      = if not_twin_meta M (componentKey component)
        then (if js_truthy subtree then normalizeComponentState M subtree else Ok JNull)
        else Ok (if inherited (componentKey component) then JObj [] else JNull))
  /\ (String.eqb (componentKey component) "update" = true
      \/ String.prefix "$" (componentKey component) = true ->
      not_twin_meta M (componentKey component) = false
      /\ inherited (componentKey component) = false).
Proof.
  split; [|split]; [intros Hwf Hin| intros Hwf Hin |];
    try (unfold getReportedState, getReportedProperties, getDesiredState,
           getDesiredProperties, component_state;
         rewrite (getTwinProperties_lookup M _ _ subtree Hwf Hin);
         destruct (not_twin_meta M (componentKey component));
         [reflexivity | now destruct (inherited _)]).
  unfold not_twin_meta, inherited. generalize (componentKey component) as key.
  intros key [H|H].
  - apply String.eqb_eq in H. rewrite H. simpl. split; [|reflexivity].
    now rewrite !andb_false_r.
  - rewrite H. simpl. split; [now rewrite andb_false_r|].
    destruct key as [|c rest]; [discriminate|].
    cbn [String.prefix] in H.
    destruct (ascii_dec "$"%char c) as [<-|]; [reflexivity | discriminate].
Qed.

(** An envelope in the reported section is read back as its value. *)
Example getReportedState_unwraps :
  getReportedState pnp_markers Scenario.compA
    {| desired := JObj [];
       reported :=
         JObj [("compA",
                JObj [("__t", JStr "c");
                      ("temp", JObj [("value", JNum 21); ("ac", JNum 200);
                                     ("ad", JStr "Successfully updated (temp) to (21)");
                                     ("av", JNum 5)]);
                      ("mode", JStr "eco")]);
               ("$version", JNum 7)] |}
  = Ok (JObj [("temp", JNum 21); ("mode", JStr "eco")]).
Proof. reflexivity. Qed.

(** ** Component-change handlers *)

Lemma component_handler_called
  (M : Markers) (tu : JValue -> option JValue) (dc : DeviceClient) (changes : JValue)
  (C : string) (comp : PnPComponent) (h : Handler) (d : JValue) :
  In (C, comp) (components dc) ->
  propertyChangeHandlers dc !! C = Some h ->
  In (C, d) (filterTwinMeta M changes) ->
  snd (on_desired_properties M tu dc changes) = Ok tt ->
  In (HandlerCalled (handler_ref h) d (js_get changes (TWIN_VERSION_KEY M)))
     (fst (on_desired_properties M tu dc changes)).
Proof.
  intros Hcomp Hh Hd Hok.
  rewrite on_desired_properties_unfold in *. cbv zeta in *. simpl in *. right.
  destruct (components dc) eqn:E; [contradiction|]. rewrite <- E in *.
  unfold handleChangedComponentProperties in *.
  pose proof (for_of_ok_all _ _ Hok) as Hall.
  rewrite for_of_completes by assumption. simpl.
  apply (in_flat_map_intro _ _ (C, comp)); [assumption|].
  specialize (Hall _ Hcomp). simpl in Hall.
  pose proof (for_of_ok_all _ _ Hall) as Hall'.
  rewrite for_of_completes by assumption. simpl.
  apply (in_flat_map_intro _ _ (C, d)); [assumption|].
  specialize (Hall' _ Hd). rewrite Hh in *.
  rewrite handle_changed_component_match in *. cbv zeta in *.
  destruct (handler_run h d _); simpl; now left.
Qed.

(** X10: a handler registered with [onComponentChange] is the one the
    engine calls: when a notification that changes the component is
    processed to its end, the handler has been called with the component's
    subtree and the version.  A later registration for the same component
    replaces the earlier one. *)
Theorem onComponentChange_dispatched
  (M : Markers) (tu : JValue -> option JValue) (dc : DeviceClient) (changes : JValue)
  (component : PnPComponent) (h : Handler) (d : JValue) :
  In (componentKey component, component) (components dc) ->
  In (componentKey component, d) (filterTwinMeta M changes) ->
  snd (on_desired_properties M tu (onComponentChange dc component h) changes) = Ok tt ->
  In (HandlerCalled (handler_ref h) d (js_get changes (TWIN_VERSION_KEY M)))
     (fst (on_desired_properties M tu (onComponentChange dc component h) changes))
  /\ (forall h0, onComponentChange (onComponentChange dc component h0) component h
                 = onComponentChange dc component h).
Proof.
  intros Hcomp Hd Hok. split.
  - apply (component_handler_called M tu _ changes (componentKey component) component h d);
      try assumption.
    unfold onComponentChange, addComponentChangeHandler, set_handler. simpl.
    apply lookup_insert_eq.
  - intros h0. unfold onComponentChange, addComponentChangeHandler, set_handler. simpl.
    now rewrite insert_insert_eq.
Qed.

Lemma onComponentChange_dispatched_witness :
  In (HandlerCalled 3 Scenario.subtreeA (JNum 5))
     (fst (on_desired_properties pnp_markers Scenario.accepting
             (onComponentChange Scenario.deviceA Scenario.compA Scenario.observing)
             Scenario.notification)).
Proof.
  apply (onComponentChange_dispatched pnp_markers Scenario.accepting Scenario.deviceA
           Scenario.notification Scenario.compA Scenario.observing Scenario.subtreeA).
  - now left.
  - now left.
  - reflexivity.
Defined.

(** ** Command names *)

Lemma append_asterisk_split (a b c d : string) :
  has_asterisk a = false -> has_asterisk c = false ->
  a +:+ "*" +:+ b = c +:+ "*" +:+ d -> a = c /\ b = d.
Proof.
  revert c. induction a as [|x a IH]; intros [|y c] Ha Hc H; simpl in *.
  - injection H as H. auto.
  - injection H as Hy _. subst y. discriminate.
  - injection H as Hx _. subst x. discriminate.
  - injection H as Hxy H. subst y. apply orb_false_iff in Ha as [_ Ha], Hc as [_ Hc].
    destruct (IH c Ha Hc H) as [Hac Hbd]. subst. auto.
Qed.

(** X11: the method names [onComponentCommand] registers tell components
    and commands apart as long as no component key holds an asterisk: two
    registrations get the same name only for the same component key and
    the same command.  Such a name is also never a device-level command
    name without an asterisk. *)
Theorem onComponentCommand_unambiguous
  (c1 c2 : PnPComponent) (n1 n2 : string) :
  has_asterisk (componentKey c1) = false ->
  has_asterisk (componentKey c2) = false ->
  (onComponentCommand c1 n1 = onComponentCommand c2 n2 ->
   componentKey c1 = componentKey c2 /\ n1 = n2)
  /\ (forall deviceCommand, has_asterisk deviceCommand = false ->
        onComponentCommand c1 n1 <> deviceCommand).
Proof.
  intros H1 H2. split.
  - now apply append_asterisk_split.
  - intros deviceCommand Hd Heq. unfold onComponentCommand in Heq.
    assert (Hstar : forall a b, has_asterisk (a +:+ "*" +:+ b) = true).
    { intros a b. induction a as [|x a IH]; simpl; [reflexivity|].
      rewrite IH. apply orb_true_r. }
    rewrite <- Heq, Hstar in Hd. discriminate.
Qed.

Lemma onComponentCommand_unambiguous_witness :
  onComponentCommand Scenario.compA "reboot" <> "reboot".
Proof.
  apply (proj2 (onComponentCommand_unambiguous Scenario.compA Scenario.compU "reboot" "reboot"
                  eq_refl eq_refl)).
  reflexivity.
Defined.

(** With an asterisk in a component key, two different registrations can
    share a name. *)
Example onComponentCommand_collision :
  onComponentCommand {| componentKey := "pump*a"; writeableProperties := [] |} "start"
  = onComponentCommand {| componentKey := "pump"; writeableProperties := [] |} "a*start".
Proof. reflexivity. Qed.

(** ** Spreading objects *)

Lemma fold_obj_set_lookup (pairs o : Props) (k : string) :
  List.NoDup (List.map fst pairs) ->
  obj_lookup (fold_left (fun acc kv => obj_set acc (fst kv) (snd kv)) pairs o) k
  = match obj_lookup pairs k with
    | Some v => Some v
    | None => obj_lookup o k
    end.
Proof.
  revert o. induction pairs as [|[k0 x] pairs IH]; intros o Hnd; simpl; [reflexivity|].
  inversion Hnd as [|? ? Hk0 Hnd']; subst. rewrite IH by assumption.
  destruct (String.eqb_spec k0 k) as [->|Hne].
  - rewrite obj_lookup_absent by now apply has_key_false_iff.
    apply js_get_obj_set_eq.
  - destruct (obj_lookup pairs k); [reflexivity|]. now apply obj_lookup_obj_set_ne.
Qed.

(** [{ ...o, ...src }[k]]: the property of [src] when it owns [k], that of
    [o] otherwise. *)
Lemma obj_assign_lookup (o : Props) (src : JValue) (k : string) :
  well_formed src = true ->
  obj_lookup (obj_assign o src) k
  = match obj_lookup (own_entries src) k with
    | Some v => Some v
    | None => obj_lookup o k
    end.
Proof.
  intros Hwf. unfold obj_assign. apply fold_obj_set_lookup.
  now apply keys_ordered_NoDup.
Qed.

(** ** File upload *)

(** X12: once the shared access signature is obtained, a failing file
    upload does not make [upload] fail.  Whether [uploadFile] resolves or
    rejects with an error object, the status is notified exactly once,
    under the correlation id of the signature, and [upload] settles as that
    notification does, returning the status it notified; [success] tells
    whether [uploadFile] resolved.  The file goes to
    https://hostName/containerName/blobName followed by the token. *)
Theorem upload_notifies_status
  (getSas : string -> Result BlobInfo) (uploadFile : string -> string -> JValue -> Uploaded)
  (notify : string -> BlobUploadStatus -> option JValue)
  (localFilePath desiredBlobName : string) (uploadOptions : JValue) (blobInfo : BlobInfo) :
  getSas desiredBlobName = Ok blobInfo ->
  let blobUrl := "https://" +:+ hostName blobInfo +:+ "/" +:+ containerName blobInfo
                 +:+ "/" +:+ blobName blobInfo +:+ sasToken blobInfo in
  (forall err, uploadFile blobUrl localFilePath uploadOptions = UploadRejected err ->
     err <> JNull /\ err <> JUndefined) ->
  exists status,
    upload getSas uploadFile notify localFilePath desiredBlobName uploadOptions
    = ([GetBlobSharedAccessSignature desiredBlobName;
        UploadFile blobUrl localFilePath uploadOptions;
        NotifyBlobUploadStatus (correlationId blobInfo) status],
       match notify (correlationId blobInfo) status with
       | None => Ok status
       | Some reason => Throw (TransportError reason)
       end)
    /\ match uploadFile blobUrl localFilePath uploadOptions with
       | UploadResolved code =>
           status = {| success := true;
                       statusCode := JNum code;
                       description := JStr ("Successfully uploaded " +:+ desiredBlobName) |}
       | UploadRejected err =>
           status = {| success := false;
                       statusCode := js_get err "code";
                       description := js_get err "message" |}
       end.
Proof.
  intros Hsas blobUrl Herr. unfold upload. rewrite Hsas. fold blobUrl.
  destruct (uploadFile blobUrl localFilePath uploadOptions) as [code|err] eqn:Hup.
  - eexists. split; reflexivity.
  - destruct (Herr err eq_refl) as [Hnull Hundef].
    assert (Hmember : forall k, js_member err k = Ok (js_get err k)).
    { intros k. destruct err; try reflexivity; contradiction. }
    unfold upload_status. rewrite !Hmember. eexists. split; reflexivity.
Qed.

(** ** Provisioning *)

(** X13: [#provision] resolves only with a registration result, and then
    to the connection string of the hub and the device id the result names;
    an error passed to the callback is the reason of the rejection; a
    callback without error and without result rejects with "Could not
    connect", although [resolve] is called after [reject]. *)
Theorem provision_settles
  (model : option string) (error : JValue) (result : option RegistrationResult) :
  (forall connectionString,
     snd (provision model error result) = Some (CallResolve connectionString) ->
     js_truthy error = false
     /\ exists r, result = Some r
          /\ connectionString
             = "HostName=" +:+ assignedHub r +:+ ";DeviceId=" +:+ registeredDeviceId r
               +:+ ";x509=true")
  /\ (js_truthy error = true -> snd (provision model error result) = Some (CallReject error))
  /\ (js_truthy error = false -> result = None ->
      snd (provision model error result) = Some (CallReject (JStr "Could not connect"))).
Proof.
  unfold provision, register_callback, first_settling. simpl.
  destruct (js_truthy error) eqn:He; (split; [|split]).
  - intros s [=].
  - reflexivity.
  - discriminate.
  - destruct result as [r|]; simpl; intros s [= <-]. split; [reflexivity|]. eauto.
  - discriminate.
  - now intros _ ->.
Qed.

(** ** Objects stay in enumeration order *)

Lemma array_index_canonical (k : string) (i : N) :
  array_index k = Some i -> k = NilEmpty.string_of_uint (N.to_uint i).
Proof.
  unfold array_index. destruct (NilEmpty.uint_of_string k) as [d|]; [|discriminate].
  cbv zeta. destruct (String.eqb_spec (NilEmpty.string_of_uint (N.to_uint (N.of_uint d))) k)
    as [Heq|]; [|discriminate].
  destruct (N.of_uint d <? 4294967295)%N; [|discriminate].
  simpl. intros [= <-]. now symmetry.
Qed.

Lemma array_index_inj (k1 k2 : string) (i : N) :
  array_index k1 = Some i -> array_index k2 = Some i -> k1 = k2.
Proof.
  intros H1 H2. apply array_index_canonical in H1, H2. congruence.
Qed.

Lemma keys_ordered_snoc (ks : list string) (k : string) :
  keys_ordered ks = true ->
  Forall (fun k' => key_before k' k = true) ks ->
  keys_ordered (ks ++ [k]) = true.
Proof.
  induction ks as [|k0 ks IH]; simpl; intros Hord Hall; [reflexivity|].
  apply andb_true_iff in Hord as [Hk0 Hks].
  inversion Hall as [|? ? Hb Hrest]; subst.
  rewrite forallb_app, Hk0, IH by assumption. simpl. now rewrite Hb.
Qed.

Lemma key_before_trans (k1 k2 k3 : string) :
  key_before k1 k2 = true -> key_before k2 k3 = true -> k1 <> k3 -> key_before k1 k3 = true.
Proof.
  unfold key_before.
  destruct (array_index k1) as [i|], (array_index k2) as [j|], (array_index k3) as [l|];
    try discriminate; try reflexivity.
  - rewrite !N.ltb_lt. lia.
  - intros _ _ Hne. now apply negb_true_iff, String.eqb_neq.
Qed.

Lemma obj_replace_keys (k : string) (v : JValue) (o : Props) :
  List.map fst (obj_replace k v o) = List.map fst o.
Proof.
  induction o as [|[k0 x] o IH]; simpl; [reflexivity|].
  destruct (String.eqb k0 k); simpl; [reflexivity | now rewrite IH].
Qed.

Lemma obj_insert_index_forallb (p : string -> bool) (i : N) (k : string) (v : JValue) (o : Props) :
  forallb p (List.map fst (obj_insert_index i k v o)) = p k && forallb p (List.map fst o).
Proof.
  induction o as [|[k0 x] o IH]; simpl; [reflexivity|].
  destruct (array_index k0) as [j|]; [destruct (j <? i)%N|]; simpl; try reflexivity.
  rewrite IH. now destruct (p k0), (p k).
Qed.

Lemma obj_insert_index_ordered (i : N) (k : string) (v : JValue) (o : Props) :
  array_index k = Some i ->
  ~ In k (List.map fst o) ->
  keys_ordered (List.map fst o) = true ->
  keys_ordered (List.map fst (obj_insert_index i k v o)) = true.
Proof.
  intros Hk. induction o as [|[k0 x] o IH]; simpl; intros Hfresh Hord; [reflexivity|].
  apply andb_true_iff in Hord as [Hk0 Hrest].
  assert (Hne : k0 <> k) by (intros ->; apply Hfresh; now left).
  assert (Hfresh' : ~ In k (List.map fst o)) by (intros H; apply Hfresh; now right).
  assert (Hfirst : forall k', key_before k k0 = true ->
             In k' (List.map fst o) -> key_before k k' = true).
  { intros k' Hb Hin. rewrite forallb_forall in Hk0.
    apply (key_before_trans k k0 k'); [assumption | now apply Hk0 |].
    intros ->. contradiction. }
  destruct (array_index k0) as [j|] eqn:Hj.
  - destruct (N.ltb_spec j i) as [Hlt|Hge]; simpl.
    + rewrite obj_insert_index_forallb, Hk0, IH by assumption.
      unfold key_before. rewrite Hj, Hk. apply N.ltb_lt in Hlt. now rewrite Hlt.
    + assert (Hb : key_before k k0 = true).
      { unfold key_before. rewrite Hj, Hk. apply N.ltb_lt.
        destruct (N.eq_dec i j) as [->|]; [|lia].
        exfalso. apply Hne. now apply (array_index_inj k0 k j). }
      rewrite Hb, Hk0, Hrest. simpl. rewrite andb_true_r.
      apply forallb_forall. intros k' Hin. now apply Hfirst.
  - simpl. assert (Hb : key_before k k0 = true) by (unfold key_before; now rewrite Hk, Hj).
    rewrite Hb, Hk0, Hrest. simpl. rewrite andb_true_r.
    apply forallb_forall. intros k' Hin. now apply Hfirst.
Qed.

(** Setting a property keeps the property list in enumeration order. *)
Lemma obj_set_ordered (o : Props) (k : string) (v : JValue) :
  keys_ordered (List.map fst o) = true ->
  keys_ordered (List.map fst (obj_set o k v)) = true.
Proof.
  intros Hord. unfold obj_set. destruct (has_key o k) eqn:Hk.
  - now rewrite obj_replace_keys.
  - apply has_key_false_iff in Hk. destruct (array_index k) as [i|] eqn:Hi.
    + now apply obj_insert_index_ordered.
    + rewrite List.map_app. simpl. apply keys_ordered_snoc; [assumption|].
      apply List.Forall_forall. intros k' Hin. unfold key_before. rewrite Hi.
      destruct (array_index k'); [reflexivity|].
      apply negb_true_iff, String.eqb_neq. intros ->. contradiction.
Qed.

Lemma fold_obj_set_keeps_order (pairs o : Props) :
  keys_ordered (List.map fst o) = true ->
  keys_ordered
    (List.map fst (fold_left (fun acc kv => obj_set acc (fst kv) (snd kv)) pairs o)) = true.
Proof.
  revert o. induction pairs as [|[k v] pairs IH]; intros o Hord; simpl; [assumption|].
  apply IH. now apply obj_set_ordered.
Qed.

(** The objects the code builds are proper objects.  Whatever pairs
    [Object.fromEntries] is given, and whatever a spread copies onto an
    object, the result lists its properties in enumeration order, without a
    repeated key; and it owns exactly the keys it was given. *)
Lemma built_objects_well_formed (pairs : Props) (o : Props) (src : JValue) :
  well_formed (Object_fromEntries pairs) = true
  /\ (forall k, has_key (own_entries (Object_fromEntries pairs)) k = has_key pairs k)
  /\ (well_formed (JObj o) = true -> well_formed (JObj (obj_assign o src)) = true)
  /\ (forall k, has_key (obj_assign o src) k = has_key o k || has_key (own_entries src) k).
Proof.
  split; [|split; [|split]].
  - unfold well_formed, Object_fromEntries. simpl. now apply fold_obj_set_keeps_order.
  - intros k. unfold Object_fromEntries. simpl. now rewrite has_key_fold_obj_set.
  - unfold well_formed, obj_assign. simpl. apply fold_obj_set_keeps_order.
  - intros k. unfold obj_assign. apply has_key_fold_obj_set.
Qed.

(** Later pairs win and array indices move to the front. *)
(** X17: [getReportedProperties] and [getDesiredProperties] return the
    section of the twin without its metadata: the properties whose key is
    the version key, the component-marker key, ["update"] or starts with a
    dollar sign are gone, every other property is there with its value, in
    the order of the section.  The object returned is a proper object
    whatever the section is. *)
Theorem twin_properties_filtered (M : Markers) (twin : Twin) :
  (well_formed (reported twin) = true ->
   getReportedProperties M twin
   = JObj (List.filter (fun kv => not_twin_meta M (fst kv)) (own_entries (reported twin))))
  /\ (well_formed (desired twin) = true ->
      getDesiredProperties M twin
      = JObj (List.filter (fun kv => not_twin_meta M (fst kv)) (own_entries (desired twin))))
  /\ well_formed (getReportedProperties M twin) = true
  /\ well_formed (getDesiredProperties M twin) = true.
Proof.
  unfold getReportedProperties, getDesiredProperties.
  split; [|split; [|split]].
  - intros Hwf. rewrite Object_fromEntries_ordered by now apply filterTwinMeta_ordered.
    now rewrite filterTwinMeta_entries.
  - intros Hwf. rewrite Object_fromEntries_ordered by now apply filterTwinMeta_ordered.
    now rewrite filterTwinMeta_entries.
  - unfold well_formed, Object_fromEntries. simpl. now apply fold_obj_set_keeps_order.
  - unfold well_formed, Object_fromEntries. simpl. now apply fold_obj_set_keeps_order.
Qed.

Example Object_fromEntries_reorders :
  Object_fromEntries [("b", JNum 1); ("10", JNum 2); ("2", JNum 3); ("b", JNum 4)]
  = JObj [("2", JNum 3); ("10", JNum 2); ("b", JNum 4)].
Proof. reflexivity. Qed.

Lemma upload_notifies_status_witness :
  upload Fixture.getSas Fixture.failingUpload Fixture.notified "/var/log.txt" "log.txt" JUndefined
  = ([GetBlobSharedAccessSignature "log.txt";
      UploadFile "https://store.blob.core.windows.net/uploads/device-1/log.txt?sig=abc"
        "/var/log.txt" JUndefined;
      NotifyBlobUploadStatus "corr-1"
        {| success := false; statusCode := JStr "ENOENT"; description := JStr "no such file" |}],
     Ok {| success := false; statusCode := JStr "ENOENT"; description := JStr "no such file" |}).
Proof.
  destruct (upload_notifies_status Fixture.getSas Fixture.failingUpload Fixture.notified
              "/var/log.txt" "log.txt" JUndefined Fixture.blob) as [status [Hrun Hstatus]].
  - reflexivity.
  - intros err [= <-]. split; discriminate.
  - simpl in Hstatus. subst status. exact Hrun.
Defined.

(** ** Telemetry *)

Lemma has_key_obj_without (k : string) (o : Props) (k' : string) :
  has_key (obj_without k o) k' = has_key o k' && negb (String.eqb k' k).
Proof. unfold obj_without. apply (has_key_filter_key (fun key => negb (String.eqb key k))). Qed.

(** X14: what a telemetry message carries.  On a device client created
    with options that name no [meta], the first header of every message is
    the type under "x-message-type"; a message of
    [sendComponentTelemetry] carries, after it, the component key under the
    component-marker header and nothing else; the body is the payload, or
    the empty object when the payload is [null] or [undefined]; and the
    message is handed to [sendEvent] once. *)
Theorem component_telemetry_headers
  (options : Props) (sendEvent : Message -> option JValue) (marker : string)
  (component : PnPComponent) (type : string) (payload : JValue) :
  has_key options "meta" = false ->
  let message := {| data := js_nullish_or payload (JObj []);
                    contentEncoding := "utf-8";
                    contentType := "application/json";
                    added := [(JStr "x-message-type", JStr type);
                              (JStr marker, JStr (componentKey component))] |} in
  sendComponentTelemetry (device_client_options options) sendEvent marker component type payload
  = ([message],
     match sendEvent message with
     | None => Ok tt
     | Some reason => Throw (TransportError reason)
     end)
  /\ fst (sendTelemetry_component (device_client_options options) sendEvent type payload)
     = [{| data := js_nullish_or payload (JObj []);
           contentEncoding := "utf-8";
           contentType := "application/json";
           added := [(JStr "x-message-type", JStr type)] |}].
Proof.
  intros Hmeta message.
  assert (Hid : js_member (js_get (device_client_options options) "meta") "messageTypeIdentifier"
                = Ok (JStr "x-message-type")).
  { unfold device_client_options, js_get. simpl.
    rewrite obj_lookup_obj_assign_absent; [reflexivity|]. simpl.
    rewrite has_key_obj_without, Hmeta. reflexivity. }
  unfold sendComponentTelemetry, sendTelemetry_component, sendTelemetry, createMessage.
  rewrite Hid. simpl. split; reflexivity.
Qed.

Lemma component_telemetry_headers_witness :
  fst (sendComponentTelemetry
         (device_client_options [("identityManager", JObj []); ("connectionRetries", JNum 5)])
         (fun _ => None) "$.sub" Scenario.compA "temperature" JNull)
  = [{| data := JObj [];
        contentEncoding := "utf-8";
        contentType := "application/json";
        added := [(JStr "x-message-type", JStr "temperature"); (JStr "$.sub", JStr "compA")] |}].
Proof.
  rewrite (proj1 (component_telemetry_headers
                    [("identityManager", JObj []); ("connectionRetries", JNum 5)]
                    (fun _ => None) "$.sub" Scenario.compA "temperature" JNull eq_refl)).
  reflexivity.
Defined.

(** X15: the configured header wins, and a [meta] that is given but empty
    stops telemetry.  With options whose [meta] names a
    [messageTypeIdentifier], the type travels under that header; with
    [meta] given as [null] or [undefined], creating the message throws a
    [TypeError] and nothing is handed to [sendEvent]. *)
Theorem telemetry_header_configured
  (options : Props) (sendEvent : Message -> option JValue) (meta : JValue)
  (telemetry : Telemetry) :
  keys_ordered (List.map fst options) = true ->
  In ("meta", meta) options ->
  match meta with
  | JNull | JUndefined =>
      exists msg, sendTelemetry (device_client_options options) sendEvent telemetry
                  = ([], Throw (TypeError msg))
  | _ =>
      exists message,
        createMessage (device_client_options options) telemetry = Ok message
        /\ List.head (added message)
           = Some (js_get meta "messageTypeIdentifier", JStr (telemetry_type telemetry))
  end.
Proof.
  intros Hord Hin.
  assert (Hmeta : js_get (device_client_options options) "meta" = meta).
  { unfold device_client_options, js_get. simpl.
    rewrite obj_assign_lookup.
    - simpl. rewrite (obj_lookup_In _ "meta" meta); [reflexivity | |].
      + apply keys_ordered_NoDup. now apply keys_ordered_filter.
      + apply filter_In. split; [assumption | reflexivity].
    - unfold well_formed. simpl. now apply keys_ordered_filter. }
  unfold sendTelemetry, createMessage. rewrite Hmeta.
  destruct meta; simpl; eauto.
Qed.

Lemma telemetry_header_configured_witness :
  exists message,
    createMessage
      (device_client_options [("meta", JObj [("messageTypeIdentifier", JStr "kind")])])
      {| telemetry_type := "alarm"; payload := JNum 1; properties := JUndefined |} = Ok message
    /\ List.head (added message) = Some (JStr "kind", JStr "alarm").
Proof.
  apply (telemetry_header_configured
           [("meta", JObj [("messageTypeIdentifier", JStr "kind")])] (fun _ => None)
           (JObj [("messageTypeIdentifier", JStr "kind")])
           {| telemetry_type := "alarm"; payload := JNum 1; properties := JUndefined |}).
  - reflexivity.
  - now left.
Defined.

(** ** Options from the environment *)

Lemma obj_assign_ordered (o : Props) (src : JValue) :
  keys_ordered (List.map fst o) = true ->
  keys_ordered (List.map fst (obj_assign o src)) = true.
Proof. intros H. unfold obj_assign. now apply fold_obj_set_keeps_order. Qed.

Lemma setupFromEnv_lookup
  (env : gmap string string) (default_certs_dir : string) (overrides : JValue) (k : string) :
  well_formed overrides = true ->
  obj_lookup (own_entries (setupFromEnv env default_certs_dir overrides)) k
  = match obj_lookup (own_entries overrides) k with
    | Some v => Some v
    | None =>
        match obj_lookup (own_entries (envOptions env)) k with
        | Some v => Some v
        | None => obj_lookup (own_entries (defaultIdentityManagerOptions default_certs_dir)) k
        end
    end.
Proof.
  intros Hwf.
  assert (Hdef : well_formed (defaultIdentityManagerOptions default_certs_dir) = true)
    by reflexivity.
  assert (Henv : well_formed (envOptions env) = true) by reflexivity.
  unfold setupFromEnv, IdentityManager_options.
  generalize dependent (envOptions env). intros envOpts Henv.
  generalize dependent (defaultIdentityManagerOptions default_certs_dir). intros defaults Hdef.
  change (own_entries (JObj ?o)) with o.
  rewrite obj_assign_lookup.
  2:{ unfold well_formed. change (own_entries (JObj ?o)) with o.
      repeat apply obj_assign_ordered. reflexivity. }
  change (own_entries (JObj ?o)) with o.
  rewrite (obj_assign_lookup _ overrides) by assumption.
  rewrite (obj_assign_lookup _ envOpts) by assumption.
  rewrite !(obj_assign_lookup [] defaults) by assumption.
  simpl obj_lookup.
  destruct (obj_lookup (own_entries overrides) k); [reflexivity|].
  destruct (obj_lookup (own_entries envOpts) k); [reflexivity|].
  now destruct (obj_lookup (own_entries defaults) k).
Qed.

(** X16: where the options of [setupFromEnv] come from.  An option named
    in [overrides] is taken from there.  Otherwise the provisioning host is
    the value of the environment, or the default host when the environment
    has none; the id scope is the value of the environment, and
    [undefined], not the default, when the environment has none; and the
    key length and the certificate directory are the defaults.  A variable
    set to the empty string counts as set. *)
Theorem setupFromEnv_precedence
  (env : gmap string string) (default_certs_dir : string) (overrides : JValue) :
  well_formed overrides = true ->
  let options := setupFromEnv env default_certs_dir overrides in
  (forall k v, In (k, v) (own_entries overrides) -> js_get options k = v)
  /\ (has_key (own_entries overrides) "provisioningHost" = false ->
      js_get options "provisioningHost"
      = JStr (match env !! EnvVariable.AzureProvisioningHost with
              | Some host => host
              | None => "global.azure-devices-provisioning.net"
              end))
  /\ (has_key (own_entries overrides) "idScope" = false ->
      js_get options "idScope"
      = js_of_option (env !! EnvVariable.AzureProvisioningIdScope))
  /\ (has_key (own_entries overrides) "keyLength" = false ->
      js_get options "keyLength" = JNum 2048)
  /\ (has_key (own_entries overrides) "certsDir" = false ->
      js_get options "certsDir" = JStr default_certs_dir).
Proof.
  intros Hwf options.
  pose proof (fun k => setupFromEnv_lookup env default_certs_dir overrides k Hwf) as Hget.
  fold options in Hget.
  unfold js_get. split; [|split; [|split; [|split]]].
  - intros k v Hin. rewrite Hget.
    rewrite (obj_lookup_In _ k v); [reflexivity | | assumption].
    now apply keys_ordered_NoDup.
  - intros Habsent. rewrite Hget, (obj_lookup_absent _ _ Habsent). simpl.
    unfold getEnv. now destruct (env !! EnvVariable.AzureProvisioningHost).
  - intros Habsent. rewrite Hget, (obj_lookup_absent _ _ Habsent). simpl.
    unfold getEnv. now destruct (env !! EnvVariable.AzureProvisioningIdScope).
  - intros Habsent. now rewrite Hget, (obj_lookup_absent _ _ Habsent).
  - intros Habsent. now rewrite Hget, (obj_lookup_absent _ _ Habsent).
Qed.

Lemma setupFromEnv_precedence_witness :
  js_get (setupFromEnv {[ "AZURE_PROVISIONING_ID_SCOPE" := "" ]} "/tmp/certs"
            (JObj [("keyLength", JNum 4096)])) "keyLength" = JNum 4096
  /\ js_get (setupFromEnv {[ "AZURE_PROVISIONING_ID_SCOPE" := "" ]} "/tmp/certs"
               (JObj [("keyLength", JNum 4096)])) "idScope" = JStr "".
Proof.
  destruct (setupFromEnv_precedence {[ "AZURE_PROVISIONING_ID_SCOPE" := "" ]} "/tmp/certs"
              (JObj [("keyLength", JNum 4096)]) eq_refl) as [Hover [_ [Hscope _]]].
  split.
  - apply Hover. now left.
  - rewrite Hscope by reflexivity. reflexivity.
Defined.

(** Without any variable set and without overrides, the id scope and the
    credentials of the SCEP server are [undefined]; the defaults for them
    are overwritten. *)
Example setupFromEnv_empty_environment :
  setupFromEnv ∅ "/tmp/certs" (JObj [])
  = JObj [("scepServer", JObj [("certUrl", JUndefined); ("otpUrl", JUndefined);
                               ("username", JUndefined); ("password", JUndefined)]);
          ("idScope", JUndefined);
          ("certsDir", JStr "/tmp/certs");
          ("keyLength", JNum 2048);
          ("provisioningHost", JStr "global.azure-devices-provisioning.net");
          ("config", JObj [("localityName", JUndefined);
                           ("organizationalUnitName", JUndefined);
                           ("countryName", JUndefined)])].
Proof. vm_compute. reflexivity. Qed.

(** ** Device identities *)

Import Identity.

Ltac async_unfold :=
  unfold mbind, mret, Async_bind, Async_ret, try_await, perform, observe, reject,
    of_external, calls, world, settled in *.

(** X18: [generatePrivateKey] leaves a key that is there alone: no program
    is run and the world is unchanged.  Otherwise it runs
    [openssl genrsa -out path keyLength] once.  It resolves only with
    [path], and then the file can be accessed; it rejects with the error of
    the program, or with [PrivateKeyGenerationError] when the program ended
    well without leaving the file. *)
Theorem generatePrivateKey_postcondition `{System}
  (deviceId path : string) (keyLength : Z) (w : World) :
  (accessible path w = true ->
   generatePrivateKey deviceId path keyLength w = ([], w, Resolved path))
  /\ (accessible path w = false ->
      calls (generatePrivateKey deviceId path keyLength w)
      = [ExecFile OPENSSL_PATH
           [JStr "genrsa"; JStr "-out"; JStr path; JStr (number_to_string keyLength)]])
  /\ (forall p, settled (generatePrivateKey deviceId path keyLength w) = Resolved p ->
      p = path /\ accessible path (world (generatePrivateKey deviceId path keyLength w)) = true)
  /\ (forall e, settled (generatePrivateKey deviceId path keyLength w) = Rejected e ->
      (e = PrivateKeyGenerationError path
       /\ accessible path (world (generatePrivateKey deviceId path keyLength w)) = false)
      \/ exists message, e = SystemError message).
Proof.
  unfold generatePrivateKey, openssl, executeCommand, exists_. async_unfold.
  simpl flat.
  destruct (accessible path w) eqn:Hpresent; simpl.
  - repeat split; try discriminate; intros; congruence.
  - destruct (execFile _ _ w) as [w1 [[]|message]] eqn:Hexec; simpl.
    + destruct (accessible path w1) eqn:Hgenerated; simpl.
      * repeat split; try discriminate; intros; congruence.
      * repeat split; try discriminate. intros e [= <-]. left. now split.
    + repeat split; try discriminate. intros e [= <-]. right. now exists message.
Qed.

(** X19: [getCa] resolves only with a list that is not empty, the names
    [readdir] gives for [caDir] at that moment, each behind [caDir] and a
    slash.  A directory that holds a file already is listed without any
    call; and the only calls [getCa] ever makes are the creation of [caDir]
    and [sscep getca]. *)
Theorem getCa_result `{System} (caDir certUrl : string) (w : World) :
  (forall paths, settled (getCa caDir certUrl w) = Resolved paths ->
     paths <> []
     /\ exists names, readdir caDir (world (getCa caDir certUrl w)) = Done names
          /\ paths = List.map (fun name => caDir +:+ "/" +:+ name) names)
  /\ (forall names, accessible caDir w = true -> readdir caDir w = Done names -> names <> [] ->
        getCa caDir certUrl w
        = ([], w, Resolved (List.map (fun name => caDir +:+ "/" +:+ name) names)))
  /\ List.Forall (fun call => call = MkDir caDir
                              \/ call = ExecFile SSCEP_PATH
                                          [JStr "getca"; JStr "-u"; JStr certUrl;
                                           JStr "-c"; JStr (join [caDir; "iot-ca.cer"])])
       (calls (getCa caDir certUrl w)).
Proof.
  unfold getCa, sscep, executeCommand, exists_, readDir, createDir. async_unfold.
  simpl flat.
  destruct (accessible caDir w) eqn:Hpresent; simpl.
  - destruct (readdir caDir w) as [[|name names]|message] eqn:Hread; simpl.
    + destruct (execFile _ _ w) as [w1 [[]|message]] eqn:Hexec; simpl;
        [destruct (readdir caDir w1) as [[|name names]|message] eqn:Hfetched; simpl|];
        (split; [|split]); try discriminate; try congruence; auto.
      intros paths [= <-]. split; [discriminate|]. now exists (name :: names).
    + (split; [|split]); auto.
      * intros paths [= <-]. split; [discriminate|]. exists (name :: names). now split.
      * intros names' _ [= <-] _. reflexivity.
    + (split; [|split]); try discriminate; auto.
  - destruct (mkDir caDir w) as [w0 [[]|message]] eqn:Hmk; simpl;
      [destruct (execFile _ _ w0) as [w1 [[]|message']] eqn:Hexec; simpl;
       [destruct (readdir caDir w1) as [[|name names]|message''] eqn:Hfetched; simpl|]|];
      (split; [|split]); try discriminate; auto.
    intros paths [= <-]. split; [discriminate|]. now exists (name :: names).
Qed.

(** X20: [generateDeviceIdentity] rejects only with a
    [DeviceIdentityCreationError] for its device, and only when the stored
    identity could not be used and the enrolment that followed, in the
    world the first attempt left, rejected too; the message argument of the
    error is the message of the error of the enrolment.  Why the stored
    identity was not used is not reported: the error does not depend on
    it.  An identity it resolves with carries the device id and the model
    id it was called with. *)
Theorem generateDeviceIdentity_outcome `{System}
  (options : IdentityManagerOptions) (deviceId modelId : string) (w : World) :
  (forall e, settled (generateDeviceIdentity options deviceId modelId w) = Rejected e ->
     exists cause error,
       settled (stored_identity options deviceId w) = Rejected cause
       /\ settled (enrolled_identity options deviceId
                     (world (stored_identity options deviceId w)))
          = Rejected error
       /\ e = DeviceIdentityCreationError deviceId (message_of error))
  /\ (forall identity,
        settled (generateDeviceIdentity options deviceId modelId w) = Resolved identity ->
        Identity.deviceId identity = deviceId /\ Identity.modelId identity = Some modelId).
Proof.
  unfold generateDeviceIdentity.
  generalize (stored_identity options deviceId) as stored.
  generalize (enrolled_identity options deviceId) as enrolled.
  intros enrolled stored.
  unfold mbind, Async_bind, mret, Async_ret, try_await, reject, settled, world.
  destruct (stored w) as [[tr w'] [pair|cause]]; simpl.
  - split; [discriminate|]. now intros identity [= <-].
  - destruct (enrolled w') as [[tr' w''] [pair|error]]; simpl.
    + split; [discriminate|]. now intros identity [= <-].
    + split; [|discriminate]. intros e [= <-]. now exists cause, error.
Qed.

(** X21: when the certificate and the key of the device can be read and
    the certificate is not past its [notAfter] date (a certificate that
    expires at this very moment counts as valid), [generateDeviceIdentity]
    answers from the disk: it calls nothing and changes nothing. *)
Theorem stored_identity_reused `{System}
  (options : IdentityManagerOptions) (deviceId modelId : string) (w : World)
  (storedCert storedKey : string) (notAfter : Z) :
  fsReadFile (join [certsDir options; deviceId; deviceId +:+ ".cer"]) w = Done storedCert ->
  fsReadFile (join [certsDir options; deviceId; deviceId +:+ ".key"]) w = Done storedKey ->
  parseCert_notAfter storedCert = Done notAfter ->
  (Date_now w <= notAfter)%Z ->
  generateDeviceIdentity options deviceId modelId w
  = ([], w, Resolved {| deviceId := deviceId; modelId := Some modelId;
                        cert := storedCert; key := storedKey |}).
Proof.
  intros Hcert Hkey Hparse Hvalid.
  unfold generateDeviceIdentity, stored_identity, enrolled_identity, getDeviceCertificate,
    getDeviceKey, validateCertificate,
    readFile.
  async_unfold. rewrite Hcert. simpl. rewrite Hkey. simpl. rewrite Hparse. simpl.
  destruct (Z.ltb_spec notAfter (Date_now w)) as [Hlt|_]; [lia|]. reflexivity.
Qed.

Lemma stored_identity_reused_witness :
  @generateDeviceIdentity Disk.system Disk.options "device-1" "dtmi:wuh:sterilizer:Device;1"
    Disk.enrolled
  = ([], Disk.enrolled,
     Resolved {| deviceId := "device-1"; modelId := Some "dtmi:wuh:sterilizer:Device;1";
                 cert := "CERT"; key := "KEY" |}).
Proof.
  apply (@stored_identity_reused Disk.system Disk.options "device-1" "dtmi:wuh:sterilizer:Device;1"
           Disk.enrolled "CERT" "KEY" 2000); [reflexivity | reflexivity | reflexivity |].
  simpl. lia.
Defined.

(** X22: an expired certificate that stays on disk is not renewed.
    [generateDeviceIdentity] fetches a one-time passcode and creates the
    directories, finds the key and the certificate file in place, runs no
    program, leaves the temporary directory behind and resolves with the
    expired certificate. *)
Theorem expired_certificate_not_renewed `{System}
  (options : IdentityManagerOptions) (deviceId modelId : string)
  (storedCert storedKey passcode : string) (notAfter : Z)
  (fetch : list Call) (w w1 w2 w3 w4 : World) :
  let deviceDir := join [certsDir options; deviceId] in
  fsReadFile (join [certsDir options; deviceId; deviceId +:+ ".cer"]) w = Done storedCert ->
  fsReadFile (join [certsDir options; deviceId; deviceId +:+ ".key"]) w = Done storedKey ->
  parseCert_notAfter storedCert = Done notAfter ->
  (notAfter < Date_now w)%Z ->
  getOneTimePasscode (scepServer options) w = (fetch, w1, Resolved passcode) ->
  mkDir (join [certsDir options; "ca"]) w1 = (w2, Done tt) ->
  mkDir deviceDir w2 = (w3, Done tt) ->
  mkDir (join [deviceDir; ".tmp"]) w3 = (w4, Done tt) ->
  accessible deviceDir w4 = true ->
  accessible (join [deviceDir; deviceId +:+ ".cer"]) w4 = true ->
  accessible (join [deviceDir; deviceId +:+ ".key"]) w4 = true ->
  fsReadFile (join [deviceDir; deviceId +:+ ".cer"]) w4 = Done storedCert ->
  fsReadFile (join [deviceDir; deviceId +:+ ".key"]) w4 = Done storedKey ->
  generateDeviceIdentity options deviceId modelId w
  = (fetch ++ [MkDir (join [certsDir options; "ca"]); MkDir deviceDir;
               MkDir (join [deviceDir; ".tmp"])],
     w4,
     Resolved {| deviceId := deviceId; modelId := Some modelId;
                 cert := storedCert; key := storedKey |}).
Proof.
  intros deviceDir Hcert Hkey Hparse Hexpired Hfetch Hca Hdev Htmp Hdir
    Hcert_there Hkey_there Hcert4 Hkey4.
  unfold generateDeviceIdentity, stored_identity, enrolled_identity, getDeviceCertificate,
    getDeviceKey, validateCertificate,
    enrollIdentityCertificate, createCaDir, createDeviceDir, enrollCertificate,
    generatePrivateKey, createDir, readFile, exists_, TEMP_DIR_NAME.
  fold deviceDir.
  async_unfold. rewrite Hcert. simpl. rewrite Hkey. simpl. rewrite Hparse. simpl.
  destruct (Z.ltb_spec notAfter (Date_now w)) as [_|Hle]; [|lia]. simpl.
  rewrite Hfetch. simpl. rewrite Hca. simpl. rewrite Hdev. simpl. rewrite Htmp. simpl.
  rewrite Hkey_there. simpl. rewrite Hdir. simpl. rewrite Hcert_there. simpl.
  rewrite Hcert4. simpl. rewrite Hkey4. simpl.
  rewrite ?app_nil_r. reflexivity.
Qed.

Lemma expired_certificate_not_renewed_witness :
  @generateDeviceIdentity Disk.system Disk.options "device-1" "dtmi:wuh:sterilizer:Device;1"
    Disk.expired
  = ([NtlmGet "user" "secret" "https://scep/otp";
      MkDir "/certs/ca"; MkDir "/certs/device-1"; MkDir "/certs/device-1/.tmp"],
     {| Disk.files := Disk.files Disk.expired;
        Disk.dirs := ["/certs/device-1/.tmp"; "/certs/device-1"; "/certs/ca";
                      "/certs/device-1"; "/certs"];
        Disk.clock := 1500; Disk.online := true |},
     Resolved {| deviceId := "device-1"; modelId := Some "dtmi:wuh:sterilizer:Device;1";
                 cert := "OLD CERT"; key := "KEY" |}).
Proof.
  exact (@expired_certificate_not_renewed Disk.system Disk.options
           "device-1" "dtmi:wuh:sterilizer:Device;1" "OLD CERT" "KEY" "otp-123" 1000
           [NtlmGet "user" "secret" "https://scep/otp"]
           Disk.expired Disk.expired
           {| Disk.files := Disk.files Disk.expired;
              Disk.dirs := ["/certs/ca"; "/certs/device-1"; "/certs"];
              Disk.clock := 1500; Disk.online := true |}
           {| Disk.files := Disk.files Disk.expired;
              Disk.dirs := ["/certs/device-1"; "/certs/ca"; "/certs/device-1"; "/certs"];
              Disk.clock := 1500; Disk.online := true |}
           {| Disk.files := Disk.files Disk.expired;
              Disk.dirs := ["/certs/device-1/.tmp"; "/certs/device-1"; "/certs/ca";
                            "/certs/device-1"; "/certs"];
              Disk.clock := 1500; Disk.online := true |}
           eq_refl eq_refl eq_refl eq_refl eq_refl eq_refl eq_refl eq_refl
           eq_refl eq_refl eq_refl eq_refl eq_refl).
Defined.

(** ** Calls *)

Lemma calls_bind `{System} {A B : Type} (P : Call -> Prop)
  (m : Async A) (f : A -> Async B) (w : World) :
  List.Forall P (calls (m w)) ->
  (forall a w', List.Forall P (calls (f a w'))) ->
  List.Forall P (calls ((m ≫= f) w)).
Proof.
  unfold mbind, Async_bind, calls. intros Hm Hf.
  destruct (m w) as [[tr w'] [a|e]]; simpl in *; [|assumption].
  specialize (Hf a w'). destruct (f a w') as [[tr' w''] r]. simpl in *.
  apply List.Forall_app. now split.
Qed.

Lemma calls_try_await `{System} {A : Type} (P : Call -> Prop)
  (body : Async A) (handler : IdentityError -> Async A) (w : World) :
  List.Forall P (calls (body w)) ->
  (forall e w', List.Forall P (calls (handler e w'))) ->
  List.Forall P (calls (try_await body handler w)).
Proof.
  unfold try_await, calls. intros Hm Hf.
  destruct (body w) as [[tr w'] [a|e]]; simpl in *; [assumption|].
  specialize (Hf e w'). destruct (handler e w') as [[tr' w''] r]. simpl in *.
  apply List.Forall_app. now split.
Qed.

Lemma calls_perform `{System} {A : Type} (P : Call -> Prop)
  (c : Call) (op : World -> World * External A) (w : World) :
  P c -> List.Forall P (calls (perform c op w)).
Proof.
  intros Hc. unfold perform, calls. destruct (op w) as [w' r]. simpl. now constructor.
Qed.

Lemma calls_executeCommand `{System} (P : Call -> Prop)
  (command : string) (params : list JValue) (w : World) :
  P (ExecFile command (flat params)) ->
  List.Forall P (calls (executeCommand command params w)).
Proof.
  intros Hc. unfold executeCommand. apply calls_try_await.
  - now apply calls_perform.
  - intros e w'. constructor.
Qed.

Lemma calls_evaluated `{System} (P : Call -> Prop) (text : option string) (w : World) :
  List.Forall P (calls (evaluated text w)).
Proof. destruct text; constructor. Qed.

Lemma number_to_string_2048 :
  number_to_string defaultPrivateKeyOptions_keyLength = "2048".
Proof. vm_compute. reflexivity. Qed.

Ltac calls_step :=
  first
    [ apply calls_bind; [|intros ? ?]
    | apply calls_try_await; [|intros ? ?]
    | apply calls_executeCommand
    | apply calls_perform
    | apply calls_evaluated
    | apply List.Forall_nil
    | match goal with
      | |- context [if ?b then _ else _] => destruct b
      | |- context [match ?l with [] => _ | _ :: _ => _ end] => destruct l
      end ].

(** X23: the [keyLength] option of the identity manager has no effect:
    every [genrsa] run that [generateDeviceIdentity] starts asks for 2048
    bits. *)
Theorem key_length_option_ignored `{System}
  (options : IdentityManagerOptions) (deviceId modelId : string) (w : World) :
  List.Forall genrsa_2048 (calls (generateDeviceIdentity options deviceId modelId w)).
Proof.
  unfold generateDeviceIdentity, stored_identity, enrolled_identity, getDeviceCertificate,
    getDeviceKey, validateCertificate, getOneTimePasscode, enrollIdentityCertificate,
    createCaDir, createDeviceDir, enrollCertificate, generateCsrRequest, getCa,
    generatePrivateKey, sscep, openssl, createDir, writeFile, readDir, readFile, removeDir,
    exists_, observe, reject.
  rewrite number_to_string_2048.
  repeat calls_step; simpl; auto; try constructor; simpl; auto.
Qed.

Example key_length_option_ignored_example :
  keyLength Disk.options = 4096%Z
  /\ In (ExecFile "openssl" [JStr "genrsa"; JStr "-out"; JStr "/certs/device-1/device-1.key";
                            JStr "2048"])
       (calls (@generateDeviceIdentity Disk.system Disk.options "device-1"
                 "dtmi:wuh:sterilizer:Device;1" Disk.empty)).
Proof. split; [reflexivity|]. vm_compute. tauto. Qed.

(** X24: what the error of [generateDeviceIdentity] says when a directory
    cannot be created.  A failure for the CA directory is caught twice, in
    [enrollIdentityCertificate] and in [generateDeviceIdentity], and the
    message argument is the message of a [DeviceIdentityCreationError]
    already; a failure for the temporary directory, inside
    [enrollCertificate], is caught once. *)
Theorem creation_error_message `{System}
  (options : IdentityManagerOptions) (deviceId modelId : string)
  (cause passcode : string) (fetch : list Call) (w w1 : World) :
  let caDir := join [certsDir options; "ca"] in
  let deviceDir := join [certsDir options; deviceId] in
  let tempDir := join [deviceDir; ".tmp"] in
  fsReadFile (join [certsDir options; deviceId; deviceId +:+ ".cer"]) w = Failed cause ->
  getOneTimePasscode (scepServer options) w = (fetch, w1, Resolved passcode) ->
  (forall w2 reason,
     mkDir caDir w1 = (w2, Failed reason) ->
     generateDeviceIdentity options deviceId modelId w
     = (fetch ++ [MkDir caDir], w2,
        Rejected (DeviceIdentityCreationError deviceId
                    ("Failed to create device identity for " +:+ deviceId
                     +:+ (if js_truthy (JStr reason) then ": " +:+ reason else "")))))
  /\ (forall w2 w3 w4 reason,
        mkDir caDir w1 = (w2, Done tt) ->
        mkDir deviceDir w2 = (w3, Done tt) ->
        mkDir tempDir w3 = (w4, Failed reason) ->
        generateDeviceIdentity options deviceId modelId w
        = (fetch ++ [MkDir caDir; MkDir deviceDir; MkDir tempDir], w4,
           Rejected (DeviceIdentityCreationError deviceId reason))).
Proof.
  intros caDir deviceDir tempDir Hcert Hfetch. subst caDir deviceDir tempDir.
  unfold generateDeviceIdentity, stored_identity, enrolled_identity, getDeviceCertificate,
    enrollIdentityCertificate,
    createCaDir, createDeviceDir, enrollCertificate, createDir, readFile, TEMP_DIR_NAME.
  async_unfold. rewrite Hcert. simpl. rewrite Hfetch. simpl.
  split.
  - intros w2 reason Hca. rewrite Hca. simpl. rewrite ?app_nil_r. reflexivity.
  - intros w2 w3 w4 reason Hca Hdev Htmp. rewrite Hca. simpl. rewrite Hdev. simpl.
    rewrite Htmp. simpl. rewrite ?app_nil_r. reflexivity.
Qed.

Lemma creation_error_message_witness :
  @generateDeviceIdentity Disk.system Disk.options "device-1" "dtmi:wuh:sterilizer:Device;1"
    Disk.blocked_ca
  = ([NtlmGet "user" "secret" "https://scep/otp"; MkDir "/certs/ca"], Disk.blocked_ca,
     Rejected (DeviceIdentityCreationError "device-1"
                 "Failed to create device identity for device-1: EEXIST: file already exists")).
Proof.
  destruct (@creation_error_message Disk.system Disk.options
              "device-1" "dtmi:wuh:sterilizer:Device;1"
              "ENOENT: no such file or directory" "otp-123"
              [NtlmGet "user" "secret" "https://scep/otp"]
              Disk.blocked_ca Disk.blocked_ca eq_refl eq_refl) as [Htwice _].
  exact (Htwice Disk.blocked_ca "EEXIST: file already exists" eq_refl).
Defined.

Example creation_error_wrapped_once :
  settled (@generateDeviceIdentity Disk.system Disk.options "device-1"
             "dtmi:wuh:sterilizer:Device;1" Disk.blocked_tmp)
  = Rejected (DeviceIdentityCreationError "device-1" "EEXIST: file already exists").
Proof. reflexivity. Qed.

(** ** What a function ensures when it resolves *)

Lemma ensures_bind `{System} {A B : Type}
  (m : Async A) (f : A -> Async B) (P : A -> Prop) (Q : B -> World -> Prop) :
  (forall w a, settled (m w) = Resolved a -> P a) ->
  (forall a, P a -> ensures (f a) Q) ->
  ensures (m ≫= f) Q.
Proof.
  unfold ensures, mbind, Async_bind, settled, world. intros Hm Hf w b.
  specialize (Hm w). destruct (m w) as [[tr w'] [a|e]]; simpl in *; [|discriminate].
  specialize (Hf a (Hm a eq_refl) w' b).
  destruct (f a w') as [[tr' w''] r]. simpl in *. exact Hf.
Qed.

Lemma ensures_tail `{System} {A B : Type}
  (m : Async A) (f : A -> Async B) (Q : B -> World -> Prop) :
  (forall a, ensures (f a) Q) -> ensures (m ≫= f) Q.
Proof.
  intros Hf. apply (ensures_bind m f (fun _ => True)); auto.
Qed.

Lemma generatePrivateKey_resolves_path `{System}
  (deviceId path : string) (keyLength : Z) (w : World) (p : string) :
  settled (generatePrivateKey deviceId path keyLength w) = Resolved p -> p = path.
Proof.
  unfold generatePrivateKey, openssl, executeCommand, exists_. async_unfold.
  destruct (accessible path w); simpl; [congruence|].
  destruct (execFile _ _ w) as [w1 [[]|message]]; simpl; [|discriminate].
  destruct (accessible path w1); simpl; [congruence | discriminate].
Qed.

(** X25: the identity [enrollCertificate] resolves with is what the
    certificate file and the key file of the device hold at that moment;
    it carries the device id and no model id. *)
Theorem enrollCertificate_returns_files `{System}
  (outDir certUrl caDir deviceId : string) (csrConfig : JValue) (w : World)
  (identity : DeviceIdentity) :
  settled (enrollCertificate outDir certUrl caDir deviceId csrConfig w) = Resolved identity ->
  fsReadFile (join [outDir; deviceId +:+ ".cer"])
    (world (enrollCertificate outDir certUrl caDir deviceId csrConfig w))
  = Done (cert identity)
  /\ fsReadFile (join [outDir; deviceId +:+ ".key"])
       (world (enrollCertificate outDir certUrl caDir deviceId csrConfig w))
     = Done (key identity)
  /\ Identity.deviceId identity = deviceId
  /\ Identity.modelId identity = None.
Proof.
  revert w identity.
  change (ensures (enrollCertificate outDir certUrl caDir deviceId csrConfig)
            (fun identity w' =>
               fsReadFile (join [outDir; deviceId +:+ ".cer"]) w' = Done (cert identity)
               /\ fsReadFile (join [outDir; deviceId +:+ ".key"]) w' = Done (key identity)
               /\ Identity.deviceId identity = deviceId
               /\ Identity.modelId identity = None)).
  unfold enrollCertificate.
  apply ensures_tail. intros _.
  apply (ensures_bind _ _ (fun p => p = join [outDir; deviceId +:+ ".key"])).
  { intros w p. apply generatePrivateKey_resolves_path. }
  intros privateKeyPath ->.
  do 3 (apply ensures_tail; intros ?).
  intros w identity. unfold readFile. async_unfold.
  destruct (fsReadFile (join [outDir; deviceId +:+ ".cer"]) w) as [c|message] eqn:Hc;
    simpl; [|discriminate].
  destruct (fsReadFile (join [outDir; deviceId +:+ ".key"]) w) as [k|message] eqn:Hk;
    simpl; [|discriminate].
  intros [= <-]. simpl. auto.
Qed.

Lemma enrollCertificate_returns_files_witness :
  fsReadFile "/certs/device-1/device-1.cer"
    (world (@enrollCertificate Disk.system "/certs/device-1" "https://scep/cert" "/certs/ca"
              "device-1" (JObj [("passcode", JStr "otp-123")]) Disk.prepared))
  = Done "CERT".
Proof.
  pose proof (@enrollCertificate_returns_files Disk.system
                "/certs/device-1" "https://scep/cert" "/certs/ca"
                "device-1" (JObj [("passcode", JStr "otp-123")]) Disk.prepared
                {| deviceId := "device-1"; modelId := None; cert := "CERT"; key := "KEY" |}
                eq_refl) as [Hcert _].
  exact Hcert.
Defined.

(** X26: [removeDeviceIdentity] never rejects: whatever the registry
    answers to the deletion, the directory of the device is removed next
    and the promise resolves. *)
Theorem removeDeviceIdentity_never_rejects `{System}
  (registry_delete : string -> World -> World * External unit)
  (options : IdentityManagerOptions) (deviceId : string) (w : World) :
  removeDeviceIdentity registry_delete options deviceId w
  = ([RegistryDelete deviceId; Rimraf (join [certsDir options; deviceId])],
     rimraf (join [certsDir options; deviceId]) (fst (registry_delete deviceId w)),
     Resolved tt).
Proof.
  unfold removeDeviceIdentity, removeDevice, removeDeviceDir, removeDir. async_unfold.
  destruct (registry_delete deviceId w) as [w' [[]|message]]; reflexivity.
Qed.

(** X27: [addWritableProps] appends: after a sequence of calls for one
    target, the registry lists for it what it listed before followed by the
    properties in the order of the calls, duplicates included; the entries
    of other targets are untouched. *)
Theorem addWritableProps_accumulates
  (target : nat) (properties : list string) (writablePropertyMap : gmap nat (list string)) :
  default [] (fold_left (fun registry property => addWritableProps target property registry)
                properties writablePropertyMap !! target)
  = default [] (writablePropertyMap !! target) ++ properties
  /\ forall other, other <> target ->
       fold_left (fun registry property => addWritableProps target property registry)
         properties writablePropertyMap !! other
       = writablePropertyMap !! other.
Proof.
  revert writablePropertyMap.
  induction properties as [|property properties IH]; intros registry; simpl.
  - now rewrite app_nil_r.
  - destruct (IH (addWritableProps target property registry)) as [IHtarget IHother].
    split.
    + rewrite IHtarget. unfold addWritableProps. rewrite lookup_insert_eq. simpl.
      now rewrite <- app_assoc.
    + intros other Hne. rewrite (IHother other Hne). unfold addWritableProps.
      now rewrite lookup_insert_ne.
Qed.

Example addWritableProps_keeps_duplicates :
  fold_left (fun registry property => addWritableProps 7 property registry)
    ["temp"; "mode"; "temp"] ∅ !! 7
  = Some ["temp"; "mode"; "temp"].
Proof. reflexivity. Qed.
